(** * Verification of the document-structure extraction engine
      (backend/converter/utils/extractor.py)

    The development is a shallow embedding of the Python module: text is a
    sequence of Unicode code points, Python integers are [Z], a raised
    exception is an explicit error result, and every function below is a
    transcription of the function of the same name in extractor.py. *)

From Stdlib Require Import ZArith NArith List String Ascii Bool Lia DecimalString.
From stdpp Require Import base option list gmap strings.

Local Open Scope Z_scope.

(** ** Text: Python [str] as a list of code points *)

Definition str := list N.

(** String literals of this file are UTF-8; [u] decodes one into code points. *)
Fixpoint bytes_of_string (s : string) : list N :=
  match s with
  | EmptyString => []
  | String a s' => N_of_ascii a :: bytes_of_string s'
  end.

Fixpoint utf8_decode (bs : list N) : str :=
  match bs with
  | [] => []
  | b :: r =>
      if (b <? 128)%N then b :: utf8_decode r
      else if (b <? 224)%N then
        match r with
        | b1 :: r1 => ((b mod 32) * 64 + b1 mod 64)%N :: utf8_decode r1
        | _ => []
        end
      else if (b <? 240)%N then
        match r with
        | b1 :: b2 :: r2 =>
            ((b mod 16) * 4096 + (b1 mod 64) * 64 + b2 mod 64)%N :: utf8_decode r2
        | _ => []
        end
      else
        match r with
        | b1 :: b2 :: b3 :: r3 =>
            ((b mod 8) * 262144 + (b1 mod 64) * 4096 + (b2 mod 64) * 64 + b3 mod 64)%N
              :: utf8_decode r3
        | _ => []
        end
  end.

Definition u (s : string) : str := utf8_decode (bytes_of_string s).

(** Python exceptions that the modelled code can raise. *)
Inductive exn :=
  | ValueError | IndexError | KeyError | AttributeError | TypeError | UnboundLocalError.

Inductive result (A : Type) :=
  | Ok (a : A)
  | Raise (e : exn).
Arguments Ok {A} a.
Arguments Raise {A} e.

#[global] Instance result_ret : MRet result := fun A a => Ok a.
#[global] Instance result_bind : MBind result := fun A B f r =>
  match r with
  | Ok a => f a
  | Raise e => Raise e
  end.

(** ** Python sequence primitives *)

Section Sequences.
Context {A : Type}.

Definition len (s : list A) : Z := Z.of_nat (length s).

(** [s[a:b]] with Python's clamping and negative indices. *)
Definition norm_index (n i : Z) : Z :=
  if i <? 0 then Z.max 0 (n + i) else Z.min i n.

Definition slice (s : list A) (a b : Z) : list A :=
  let n := len s in
  let a' := norm_index n a in
  let b' := norm_index n b in
  take (Z.to_nat (b' - a')) (drop (Z.to_nat a') s).

Definition slice_from (s : list A) (a : Z) : list A := slice s a (len s).
Definition slice_to (s : list A) (b : Z) : list A := slice s 0 b.
End Sequences.

(** [range(start, stop, step)]; a zero step raises ValueError. *)
Definition range_count (start stop step : Z) : Z :=
  if 0 <? step then Z.max 0 ((stop - start + step - 1) / step)
  else Z.max 0 ((start - stop - step - 1) / (- step)).

Definition py_range (start stop step : Z) : result (list Z) :=
  if step =? 0 then Raise ValueError
  else Ok (map (fun k => start + Z.of_nat k * step)
               (seq 0 (Z.to_nat (range_count start stop step)))).

(** ** Python [str] methods *)

(** [str.isspace] on one code point; the same set is [\s] of the [re]
    module on [str] patterns. *)
Definition is_space (c : N) : bool :=
  ((9 <=? c) && (c <=? 13) || (28 <=? c) && (c <=? 32) || (c =? 133) || (c =? 160)
   || (c =? 5760) || (8192 <=? c) && (c <=? 8202) || (c =? 8232) || (c =? 8233)
   || (c =? 8239) || (c =? 8287) || (c =? 12288))%N.

Definition is_ascii (c : N) : bool := (c <? 128)%N.
Definition ascii_isupper (c : N) : bool := ((65 <=? c) && (c <=? 90))%N.
Definition ascii_islower (c : N) : bool := ((97 <=? c) && (c <=? 122))%N.
Definition ascii_isalpha (c : N) : bool := ascii_isupper c || ascii_islower c.
Definition ascii_isdigit (c : N) : bool := ((48 <=? c) && (c <=? 57))%N.
Definition ascii_lower (c : N) : N := if ascii_isupper c then (c + 32)%N else c.
Definition ascii_upper (c : N) : N := if ascii_islower c then (c - 32)%N else c.

(** The Unicode character database of the Python runtime is not part of the
    repository; what the code needs of it beyond ASCII is a parameter.  The
    case conversions are given on whole strings, as [str.lower] is context
    sensitive outside ASCII. *)
Class UnicodeData := {
  ud_isdecimal : N -> bool;
  ud_isalnum : N -> bool;
  ud_islower : N -> bool;
  ud_isupper : N -> bool;
  ud_lower : str -> str;
  ud_upper : str -> str;
  ud_title : str -> str;
}.

(** Title-casing of an ASCII string: a letter after a letter is lowered, any
    other letter is raised. *)
Fixpoint ascii_title (prev_cased : bool) (s : str) : str :=
  match s with
  | [] => []
  | c :: s' =>
      (if prev_cased then ascii_lower c else ascii_upper c)
        :: ascii_title (ascii_isalpha c) s'
  end.

(** The database in which no code point beyond ASCII is a letter or a digit;
    it agrees with Python on text made of ASCII and uncased symbols. *)
Definition plain_unicode : UnicodeData := {|
  ud_isdecimal := fun _ => false;
  ud_isalnum := fun _ => false;
  ud_islower := fun _ => false;
  ud_isupper := fun _ => false;
  ud_lower := map ascii_lower;
  ud_upper := map ascii_upper;
  ud_title := ascii_title false;
|}.

Section PyStr.
Context `{UD : UnicodeData}.

Definition is_decimal (c : N) : bool := if is_ascii c then ascii_isdigit c else ud_isdecimal c.
Definition is_alnum (c : N) : bool :=
  if is_ascii c then ascii_isalpha c || ascii_isdigit c else ud_isalnum c.
Definition is_word (c : N) : bool := is_alnum c || (c =? 95)%N.
Definition char_islower (c : N) : bool := if is_ascii c then ascii_islower c else ud_islower c.
Definition char_isupper (c : N) : bool := if is_ascii c then ascii_isupper c else ud_isupper c.

Definition lower (s : str) : str := if forallb is_ascii s then map ascii_lower s else ud_lower s.
Definition upper (s : str) : str := if forallb is_ascii s then map ascii_upper s else ud_upper s.
Definition title (s : str) : str := if forallb is_ascii s then ascii_title false s else ud_title s.

(** [s[0].islower()] and [s[0].isupper()] on a string that may be empty
    (callers guard the empty case). *)
Definition first_islower (s : str) : bool := match s with c :: _ => char_islower c | [] => false end.
Definition first_isupper (s : str) : bool := match s with c :: _ => char_isupper c | [] => false end.

(** [s[0].upper() + s[1:]] *)
Definition capitalize_first (s : str) : str :=
  match s with
  | c :: s' => upper [c] ++ s'
  | [] => []
  end.
End PyStr.

Definition str_eqb (a b : str) : bool := bool_decide (a = b).

Fixpoint lstrip (s : str) : str :=
  match s with
  | c :: s' => if is_space c then lstrip s' else s
  | [] => []
  end.
Definition rstrip (s : str) : str := rev (lstrip (rev s)).
Definition strip (s : str) : str := rstrip (lstrip s).

Fixpoint startswith (s p : str) : bool :=
  match p, s with
  | [], _ => true
  | a :: p', b :: s' => (a =? b)%N && startswith s' p'
  | _ :: _, [] => false
  end.
Definition endswith (s p : str) : bool := startswith (rev s) (rev p).

(** [sub in s] *)
Fixpoint contains (s sub : str) : bool :=
  startswith s sub || match s with [] => false | _ :: s' => contains s' sub end.

(** [s.find(sub)]: index of the first occurrence, or -1. *)
Fixpoint find_from (s sub : str) (i : Z) : Z :=
  if startswith s sub then i
  else match s with [] => -1 | _ :: s' => find_from s' sub (i + 1) end.
Definition find (s sub : str) : Z := find_from s sub 0.

(** [s.rfind(sub, 0, stop)]: index of the last occurrence that ends at or
    before [stop], or -1. *)
Fixpoint rfind_from (s sub : str) (i : Z) (best : Z) (stop : Z) : Z :=
  let best' := if startswith s sub && (i + len sub <=? stop) then i else best in
  match s with [] => best' | _ :: s' => rfind_from s' sub (i + 1) best' stop end.
Definition rfind (s sub : str) (stop : Z) : Z := rfind_from s sub 0 (-1) (Z.min stop (len s)).

(** [s.replace(old, new)] for a non-empty [old]; [skip] counts the characters
    of a replaced occurrence still to be passed over. *)
Fixpoint replace_aux (old new : str) (skip : nat) (s : str) : str :=
  match s with
  | [] => []
  | c :: s' =>
      match skip with
      | S k => replace_aux old new k s'
      | O =>
          if startswith s old then new ++ replace_aux old new (length old - 1) s'
          else c :: replace_aux old new 0 s'
      end
  end.
Definition replace (s old new : str) : str := replace_aux old new 0 s.

(** [s.split(sep)] and [s.split(sep, maxsplit)] for a non-empty [sep]. *)
Fixpoint split_aux (sep : str) (maxsplit : option nat) (skip : nat) (cur : str) (s : str)
  : list str :=
  match s with
  | [] => [rev cur]
  | c :: s' =>
      match skip with
      | S k => split_aux sep maxsplit k cur s'
      | O =>
          match maxsplit with
          | Some O => [rev cur ++ s]
          | _ =>
              if startswith s sep
              then rev cur :: split_aux sep (pred <$> maxsplit) (length sep - 1) [] s'
              else split_aux sep maxsplit 0 (c :: cur) s'
          end
      end
  end.
Definition split (s sep : str) : list str := split_aux sep None 0 [] s.
Definition split_max (s sep : str) (maxsplit : nat) : list str :=
  split_aux sep (Some maxsplit) 0 [] s.

(** [s.split()]: the maximal runs of non-whitespace. *)
Fixpoint split_ws_aux (cur : str) (s : str) : list str :=
  match s with
  | [] => match cur with [] => [] | _ => [rev cur] end
  | c :: s' =>
      if is_space c
      then match cur with [] => split_ws_aux [] s' | _ => rev cur :: split_ws_aux [] s' end
      else split_ws_aux (c :: cur) s'
  end.
Definition split_ws (s : str) : list str := split_ws_aux [] s.

(** [sep.join(parts)] *)
Fixpoint join (sep : str) (parts : list str) : str :=
  match parts with
  | [] => []
  | [p] => p
  | p :: ps => p ++ sep ++ join sep ps
  end.

(** [x in xs] for a list of strings, and [any(p in s for p in ps)]. *)
Definition str_in (x : str) (xs : list str) : bool := existsb (str_eqb x) xs.
Definition contains_any (s : str) (ps : list str) : bool := existsb (contains s) ps.
Definition startswith_any (s : str) (ps : list str) : bool := existsb (startswith s) ps.

(** ** Regular expressions: the syntax of the [re] module *)

Inductive citem :=
  | CChar (c : N)
  | CRange (lo hi : N)
  | CSpace (positive : bool)
  | CDigit (positive : bool)
  | CWord (positive : bool).

Inductive regex :=
  | REps
  | RSet (neg : bool) (items : list citem)
  | RAny
  | RSeq (r1 r2 : regex)
  | RAlt (r1 r2 : regex)
  | RRep (r : regex) (lo : nat) (hi : option nat) (greedy : bool)
  | RGroup (n : nat) (r : regex)
  | RBol
  | REol
  | RWordB
  | RNotAhead (r : regex)
  | RBackref (n : nat).

(** A pattern that matches nothing. *)
Definition RFail : regex := RSet false [].

Definition ch (a : ascii) : N := N_of_ascii a.
Arguments ch a%_char.

(** In verbose mode ([re.X]) white space and [#] comments outside a class are
    not part of the pattern. *)
Definition is_pattern_space (c : N) : bool := ((9 <=? c) && (c <=? 13) || (c =? 32))%N.

Fixpoint skip_verbose (in_comment : bool) (s : str) : str :=
  match s with
  | [] => []
  | c :: s' =>
      if in_comment then skip_verbose (negb (c =? 10)%N) s'
      else if is_pattern_space c then skip_verbose false s'
      else if (c =? ch "#")%N then skip_verbose true s'
      else s
  end.

Definition skip_if (x : bool) (s : str) : str := if x then skip_verbose false s else s.

Fixpoint parse_nat (acc : nat) (s : str) : nat * str :=
  match s with
  | c :: s' =>
      if ascii_isdigit c then parse_nat (10 * acc + N.to_nat (c - 48)) s' else (acc, s)
  | [] => (acc, s)
  end.

(** [{m}], [{m,}], [{m,n}] after the opening brace. *)
Definition parse_braces (s : str) : option (nat * option nat * str) :=
  match s with
  | c :: _ =>
      if ascii_isdigit c then
        let '(lo, s1) := parse_nat 0 s in
        match s1 with
        | d :: s2 =>
            if (d =? ch "}")%N then Some (lo, Some lo, s2)
            else if (d =? ch ",")%N then
              match s2 with
              | e :: s3 =>
                  if (e =? ch "}")%N then Some (lo, None, s3)
                  else if ascii_isdigit e then
                    let '(hi, s4) := parse_nat 0 s2 in
                    match s4 with
                    | f :: s5 => if (f =? ch "}")%N then Some (lo, Some hi, s5) else None
                    | [] => None
                    end
                  else None
              | [] => None
              end
            else None
        | [] => None
        end
      else None
  | [] => None
  end.

Definition lazy_suffix (mk : bool -> regex) (s : str) : regex * str :=
  match s with
  | c :: s' => if (c =? ch "?")%N then (mk false, s') else (mk true, s)
  | [] => (mk true, s)
  end.

Definition parse_quant (x : bool) (a : regex) (s : str) : regex * str :=
  match skip_if x s with
  | c :: s1 =>
      if (c =? ch "*")%N then lazy_suffix (RRep a 0 None) s1
      else if (c =? ch "+")%N then lazy_suffix (RRep a 1 None) s1
      else if (c =? ch "?")%N then lazy_suffix (RRep a 0 (Some 1%nat)) s1
      else if (c =? ch "{")%N then
        match parse_braces s1 with
        | Some (lo, hi, s2) => lazy_suffix (RRep a lo hi) s2
        | None => (a, s)
        end
      else (a, s)
  | [] => (a, s)
  end.

(** The character or class named by the character after a backslash. *)
Definition escape_item (e : N) : citem :=
  if (e =? ch "s")%N then CSpace true
  else if (e =? ch "S")%N then CSpace false
  else if (e =? ch "d")%N then CDigit true
  else if (e =? ch "D")%N then CDigit false
  else if (e =? ch "w")%N then CWord true
  else if (e =? ch "W")%N then CWord false
  else if (e =? ch "n")%N then CChar 10
  else if (e =? ch "t")%N then CChar 9
  else if (e =? ch "r")%N then CChar 13
  else CChar e.

Fixpoint parse_class (fuel : nat) (s : str) (acc : list citem) : option (list citem * str) :=
  match fuel with
  | O => None
  | S f =>
      match s with
      | [] => None
      | c :: s1 =>
          if (c =? ch "]")%N then Some (rev acc, s1)
          else
            let '(item, s2) :=
              if (c =? ch "\")%N
              then match s1 with e :: s2 => (escape_item e, s2) | [] => (CChar c, s1) end
              else (CChar c, s1) in
            match item, s2 with
            | CChar lo, d :: e :: s3 =>
                if (d =? ch "-")%N && negb (e =? ch "]")%N then
                  if (e =? ch "\")%N
                  then match s3 with
                       | h :: s4 => parse_class f s4 (CRange lo h :: acc)
                       | [] => None
                       end
                  else parse_class f s3 (CRange lo e :: acc)
                else parse_class f s2 (item :: acc)
            | _, _ => parse_class f s2 (item :: acc)
            end
      end
  end.

Definition expect (c : N) (s : str) : option str :=
  match s with
  | d :: s' => if (d =? c)%N then Some s' else None
  | [] => None
  end.

Fixpoint parse_alt (fuel : nat) (x : bool) (s : str) (g : nat) {struct fuel}
  : option (regex * str * nat) :=
  match fuel with
  | O => None
  | S f =>
      '(r1, s1, g1) ← parse_seq f x s g;
      match s1 with
      | c :: s2 =>
          if (c =? ch "|")%N
          then '(r2, s3, g2) ← parse_alt f x s2 g1; Some (RAlt r1 r2, s3, g2)
          else Some (r1, s1, g1)
      | [] => Some (r1, s1, g1)
      end
  end
with parse_seq (fuel : nat) (x : bool) (s : str) (g : nat) {struct fuel}
  : option (regex * str * nat) :=
  match fuel with
  | O => None
  | S f =>
      match skip_if x s with
      | [] => Some (REps, [], g)
      | c :: s' =>
          if (c =? ch "|")%N || (c =? ch ")")%N then Some (REps, c :: s', g)
          else
            '(a, s1, g1) ← parse_atom f x (c :: s') g;
            let '(a', s2) := parse_quant x a s1 in
            '(rest, s3, g3) ← parse_seq f x s2 g1;
            Some (RSeq a' rest, s3, g3)
      end
  end
with parse_atom (fuel : nat) (x : bool) (s : str) (g : nat) {struct fuel}
  : option (regex * str * nat) :=
  match fuel with
  | O => None
  | S f =>
      match s with
      | [] => None
      | c :: s' =>
          if (c =? ch "(")%N then
            if startswith s' [ch "?"; ch ":"] then
              '(r, s1, g1) ← parse_alt f x (drop 2 s') g;
              s2 ← expect (ch ")") s1; Some (r, s2, g1)
            else if startswith s' [ch "?"; ch "!"] then
              '(r, s1, g1) ← parse_alt f x (drop 2 s') g;
              s2 ← expect (ch ")") s1; Some (RNotAhead r, s2, g1)
            else
              '(r, s1, g1) ← parse_alt f x s' (S g);
              s2 ← expect (ch ")") s1; Some (RGroup (S g) r, s2, g1)
          else if (c =? ch "[")%N then
            match s' with
            | d :: s1 =>
                if (d =? ch "^")%N
                then '(items, s2) ← parse_class (S (length s1)) s1 []; Some (RSet true items, s2, g)
                else '(items, s2) ← parse_class (S (length s')) s' []; Some (RSet false items, s2, g)
            | [] => None
            end
          else if (c =? ch "\")%N then
            match s' with
            | e :: s1 =>
                if (e =? ch "b")%N then Some (RWordB, s1, g)
                else if ascii_isdigit e then Some (RBackref (N.to_nat (e - 48)), s1, g)
                else Some (RSet false [escape_item e], s1, g)
            | [] => None
            end
          else if (c =? ch ".")%N then Some (RAny, s', g)
          else if (c =? ch "^")%N then Some (RBol, s', g)
          else if (c =? ch "$")%N then Some (REol, s', g)
          else Some (RSet false [CChar c], s', g)
      end
  end.

Record flags := { IGNORECASE : bool; DOTALL : bool; VERBOSE : bool }.
Definition no_flags : flags := {| IGNORECASE := false; DOTALL := false; VERBOSE := false |}.
Definition re_I : flags := {| IGNORECASE := true; DOTALL := false; VERBOSE := false |}.

Record pattern := { p_regex : regex; p_flags : flags }.

Definition parse_regex (x : bool) (s : str) : option regex :=
  match parse_alt (3 * length s + 3) x s 0 with
  | Some (r, [], _) => Some r
  | _ => None
  end.

(** [re.compile(p, flags)]; the patterns of extractor.py are all well formed. *)
Definition re_compile (fl : flags) (p : str) : pattern :=
  {| p_regex := default RFail (parse_regex (VERBOSE fl) p); p_flags := fl |}.

(** [re.escape] *)
Definition is_re_special (c : N) : bool :=
  existsb (N.eqb c) (u "()[]{}?*+-|^$\.&~# " ++ [9; 10; 13; 11; 12])%N.
Definition re_escape (s : str) : str :=
  flat_map (fun c => if is_re_special c then [ch "\"; c] else [c]) s.

(** ** Regular expressions: backtracking matcher *)

(** A position in the subject: index, previous character, remaining input. *)
Record mstate := { ms_pos : nat; ms_prev : option N; ms_rest : str }.

(** Captured groups: group number to (start, end), latest binding first. *)
Definition caps := list (nat * (nat * nat)).

Fixpoint cap_lookup (n : nat) (cs : caps) : option (nat * nat) :=
  match cs with
  | [] => None
  | (m, se) :: cs' => if (m =? n)%nat then Some se else cap_lookup n cs'
  end.

Record mres := { m_start : nat; m_end : nat; m_caps : caps }.

(** Under [re.I] an ASCII letter of a pattern also matches the four code
    points U+0130, U+0131 (i), U+017F (s) and U+212A (k).  The patterns of
    extractor.py contain no cased character beyond ASCII. *)
Definition fold_case (c : N) : N :=
  if ((c =? 304) || (c =? 305))%N then 105%N
  else if (c =? 383)%N then 115%N
  else if (c =? 8490)%N then 107%N
  else ascii_lower c.

Section Engine.
Context `{UD : UnicodeData}.
Variable fl : flags.
Variable subject : str.

Definition citem_mem (it : citem) (c : N) : bool :=
  match it with
  | CChar x => (c =? x)%N
  | CRange lo hi => ((lo <=? c) && (c <=? hi))%N
  | CSpace b => eqb b (is_space c)
  | CDigit b => eqb b (is_decimal c)
  | CWord b => eqb b (is_word c)
  end.

Definition set_mem (neg : bool) (items : list citem) (c : N) : bool :=
  let raw x := existsb (fun it => citem_mem it x) items in
  let hit :=
    if IGNORECASE fl
    then raw c || raw (fold_case c) || raw (ascii_upper (fold_case c))
    else raw c in
  xorb neg hit.

Definition step (st : mstate) (c : N) (rest : str) : mstate :=
  {| ms_pos := S (ms_pos st); ms_prev := Some c; ms_rest := rest |}.

Definition is_word_opt (o : option N) : bool :=
  match o with Some c => is_word c | None => false end.

Definition at_word_boundary (st : mstate) : bool :=
  xorb (is_word_opt (ms_prev st)) (is_word_opt (head (ms_rest st))).

Definition char_eq (a b : N) : bool :=
  if IGNORECASE fl then (fold_case a =? fold_case b)%N else (a =? b)%N.

(** Match the literal text [w] at [st] (used for back-references). *)
Fixpoint match_text (w : str) (st : mstate) : option mstate :=
  match w with
  | [] => Some st
  | a :: w' =>
      match ms_rest st with
      | c :: rest => if char_eq a c then match_text w' (step st c rest) else None
      | [] => None
      end
  end.

Definition orelse {A} (a b : option A) : option A :=
  match a with Some x => Some x | None => b end.

(** The loop of a repetition [r{lo,hi}]: [body] matches [r] once, [count]
    iterations are done.  An iteration that consumes nothing ends the
    repetition once [lo] is reached. *)
Fixpoint rep_loop
    (body : mstate -> caps -> (mstate -> caps -> option (mstate * caps))
            -> option (mstate * caps))
    (lo : nat) (hi : option nat) (greedy : bool)
    (k : mstate -> caps -> option (mstate * caps))
    (fuel count : nat) (st : mstate) (cs : caps) {struct fuel} : option (mstate * caps) :=
  match fuel with
  | O => None
  | S f =>
      let more :=
        if match hi with Some h => (count <? h)%nat | None => true end
        then body st cs (fun st' cs' =>
               if (ms_pos st' =? ms_pos st)%nat && (lo <=? S count)%nat
               then k st' cs'
               else rep_loop body lo hi greedy k f (S count) st' cs')
        else None in
      let stop := if (lo <=? count)%nat then k st cs else None in
      if greedy then orelse more stop else orelse stop more
  end.

(** [rmatch r st cs k]: the first way, in the priority order of the [re]
    module, to match [r] at [st] such that the continuation [k] accepts. *)
Fixpoint rmatch (r : regex) (st : mstate) (cs : caps)
    (k : mstate -> caps -> option (mstate * caps)) {struct r} : option (mstate * caps) :=
  match r with
  | REps => k st cs
  | RSet neg items =>
      match ms_rest st with
      | c :: rest => if set_mem neg items c then k (step st c rest) cs else None
      | [] => None
      end
  | RAny =>
      match ms_rest st with
      | c :: rest => if DOTALL fl || negb (c =? 10)%N then k (step st c rest) cs else None
      | [] => None
      end
  | RSeq r1 r2 => rmatch r1 st cs (fun st' cs' => rmatch r2 st' cs' k)
  | RAlt r1 r2 => orelse (rmatch r1 st cs k) (rmatch r2 st cs k)
  | RRep r' lo hi greedy =>
      rep_loop (rmatch r') lo hi greedy k (S (length (ms_rest st) + lo)) O st cs
  | RGroup n r' =>
      rmatch r' st cs (fun st' cs' => k st' ((n, (ms_pos st, ms_pos st')) :: cs'))
  | RBol => if (ms_pos st =? 0)%nat then k st cs else None
  | REol =>
      match ms_rest st with
      | [] => k st cs
      | [c] => if (c =? 10)%N then k st cs else None
      | _ => None
      end
  | RWordB => if at_word_boundary st then k st cs else None
  | RNotAhead r' =>
      match rmatch r' st cs (fun st' cs' => Some (st', cs')) with
      | Some _ => None
      | None => k st cs
      end
  | RBackref n =>
      match cap_lookup n cs with
      | Some (a, b) =>
          match match_text (take (b - a) (drop a subject)) st with
          | Some st' => k st' cs
          | None => None
          end
      | None => None
      end
  end.

(** Accept a match, unless it is empty where an empty match is not allowed
    (directly after an empty match of the same scan). *)
Definition accept (must_advance : bool) (start : nat) (st : mstate) (cs : caps)
  : option (mstate * caps) :=
  if must_advance && (ms_pos st =? start)%nat then None else Some (st, cs).

Definition match_at (r : regex) (st : mstate) (must_advance : bool) : option mres :=
  match rmatch r st [] (accept must_advance (ms_pos st)) with
  | Some (st', cs) => Some {| m_start := ms_pos st; m_end := ms_pos st'; m_caps := cs |}
  | None => None
  end.

Fixpoint search_at (r : regex) (pos : nat) (prev : option N) (rest : str)
    (must_advance : bool) : option mres :=
  match match_at r {| ms_pos := pos; ms_prev := prev; ms_rest := rest |} must_advance with
  | Some m => Some m
  | None =>
      match rest with
      | c :: rest' => search_at r (S pos) (Some c) rest' false
      | [] => None
      end
  end.

Definition state_at (i : nat) : mstate :=
  {| ms_pos := i;
     ms_prev := match i with O => None | S j => subject !! j end;
     ms_rest := drop i subject |}.

Definition search_from (r : regex) (i : nat) (must_advance : bool) : option mres :=
  let st := state_at i in search_at r i (ms_prev st) (ms_rest st) must_advance.

(** The successive matches of a scan ([re.sub], [re.split], [re.findall]). *)
Fixpoint scan (fuel : nat) (r : regex) (i : nat) (must_advance : bool) (limit : option nat)
  : list mres :=
  match fuel, limit with
  | O, _ => []
  | _, Some O => []
  | S f, _ =>
      match search_from r i must_advance with
      | None => []
      | Some m => m :: scan f r (m_end m) (m_end m =? m_start m)%nat (pred <$> limit)
      end
  end.
End Engine.

Section Re.
Context `{UD : UnicodeData}.

Definition substr (s : str) (a b : nat) : str := take (b - a) (drop a s).

(** [m.group(n)] for a group that may not have taken part in the match. *)
Definition group_opt (s : str) (m : mres) (n : nat) : option str :=
  match n with
  | O => Some (substr s (m_start m) (m_end m))
  | _ => (fun '(a, b) => substr s a b) <$> cap_lookup n (m_caps m)
  end.
Definition group (s : str) (m : mres) (n : nat) : str := default [] (group_opt s m n).

Definition re_match (p : pattern) (s : str) : option mres :=
  match_at (p_flags p) s (p_regex p) (state_at s 0) false.
Definition re_search (p : pattern) (s : str) : option mres :=
  search_from (p_flags p) s (p_regex p) 0 false.
Definition matches (p : pattern) (s : str) : bool := bool_decide (is_Some (re_match p s)).

Definition re_finditer (p : pattern) (s : str) (limit : option nat) : list mres :=
  scan (p_flags p) s (S (S (length s))) (p_regex p) 0 false limit.


(** The text between the matches [ms], starting at [i]. *)
Fixpoint between (s : str) (i : nat) (ms : list mres) (f : mres -> list str) : list str :=
  match ms with
  | [] => [drop i s]
  | m :: ms' => substr s i (m_start m) :: f m ++ between s (m_end m) ms' f
  end.

(** [re.sub(p, repl, s)] with the replacement given as a function of the match. *)
Definition re_sub (p : pattern) (repl : mres -> str) (s : str) : str :=
  concat (between s 0 (re_finditer p s None) (fun m => [repl m])).

(** [re.split(p, s)] and [re.split(p, s, maxsplit)] for a pattern without
    capturing groups. *)
Definition re_split (p : pattern) (s : str) : list str :=
  between s 0 (re_finditer p s None) (fun _ => []).
Definition re_split_max (p : pattern) (s : str) (maxsplit : nat) : list str :=
  between s 0 (re_finditer p s (Some maxsplit)) (fun _ => []).
End Re.

(** ** The document model (python-docx objects, read-only) *)

(** Whether a run lies inside a [w:hyperlink] element, and the [r:id] of that
    element if it has one. *)
Inductive link :=
  | NoLink
  | LinkNoId
  | LinkId (rid : str).

Record Run := {
  run_text : str;
  run_bold : bool;
  run_italic : bool;
  run_br : bool;
  run_link : link;
}.

(** [p_numPr] is the numbering property of the paragraph: [None] when it has
    none, [Some lvl] with the optional [ilvl] value when it has one. *)
Record Paragraph := {
  p_text : str;
  p_runs : list Run;
  p_style : str;
  p_numPr : option (option Z);
}.

Record Cell := { cell_text : str }.
Definition Row := list Cell.
Definition Table := list Row.

Record Document := {
  doc_paragraphs : list Paragraph;
  doc_tables : list Table;
  doc_rels : gmap str str;
}.

(** [l[i]], raising IndexError out of range. *)
Definition index {A} (l : list A) (i : nat) : result A :=
  match l !! i with
  | Some x => Ok x
  | None => Raise IndexError
  end.

(** [os.path.basename] and [os.path.splitext(...)[0]] (posixpath). *)
Definition basename (p : str) : str := slice_from p (rfind p (u "/") (len p) + 1).

Fixpoint all_dots_before (s : str) (n : nat) : bool :=
  match n, s with
  | O, _ => true
  | S n', c :: s' => (c =? ch ".")%N && all_dots_before s' n'
  | S _, [] => true
  end.

Definition splitext_root (name : str) : str :=
  let dot := rfind name (u ".") (len name) in
  if dot <? 0 then name
  else if all_dots_before name (Z.to_nat dot) then name
  else slice_to name dot.

Definition file_stem (docx_path : str) : str := splitext_root (basename docx_path).

(** Decimal rendering of an integer, as in [f"{n}"]. *)
Definition str_of_Z (n : Z) : str :=
  bytes_of_string (NilZero.string_of_int (Z.to_int n)).

Definition dquote : str := [34%N].
Definition nl : str := [10%N].

(** Truth value of a string. *)
Definition nonempty (s : str) : bool := match s with [] => false | _ => true end.

(** ** Helpers of extractor.py *)

Definition DASH : str := u "–".

(** [remove_emojis]: the pattern is one class of code-point ranges, repeated;
    replacing every match by the empty string deletes the characters of the
    class. *)
Definition emoji_ranges : list (N * N) :=
  [ (0x1F600, 0x1F64F); (0x1F300, 0x1F5FF); (0x1F680, 0x1F6FF); (0x1F700, 0x1F77F);
    (0x1F780, 0x1F7FF); (0x1F800, 0x1F8FF); (0x1F900, 0x1F9FF); (0x1FA00, 0x1FAFF);
    (0x2600, 0x26FF); (0x2700, 0x27BF); (0x2B00, 0x2BFF); (0x1F1E0, 0x1F1FF);
    (0x10000, 0x10FFFF) ]%N.

Definition is_emoji (c : N) : bool :=
  existsb (fun '(lo, hi) => (lo <=? c) && (c <=? hi))%N emoji_ranges.

Definition remove_emojis (text : str) : str := filter (fun c => is_emoji c = false) text.

(** ** Inline formatting of runs

    extractor.py defines [runs_to_html] three times at module level (lines
    190, 1571 and 3969); a call through the module name reaches the last
    definition.  The earlier two are kept under the line of their [def]. *)

Definition wrap (open_tag close_tag txt : str) : str := open_tag ++ txt ++ close_tag.

Definition format_run (bold italic : bool) (txt : str) : str :=
  if bold && italic then wrap (u "<b><i>") (u "</i></b>") txt
  else if bold then wrap (u "<b>") (u "</b>") txt
  else if italic then wrap (u "<i>") (u "</i>") txt
  else txt.

Module Line190.
(** [runs_to_html] "with hyperlink support"; [rels] is [run.part.rels], and a
    failed lookup is the exception that the [try] swallows. *)
Definition run_part (rels : gmap str str) (run : Run) : list str :=
  let txt := remove_emojis (strip (run_text run)) in
  match txt with
  | [] => []
  | _ =>
      match run_link run with
      | LinkId rid =>
          match rels !! rid with
          | Some target =>
              [u "<a href=" ++ dquote ++ target ++ dquote ++ u ">" ++ txt ++ u "</a>"]
          | None => [txt]
          end
      | LinkNoId => [txt]
      | NoLink => [format_run (run_bold run) (run_italic run) txt]
      end
  end.

Definition runs_to_html (rels : gmap str str) (runs : list Run) : str :=
  strip (join (u " ") (flat_map (run_part rels) runs)).
End Line190.

Module Line1571.
Definition run_part (run : Run) : list str :=
  let txt := remove_emojis (run_text run) in
  match txt, run_br run with
  | [], false => []
  | _, _ =>
      (if run_br run then [u "<br>"] else [])
        ++ [format_run (run_bold run) (run_italic run) txt]
  end.

Definition runs_to_html (runs : list Run) : str :=
  strip (join [] (flat_map run_part runs)).
End Line1571.

(** The definition in force (line 3969): bold and italic only. *)
Definition run_part (run : Run) : list str :=
  let txt := remove_emojis (strip (run_text run)) in
  match txt with
  | [] => []
  | _ => [format_run (run_bold run) (run_italic run) txt]
  end.

Definition runs_to_html (runs : list Run) : str :=
  strip (join (u " ") (flat_map run_part runs)).

Section Extractors.
Context `{UD : UnicodeData}.

(** ** SKU code *)

Definition extract_sku_code (docx_path : str) : str :=
  let sku_code := file_stem docx_path in
  let processed_sku := re_sub (re_compile re_I (u "\band\b")) (fun _ => u " ") sku_code in
  let processed_sku := re_sub (re_compile re_I (u "\bglobal\b")) (fun _ => []) processed_sku in
  let processed_sku :=
    re_sub (re_compile no_flags (u "\([^)]*\)")) (fun _ => u " ") processed_sku in
  let processed_sku :=
    re_sub (re_compile re_I (u "\s*-\s*and\b")) (fun _ => u " ") processed_sku in
  let processed_sku := replace processed_sku (u "-") (u " ") in
  let processed_sku :=
    re_sub (re_compile no_flags (u "[^a-zA-Z0-9\s]")) (fun _ => u " ") processed_sku in
  let processed_sku :=
    strip (re_sub (re_compile no_flags (u "\s+")) (fun _ => u " ") processed_sku) in
  lower processed_sku.

(** ** SEO title *)

Definition normalize_label (txt : str) : str :=
  let t := lower (strip txt) in
  let t := re_sub (re_compile no_flags (u "\s+")) (fun _ => u " ") t in
  let t := replace t (u "forecast by") (u "forecast in") in
  let t := replace t (u "forecasts in") (u "forecast in") in
  let t := replace t (u "forecast (") (u "forecast in ") in
  replace t (u ")") [].

(** The test on one data row: the label denotes a 2030 revenue or market-size
    forecast. *)
Definition is_forecast_2030_row (attr_raw : str) : bool :=
  let attr := normalize_label attr_raw in
  let attr_lower := lower attr_raw in
  (contains attr (u "revenue forecast")
     && (contains attr (u " 2030") || contains attr (u "forecast in"))
   || contains attr_lower (u "revenue forecast") && contains attr_raw (u "2030"))
  || (contains attr_lower (u "market size forecast") || contains attr_lower (u "market size"))
     && contains attr_raw (u "2030").

(** [headers.index(x)] for an [x] known to be in [headers]. *)
Fixpoint list_index (x : str) (l : list str) : nat :=
  match l with
  | [] => O
  | y :: l' => if str_eqb y x then O else S (list_index x l')
  end.

(** The loop over the data rows; the result is [revenue_forecast] when the
    loop ends or breaks. *)
Fixpoint forecast_of_rows (attr_idx details_idx : nat) (rows : list Row) : result str :=
  match rows with
  | [] => Ok []
  | row :: rows' =>
      attr_cell ← index row attr_idx;
      let attr_raw := strip (cell_text attr_cell) in
      details_cell ← index row details_idx;
      let details := strip (cell_text details_cell) in
      if is_forecast_2030_row attr_raw
      then Ok (strip (re_sub (re_compile re_I (u "USD")) (fun _ => u "$") details))
      else forecast_of_rows attr_idx details_idx rows'
  end.

Fixpoint forecast_of_tables (tables : list Table) : result str :=
  match tables with
  | [] => Ok []
  | table :: tables' =>
      match table with
      | [] => forecast_of_tables tables'
      | [] :: _ => forecast_of_tables tables'
      | header :: data =>
          let headers := map (fun c => lower (strip (cell_text c))) header in
          if str_in (u "report attribute") headers && str_in (u "details") headers then
            revenue_forecast ←
              forecast_of_rows (list_index (u "report attribute") headers)
                               (list_index (u "details") headers) data;
            match revenue_forecast with
            | [] => forecast_of_tables tables'
            | _ => Ok revenue_forecast
            end
          else forecast_of_tables tables'
      end
  end.

Definition extract_seo_title (docx_path : str) (doc : Document) : result str :=
  let file_name := file_stem docx_path in
  revenue_forecast ← forecast_of_tables (doc_tables doc);
  let title_name := replace file_name (u "_") (u " ") in
  match revenue_forecast with
  | [] => Ok title_name
  | _ => Ok (title_name ++ u " Size (" ++ revenue_forecast ++ u ") 2030")
  end.

(** ** Cell splitting (extractor.py, split_into_excel_cells) *)

Definition EXCEL_CELL_LIMIT : Z := 32767.

Definition split_into_excel_cells (text : str) (limit : Z) : result (list str) :=
  match text with
  | [] => Ok [[]]
  | _ =>
      idxs ← py_range 0 (len text) limit;
      Ok (map (fun i => slice text i (i + limit)) idxs)
  end.

(** ** FAQ schema and methodology *)

Definition _get_text (doc : Document) : str :=
  join nl
    (map p_text
       (List.filter (fun p => nonempty (p_text p) && nonempty (strip (p_text p)))
                    (doc_paragraphs doc))).

(** The brace-counting loop: copy characters until the depth returns to 0. *)
Fixpoint take_block (depth : Z) (s : str) : str :=
  match s with
  | [] => []
  | c :: s' =>
      if (c =? ch "{")%N then c :: take_block (depth + 1) s'
      else if (c =? ch "}")%N then
        if depth - 1 =? 0 then [c] else c :: take_block (depth - 1) s'
      else c :: take_block depth s'
  end.

Definition _extract_json_block (text type_name : str) : str :=
  let pat :=
    re_compile no_flags
      (dquote ++ u "@type" ++ dquote ++ u "\s*:\s*" ++ dquote
         ++ re_escape type_name ++ dquote) in
  match re_search pat text with
  | None => []
  | Some m =>
      let start_idx := rfind text (u "{") (Z.of_nat (m_start m)) in
      if start_idx =? -1 then []
      else strip (take_block 0 (drop (Z.to_nat start_idx) text))
  end.

Definition extract_faq_schema (doc : Document) : str :=
  _extract_json_block (_get_text doc) (u "FAQPage").

(** Values returned by [json.loads]; an object holds the items of the
    resulting dict, whose keys are distinct. *)
#[warnings="-register-all"] Inductive json :=
  | JNull
  | JBool (b : bool)
  | JNum (n : Z)
  | JStr (s : str)
  | JArr (items : list json)
  | JObj (members : list (str * json)).

Fixpoint assoc (k : str) (kvs : list (str * json)) : option json :=
  match kvs with
  | [] => None
  | (k', v) :: kvs' => if str_eqb k' k then Some v else assoc k kvs'
  end.

(** [x.get(key, default)]; anything but a dict has no attribute [get]. *)
Definition py_get (x : json) (key : str) (dflt : json) : result json :=
  match x with
  | JObj kvs => Ok (default dflt (assoc key kvs))
  | _ => Raise AttributeError
  end.

(** [x.strip()]; only a string has the attribute. *)
Definition py_strip (x : json) : result str :=
  match x with
  | JStr s => Ok (strip s)
  | _ => Raise AttributeError
  end.

(** The sequence that [for item in x] runs over. *)
Definition py_iter (x : json) : result (list json) :=
  match x with
  | JArr items => Ok items
  | JObj kvs => Ok (map (fun kv => JStr (fst kv)) kvs)
  | JStr s => Ok (map (fun c => JStr [c]) s)
  | _ => Raise TypeError
  end.

(** [html.escape] *)
Definition html_escape (s : str) : str :=
  let s := replace s (u "&") (u "&amp;") in
  let s := replace s (u "<") (u "&lt;") in
  let s := replace s (u ">") (u "&gt;") in
  let s := replace s dquote (u "&quot;") in
  replace s (u "'") (u "&#x27;").

Definition faq_paragraph (q_count : Z) (question answer : str) : str :=
  u "<p><strong>Q" ++ str_of_Z q_count ++ u ": " ++ html_escape question
    ++ u "</strong><br>" ++ u "A" ++ str_of_Z q_count ++ u ": " ++ html_escape answer
    ++ u "</p>".

(** [question] and [answer] of one [item] of the loop. *)
Definition item_qa (item : json) : result (str * str) :=
  name ← py_get item (u "name") (JStr []);
  question ← py_strip name;
  accepted ← py_get item (u "acceptedAnswer") (JObj []);
  text ← py_get accepted (u "text") (JStr []);
  answer ← py_strip text;
  Ok (question, answer).

(** What the item appends to [faqs], if anything. *)
Definition faq_entry (q_count : Z) (qa : str * str) : option str :=
  match qa with
  | ((_ :: _) as question, (_ :: _) as answer) => Some (faq_paragraph q_count question answer)
  | _ => None
  end.

(** The loop over [mainEntity]; [q_count] is the counter before the item. *)
Fixpoint faq_loop (q_count : Z) (items : list json) : result (list str) :=
  match items with
  | [] => Ok []
  | item :: items' =>
      let q_count := q_count + 1 in
      qa ← item_qa item;
      rest ← faq_loop q_count items';
      match faq_entry q_count qa with
      | Some paragraph => Ok (paragraph :: rest)
      | None => Ok rest
      end
  end.

Definition methodology_of_json (faq_data : json) : result str :=
  main ← py_get faq_data (u "mainEntity") (JArr []);
  items ← py_iter main;
  faqs ← faq_loop 0 items;
  Ok (join nl faqs).

(** The text handed to [json.loads]. *)
Definition cleaned_json (faq_schema_str : str) : str :=
  re_sub (re_compile no_flags (u "\s+")) (fun _ => u " ") (strip faq_schema_str).

Section Methodology.
(** [json.loads]; [None] stands for a raised [JSONDecodeError]. *)
Variable json_loads : str -> option json.

Definition extract_methodology_from_faqschema (doc : Document) : result str :=
  let faq_schema_str := extract_faq_schema doc in
  match faq_schema_str with
  | [] => Ok []
  | _ =>
      match json_loads (cleaned_json faq_schema_str) with
      | None => Ok []
      | Some faq_data => methodology_of_json faq_data
      end
  end.
End Methodology.

(** ** Report coverage table *)

Definition is_report_table (first_row_text : str) : bool :=
  contains first_row_text (u "report attribute")
  || contains first_row_text (u "report coverage table")
  || contains first_row_text (u "forecast period")
  || contains first_row_text (u "market size")
  || contains first_row_text (u "revenue forecast")
  || contains first_row_text (u "forecast") && contains first_row_text (u "period")
  || contains first_row_text (u "market") && contains first_row_text (u "size").

Definition first_row_text (row : Row) : str :=
  join (u " ") (map (fun c => lower (strip (cell_text c))) row).

Definition coverage_cell_style (r_idx c_idx : nat) : str :=
  match r_idx, c_idx with
  | O, O =>
      u "background-color:#4472c4; border-bottom:1px solid #4472c4; border-left:1px solid #4472c4; border-right:none; border-top:1px solid #4472c4; vertical-align:top; width:195px"
  | O, S _ =>
      u "background-color:#4472c4; border-bottom:1px solid #4472c4; border-left:none; border-right:1px solid #4472c4; border-top:1px solid #4472c4; vertical-align:top; width:370px"
  | S _, O =>
      if Nat.odd r_idx
      then u "background-color:#d9e2f3; border-bottom:1px solid #8eaadb; border-left:1px solid #8eaadb; border-right:1px solid #8eaadb; border-top:none; vertical-align:top; width:195px"
      else u "border-bottom:1px solid #8eaadb; border-left:1px solid #8eaadb; border-right:1px solid #8eaadb; border-top:none; vertical-align:top; width:195px"
  | S _, S _ =>
      if Nat.odd r_idx
      then u "background-color:#d9e2f3; border-bottom:1px solid #8eaadb; border-left:none; border-right:1px solid #8eaadb; border-top:none; vertical-align:top; width:370px"
      else u "border-bottom:1px solid #8eaadb; border-left:none; border-right:1px solid #8eaadb; border-top:none; vertical-align:top; width:370px"
  end.

Definition coverage_cell (r_idx c_idx : nat) (cell : Cell) : list str :=
  let text := remove_emojis (strip (cell_text cell)) in
  [ u "                <td style='" ++ coverage_cell_style r_idx c_idx ++ u "'>";
    u "                <p><strong>" ++ text ++ u "</strong></p>";
    u "                </td>" ].

Definition coverage_row (r_idx : nat) (row : Row) : list str :=
  [u "            <tr>"]
    ++ concat (imap (coverage_cell r_idx) row)
    ++ [u "            </tr>"].

Definition coverage_html (table : Table) : str :=
  join nl
    ([ u "<h2><strong>7.1. Report Coverage Table</strong></h2>";
       [];
       u "<table cellspacing=0 style='border-collapse:collapse; width:100%'>";
       u "        <tbody>" ]
       ++ concat (imap coverage_row table)
       ++ [ u "        </tbody>"; u "</table>" ]).

Fixpoint coverage_of_tables (tables : list Table) : str :=
  match tables with
  | [] => []
  | table :: tables' =>
      match table with
      | [] => coverage_of_tables tables'
      | header :: _ =>
          if is_report_table (first_row_text header) then coverage_html table
          else coverage_of_tables tables'
      end
  end.

Definition extract_report_coverage_table_with_style (doc : Document) : str :=
  coverage_of_tables (doc_tables doc).

(** ** Table of contents: helpers *)

Definition is_list_item (para : Paragraph) : bool :=
  match p_numPr para with Some _ => true | None => false end.

Inductive list_style := Bullet | Circle | DashStyle | Number | Square.

Definition list_style_eqb (a b : list_style) : bool :=
  match a, b with
  | Bullet, Bullet | Circle, Circle | DashStyle, DashStyle
  | Number, Number | Square, Square => true
  | _, _ => false
  end.

Definition numbering_re : pattern := re_compile no_flags (u "^\d+[\.\)]").

Definition get_list_style_type (text : str) : list_style :=
  if contains text (u "•") || contains text (u "*") then Bullet
  else if contains text (u "○") || contains text (u "◦") then Circle
  else if contains text (u "–") || contains text (u "—") then DashStyle
  else if matches numbering_re text then Number
  else if contains text (u "▪") || contains text (u "▫") then Square
  else Bullet.

Definition main_level_patterns : list str :=
  [ u "Benchmarking of Market Leaders";
    u "Recent Product Developments and Approvals";
    u "Strategic Collaborations and M&A";
    u "Market Share Analysis";
    u "Competitive Strategies" ].

Definition is_main_level_item (text : str) (parent_list_style : option list_style) : bool :=
  let current_style := get_list_style_type text in
  match parent_list_style with
  | None => true
  | Some parent =>
      if negb (list_style_eqb current_style parent) then true
      else if (contains text (u "<b>") || contains text (u "<strong>"))
              && negb (endswith (strip text) (u ":")) then true
      else contains_any text main_level_patterns
  end.

(** [any(run.bold for run in para.runs if run.text.strip())] *)
Definition has_bold_run (para : Paragraph) : bool :=
  existsb (fun run => nonempty (strip (run_text run)) && run_bold run) (p_runs para).

Definition has_bold_markup (text : str) : bool :=
  contains text (u "<strong>") || contains text (u "<b>").

Definition list_chars_logic : list str :=
  [u "•"; u "-"; u "–"; u "○"; u "◦"; u "‣"; u "▪"; u "▫"; u "*"; u "+"].

Definition bullet_chars : list str :=
  [u "•"; u "–"; u "○"; u "◦"; u "‣"; u "▪"; u "▫"; u "*"; u "+"].

(** The scan of [determine_toc_logic]. *)
Record logic_scan := {
  executive_summary_bold : bool;
  executive_summary_in_list : bool;
  first_line_after_bold : bool;
  first_line_after_in_list : bool;
  para_count : Z;
  found_executive_summary : bool;
}.

Definition logic_scan_step (st : logic_scan) (para : Paragraph) : logic_scan :=
  let text := strip (p_text para) in
  if negb (nonempty text) then st
  else
    let bold := has_bold_run para || has_bold_markup text in
    let in_list := is_list_item para || contains_any text list_chars_logic
                   || matches numbering_re text in
    if contains text (u "Executive Summary") then
      {| executive_summary_bold := bold;
         executive_summary_in_list := in_list;
         first_line_after_bold := first_line_after_bold st;
         first_line_after_in_list := first_line_after_in_list st;
         para_count := para_count st;
         found_executive_summary := true |}
    else if negb (found_executive_summary st) then st
    else
      let count := para_count st + 1 in
      {| executive_summary_bold := executive_summary_bold st;
         executive_summary_in_list := executive_summary_in_list st;
         first_line_after_bold := if count =? 1 then bold else first_line_after_bold st;
         first_line_after_in_list :=
           if count =? 1 then in_list else first_line_after_in_list st;
         para_count := count;
         found_executive_summary := true |}.

Definition determine_toc_logic (doc : Document) : Z :=
  let st := fold_left logic_scan_step (doc_paragraphs doc)
              {| executive_summary_bold := false; executive_summary_in_list := false;
                 first_line_after_bold := false; first_line_after_in_list := false;
                 para_count := 0; found_executive_summary := false |} in
  if 1 <=? para_count st then
    if executive_summary_bold st && executive_summary_in_list st
       && first_line_after_in_list st && negb (first_line_after_bold st) then 2
    else if executive_summary_bold st && first_line_after_in_list st
            && negb (first_line_after_bold st) then 1
    else if executive_summary_bold st && first_line_after_in_list st
            && first_line_after_bold st then 3
    else if executive_summary_bold st && first_line_after_bold st
            && negb (first_line_after_in_list st) then 3
    else 1
  else 1.

Definition clean_heading (text : str) : str :=
  let text := remove_emojis (strip text) in
  let text := re_sub (re_compile no_flags (u "^\d+(\.\d+)*[\.\)]\s*")) (fun _ => []) text in
  let text := re_sub (re_compile no_flags (u "^[•\-–]\s*")) (fun _ => []) text in
  let text := re_sub (re_compile no_flags (u "\s+")) (fun _ => u " ") text in
  strip text.

Definition is_bold_text (para : Paragraph) : bool :=
  match p_runs para with
  | [] => false
  | _ => has_bold_run para || has_bold_markup (strip (p_text para))
  end.

(** The formatter nested in [extract_toc]; it is line 190's. *)
Definition runs_to_html_with_links (rels : gmap str str) (runs : list Run) : str :=
  Line190.runs_to_html rels runs.

(** The mutable locals of [extract_toc].  [formatted_content] is [None]
    until its first assignment: reading it then raises UnboundLocalError. *)
Record toc_state := {
  html_output : list str;
  capture : bool;
  inside_list : bool;
  list_depth : nat;
  parent_list_style : option list_style;
  current_list_style : option list_style;
  formatted_content : option str;
}.

Definition UL : str := u "<ul>".
Definition UL_END : str := u "</ul>".

Definition emit (st : toc_state) (lines : list str) : toc_state :=
  {| html_output := html_output st ++ lines; capture := capture st;
     inside_list := inside_list st; list_depth := list_depth st;
     parent_list_style := parent_list_style st;
     current_list_style := current_list_style st;
     formatted_content := formatted_content st |}.

Definition set_list (st : toc_state) (inside : bool) (depth : nat) : toc_state :=
  {| html_output := html_output st; capture := capture st;
     inside_list := inside; list_depth := depth;
     parent_list_style := parent_list_style st;
     current_list_style := current_list_style st;
     formatted_content := formatted_content st |}.

Definition set_parent_style (st : toc_state) (ps : option list_style) : toc_state :=
  {| html_output := html_output st; capture := capture st;
     inside_list := inside_list st; list_depth := list_depth st;
     parent_list_style := ps;
     current_list_style := current_list_style st;
     formatted_content := formatted_content st |}.

Definition set_current_style (st : toc_state) (cs : option list_style) : toc_state :=
  {| html_output := html_output st; capture := capture st;
     inside_list := inside_list st; list_depth := list_depth st;
     parent_list_style := parent_list_style st;
     current_list_style := cs;
     formatted_content := formatted_content st |}.

Definition set_formatted (st : toc_state) (fc : str) : toc_state :=
  {| html_output := html_output st; capture := capture st;
     inside_list := inside_list st; list_depth := list_depth st;
     parent_list_style := parent_list_style st;
     current_list_style := current_list_style st;
     formatted_content := Some fc |}.

Definition set_capture (st : toc_state) : toc_state :=
  {| html_output := html_output st; capture := true;
     inside_list := inside_list st; list_depth := list_depth st;
     parent_list_style := parent_list_style st;
     current_list_style := current_list_style st;
     formatted_content := formatted_content st |}.

(** ** Table of contents: the paragraph loop of [extract_toc] *)

Definition close_lists (st : toc_state) : toc_state :=
  if inside_list st
  then set_list (emit st (replicate (list_depth st) UL_END)) false 0
  else st.

Definition li (content : str) : str := u "<li><p>" ++ content ++ u "</p></li>".
Definition li_strong (content : str) : str :=
  u "<li><p><strong>" ++ content ++ u "</strong></p>".
Definition strong_heading (h : str) : str := nl ++ u "<strong>" ++ h ++ u "</strong>".

(** Open a parent item with a nested list for its children. *)
Definition open_parent (st : toc_state) (content : str) : toc_state :=
  set_list (emit st [UL; li_strong content; UL]) true 2.

Definition ends_with_colon (content : str) : bool :=
  contains content (u ":") && endswith (strip content) (u ":").

(** ["List of Figures" not in "\n".join(html_output[-10:])] *)
Definition not_in_figures (st : toc_state) : bool :=
  negb (contains (join nl (slice_from (html_output st) (-10))) (u "List of Figures")).

Definition strip_b (s : str) : str := replace (replace s (u "<b>") []) (u "</b>") [].

(** The bullet items of a line split on the inline bullet character. *)
Definition bullet_block (bullets : list str) : list str :=
  match bullets with
  | [] => []
  | _ =>
      [UL]
        ++ flat_map (fun item => let item_clean := strip (remove_emojis item) in
                                 if nonempty item_clean then [li item_clean] else [])
                    bullets
        ++ [UL_END]
  end.

Definition bullet_parts (text : str) : list str :=
  List.filter nonempty (map strip (split text (u "•"))).

(** The "Executive Summary" line itself. *)
Definition exec_summary (st : toc_state) (text : str) (is_bold : bool) : toc_state :=
  if is_bold then
    let heading_text := clean_heading text in
    if contains text (u "•") then
      match bullet_parts text with
      | [] => st
      | first :: bullets =>
          emit (emit st [strong_heading (clean_heading first)]) (bullet_block bullets)
      end
    else if nonempty heading_text then emit st [strong_heading (strip_b heading_text)]
    else st
  else st.

Definition bold_heading (st : toc_state) (text : str) (remove_b : bool) : toc_state :=
  let st := close_lists st in
  let heading_text := clean_heading text in
  if nonempty heading_text
  then emit st [strong_heading (if remove_b then strip_b heading_text else heading_text)]
  else st.

Definition style_of_text (text : str) (has_bullet_chars has_numbering : bool) : list_style :=
  if has_bullet_chars then
    if contains text (u "•") || contains text (u "*") then Bullet
    else if contains text (u "○") || contains text (u "◦") then Circle
    else if contains text (u "–") then DashStyle
    else Bullet
  else if has_numbering then Number
  else Bullet.

(** A list item that is neither a parent nor a new main section. *)
Definition plain_list_item (st : toc_state) (content : str) : toc_state :=
  let should_be_main_level := is_main_level_item content (parent_list_style st) in
  let st :=
    if should_be_main_level && inside_list st && (1 <? list_depth st)%nat
    then set_parent_style (set_list (emit st [UL_END; u "</li>"]) (inside_list st) 1)
                          (current_list_style st)
    else st in
  let st :=
    if negb (inside_list st)
    then set_parent_style (set_list (emit st [UL]) true 1) (current_list_style st)
    else st in
  emit st [li content].

(** The non-bold paragraph of logic 1 and of logic 2; the two differ in the
    phrases [extra_parent] and [new_main]. *)
Definition nonbold_paragraph (extra_parent new_main : str -> bool) (rels : gmap str str)
    (st : toc_state) (para : Paragraph) (text : str) : result toc_state :=
  let is_word_list_item := is_list_item para in
  let has_bullet_chars := contains_any text bullet_chars in
  let has_numbering := matches numbering_re text in
  if is_word_list_item || has_bullet_chars || has_numbering then
    let content := runs_to_html_with_links rels (p_runs para) in
    let st := set_formatted st content in
    let st := set_current_style st (Some (style_of_text text has_bullet_chars has_numbering)) in
    if (ends_with_colon content || extra_parent content) && not_in_figures st then
      Ok (set_parent_style (open_parent (close_lists st) content) (current_list_style st))
    else if new_main content then
      let st :=
        if inside_list st && (1 <? list_depth st)%nat
        then set_list (emit st [UL_END; u "</li>"; UL_END]) false 0
        else st in
      let st := if negb (inside_list st) then set_list (emit st [UL]) true 1 else st in
      Ok (emit st [li content])
    else Ok (plain_list_item st content)
  else
    match formatted_content st with
    | None => Raise UnboundLocalError
    | Some stale =>
        if ends_with_colon stale then Ok (open_parent (close_lists st) stale)
        else
          let st := close_lists st in
          let content := runs_to_html_with_links rels (p_runs para) in
          let st := set_formatted st content in
          Ok (if nonempty content then emit st [u "<p>" ++ content ++ u "</p>"] else st)
    end.

Definition logic1 (rels : gmap str str) (st : toc_state) (para : Paragraph)
    (text : str) (is_bold : bool) : result toc_state :=
  if is_bold then
    let has_bullet_chars := contains_any text bullet_chars in
    let has_numbering := matches numbering_re text in
    if has_bullet_chars || has_numbering || is_list_item para then
      let content := runs_to_html_with_links rels (p_runs para) in
      let st := set_formatted st content in
      if ends_with_colon content && not_in_figures st
      then Ok (open_parent (close_lists st) content)
      else
        let st := if negb (inside_list st) then set_list (emit st [UL]) true 1 else st in
        Ok (emit st [li content])
    else Ok (bold_heading st text true)
  else
    nonbold_paragraph (fun _ => false)
                      (fun c => contains c (u "Strategy Analysis:")) rels st para text.

Definition logic2 (rels : gmap str str) (st : toc_state) (para : Paragraph)
    (text : str) (is_bold : bool) : result toc_state :=
  if is_bold then Ok (bold_heading st text true)
  else
    nonbold_paragraph
      (fun c => contains c (u "Leading Companies"))
      (fun c => contains c (u "Strategy Analysis:")
                || contains c (u "Market Share by Key Players")
                || contains c (u "Competitive Strategies and Positioning"))
      rels st para text.

Definition strip_bold_tags (s : str) : str :=
  replace (replace (strip_b s) (u "<strong>") []) (u "</strong>") [].

Definition is_regional_analysis (content : str) : bool :=
  contains content (u "Psychiatric Digital Biomarkers Market Analysis")
  && (contains content (u "North America") || contains content (u "Europe")
      || contains content (u "Asia-Pacific") || contains content (u "Latin America")
      || contains content (u "Middle East")).

(** Logic 3.  The list level read from [ilvl] only feeds a debug print and is
    left out; [current_list_style] is never assigned on this path. *)
Definition logic3 (rels : gmap str str) (st : toc_state) (para : Paragraph)
    (text : str) (is_bold : bool) : result toc_state :=
  let content := runs_to_html_with_links rels (p_runs para) in
  let st := set_formatted st content in
  let is_word_list_item := is_list_item para in
  let has_bullet_chars := contains_any text bullet_chars in
  let has_numbering :=
    matches (re_compile no_flags (u "^\d+[\.]\)")) text
    || matches (re_compile no_flags (u "^\d+[\.)]")) text in
  let is_list_item_detected := is_word_list_item || has_bullet_chars || has_numbering in
  if is_bold && contains text (u "•") then
    let st := close_lists st in
    match bullet_parts text with
    | [] => Ok st
    | first :: bullets =>
        let heading_text := clean_heading first in
        let st := if nonempty heading_text then emit st [strong_heading heading_text] else st in
        Ok (emit st (bullet_block bullets))
    end
  else if is_list_item_detected then
    let content := strip_bold_tags content in
    let st := set_formatted st content in
    if (ends_with_colon content || is_regional_analysis content) && not_in_figures st then
      Ok (set_parent_style (open_parent (close_lists st) content) (current_list_style st))
    else if ends_with_colon content && not_in_figures st then
      if inside_list st && (1 <? list_depth st)%nat
      then Ok (set_list (emit st [li_strong content; UL]) (inside_list st) 3)
      else
        let st := if negb (inside_list st) then set_list (emit st [UL]) true 1 else st in
        Ok (emit st [li content])
    else if contains content (u "Country-Level Breakdown:") then
      let st := if negb (inside_list st) then set_list (emit st [UL]) true 1 else st in
      Ok (set_list (emit st [li_strong content; UL]) (inside_list st) 2)
    else Ok (plain_list_item st content)
  else if is_bold then Ok (bold_heading st text false)
  else if ends_with_colon content && negb (contains content (u "Country-Level Breakdown:"))
  then Ok (open_parent (close_lists st) content)
  else
    let st := close_lists st in
    Ok (if nonempty content then emit st [u "<p>" ++ content ++ u "</p>"] else st).

Definition toc_step (logic_type : Z) (rels : gmap str str) (st : toc_state)
    (para : Paragraph) : result toc_state :=
  let text := strip (p_text para) in
  if negb (nonempty text) then Ok st
  else
    let is_bold := is_bold_text para in
    if negb (capture st) && contains text (u "Executive Summary")
    then Ok (exec_summary (set_capture st) text is_bold)
    else if capture st then
      if logic_type =? 1 then logic1 rels st para text is_bold
      else if logic_type =? 2 then logic2 rels st para text is_bold
      else if logic_type =? 3 then logic3 rels st para text is_bold
      else Ok st
    else Ok st.

Fixpoint toc_loop (logic_type : Z) (rels : gmap str str) (st : toc_state)
    (paras : list Paragraph) : result toc_state :=
  match paras with
  | [] => Ok st
  | para :: paras' =>
      st' ← toc_step logic_type rels st para;
      toc_loop logic_type rels st' paras'
  end.

Definition toc_init : toc_state :=
  {| html_output := []; capture := false; inside_list := false; list_depth := 0;
     parent_list_style := None; current_list_style := None; formatted_content := None |}.

Definition extract_toc (doc : Document) : result str :=
  let logic_type := determine_toc_logic doc in
  st ← toc_loop logic_type (doc_rels doc) toc_init (doc_paragraphs doc);
  let st := if inside_list st then emit st (replicate (list_depth st) UL_END) else st in
  Ok (join nl (html_output st)).

(** ** Title resolver: helpers *)

Definition re_s (fl : flags) (p : string) : pattern := re_compile fl (u p).

(** A replacement template that is a constant string. *)
Definition const_repl (r : string) : mres -> str := fun _ => u r.

Definition _norm (s : str) : str :=
  let s := remove_emojis s in
  let s := replace s [0xFFFD%N] DASH in
  let s := replace s [0x2014%N] DASH in
  re_sub (re_s no_flags "\s+") (const_repl " ") (strip s).













(** ** Title resolver: the labelled-title strategies of [extract_title] *)
















(** ** Title resolver: a detailed segmented title present as one paragraph *)







(** ** Title resolver: segmentation markers *)









(** ** Title resolver: values listed in the marker paragraph itself *)

Definition list_sep_re : pattern := re_s no_flags ",\s*(?:and\s+)?".

(** [re.split(p, s, 1)[0]] *)
Definition before_first (p : pattern) (s : str) : str := hd [] (re_split_max p s 1).

Definition strip_article (s : str) : str :=
  strip (re_sub (re_s re_I "^(the|a|an)\s+") (const_repl "") s).

Definition lower_small_words (s : str) : str :=
  re_sub (re_s no_flags "\b(And|To|Of|In|For|With|The)\b") (fun m => lower (group s m 1)) s.

Definition fix_to_hyphen (s : str) : str :=
  let s := re_sub (re_s no_flags "([A-Z][a-z]+)-To-([A-Z][a-z]+)")
                  (fun m => group s m 1 ++ u "-to-" ++ group s m 2) s in
  re_sub (re_s no_flags "([A-Z][a-z]+)-to-([A-Z][a-z]+)")
         (fun m => group s m 1 ++ u "-to-" ++ group s m 2) s.

Definition not_generic (main_value : str) : bool :=
  negb (str_in (lower main_value) [u "the"; u "market"; u "segment"]).

(** The loop [for part in value_parts] with [part = part.strip()] and empty
    parts skipped. *)
Definition for_parts (parts : list str) (values : list str)
    (body : list str -> str -> list str) : list str :=
  fold_left (fun values part =>
               let part := strip part in
               if nonempty part then body values part else values)
            parts values.

(** The listed text after a cue phrase: group 1 of [p], stripped. *)
Definition cue_text (p : pattern) (header_para : str) : option str :=
  m ← re_search p header_para; Some (strip (group header_para m 1)).

Definition encompassing_values (header_para : str) (values : list str) : list str :=
  match cue_text (re_s re_I "encompassing\s+([^.]*?)(?:\.|$)") header_para with
  | None => values
  | Some value_text =>
      for_parts (re_split list_sep_re value_text) values (fun values part =>
        let main_value :=
          strip (before_first
                   (re_s no_flags "\s+(?:remain|represent|are|account|these|treatments)") part) in
        if nonempty main_value && (2 <? len main_value) then
          let main_value :=
            if first_islower main_value then capitalize_first main_value else main_value in
          if (len main_value <? 100) && not_generic main_value then
            let main_value := strip_article main_value in
            if nonempty main_value then values ++ [main_value] else values
          else values
        else values)
  end.

Definition acronyms_re : pattern :=
  re_s re_I "\b(ECMO|ECLS|ARDS|MSU|ASCs|ELISA|CLIA|IHC|NGS)\b".

Definition divided_values (header_para : str) (values : list str) : list str :=
  match cue_text (re_s re_I "(?:broadly\s+)?divided into\s+([^.]*?)(?:\.|$)") header_para with
  | None => values
  | Some value_text =>
      for_parts (re_split list_sep_re value_text) values (fun values part =>
        let main_value :=
          strip (before_first
                   (re_s no_flags
                      "\s+(?:together|represent|are|is|expected|projected|because|due|gaining)")
                   part) in
        if nonempty main_value && (2 <? len main_value) then
          let main_value :=
            if first_islower main_value then
              let t := title main_value in
              let t := if negb (contains (lower t) (u "ecmo")) then lower_small_words t else t in
              if nonempty t then
                let t := capitalize_first t in
                re_sub acronyms_re (fun m => upper (group t m 1)) t
              else t
            else main_value in
          if (len main_value <? 100) && not_generic main_value then
            let main_value := strip_article main_value in
            if nonempty main_value then values ++ [main_value] else values
          else values
        else values)
  end.

Definition first_cap_values (header_para header_lower : str) (values : list str) : list str :=
  if contains header_lower (u "represents") || contains header_lower (u "remains") then
    match cue_text (re_s no_flags "^([A-Z][a-z]+(?:\s+[a-z]+)*)") header_para with
    | None => values
    | Some first_value =>
        let first_value :=
          strip (before_first (re_s no_flags "\s+(?:represents|remains|is|are|account)")
                              first_value) in
        if nonempty first_value && (len first_value <? 50)
           && negb (str_in (lower first_value) [u "the"; u "by"; u "market"])
        then values ++ [if first_islower first_value then title first_value else first_value]
        else values
    end
  else values.

Definition leading_values (header_para : str) (values : list str) : list str :=
  match cue_text (re_s re_I "^([^.]+?)\s+(?:are|is)\s+the\s+(?:leading|dominant)") header_para with
  | None => values
  | Some value_text =>
      for_parts (re_split list_sep_re value_text) values (fun values part =>
        if (3 <? len part) && first_isupper part && (len part <? 80)
        then values ++ [part] else values)
  end.

Definition usage_values (header_para : str) (values : list str) : list str :=
  match cue_text (re_s re_I "finds usage in\s+([^.]*?)(?:\.|$)") header_para with
  | None => values
  | Some value_text =>
      for_parts (re_split list_sep_re value_text) values (fun values part =>
        let main_value :=
          if contains part (u "(") && contains part (u ")") then
            match re_search (re_s no_flags "\(([A-Z]+)\)") part with
            | Some am =>
                if 3 <=? len (group part am 1) then part
                else strip (hd [] (split part (u "(")))
            | None => strip (hd [] (split part (u "(")))
            end
          else part in
        let main_value :=
          strip (before_first
                   (re_s no_flags "\s+(?:is|are|projected|expected|account|driven|given)")
                   main_value) in
        if nonempty main_value && (3 <? len main_value) then
          let main_value :=
            if first_islower main_value then title main_value else main_value in
          let main_value :=
            if contains main_value (u "(") && contains main_value (u ")") then
              match re_search (re_s no_flags "\(([A-Za-z]+)\)") main_value with
              | Some am =>
                  let main_part := strip (hd [] (split main_value (u "("))) in
                  let abbrev := upper (group main_value am 1) in
                  let main_part := fix_to_hyphen (lower_small_words (title main_part)) in
                  let main_part :=
                    if nonempty main_part then capitalize_first main_part else main_part in
                  main_part ++ u " (" ++ abbrev ++ u ")"
              | None => main_value
              end
            else main_value in
          if len main_value <? 100 then values ++ [main_value] else values
        else values)
  end.

Definition apps_values (header_para : str) (values : list str) : list str :=
  match cue_text (re_s re_I "(?:find(?:s)?\s+)?applications\s+across\s+([^.]*?)(?:\.|$)")
                 header_para with
  | None => values
  | Some value_text =>
      let value_text :=
        strip (re_sub (re_s re_I "^(?:a\s+wide\s+range\s+of\s+)?") (const_repl "") value_text) in
      for_parts (re_split list_sep_re value_text) values (fun values part =>
        let main_value :=
          strip (before_first
                   (re_s re_I "\s+(?:lead|dominat|remain|represent|account|continue|expand)")
                   part) in
        if nonempty main_value && (len main_value <? 100)
        then values ++ [if first_islower main_value then title main_value else main_value]
        else values)
  end.

Definition avail_values (header_para : str) (values : list str) : list str :=
  let avail_match :=
    match cue_text
            (re_s re_I "available\s+across\s+(?:a\s+wide\s+spectrum\s*)?[–\-]\s*([^.]*?)(?:\.|$)")
            header_para with
    | Some t => Some t
    | None => cue_text (re_s re_I "available\s+across\s+([^.]*?)(?:\.|$)") header_para
    end in
  match avail_match with
  | None => values
  | Some value_text =>
      let value_text :=
        strip (re_sub (re_s re_I "^(?:a\s+wide\s+spectrum\s*)?[–\-]\s*") (const_repl "")
                      value_text) in
      for_parts (re_split list_sep_re value_text) values (fun values part =>
        let main_value :=
          strip (before_first
                   (re_s re_I "\s+(?:serve|serves|remain|represent|account|are|is)\b") part) in
        if nonempty main_value && (len main_value <? 80)
        then values ++ [main_value] else values)
  end.

Definition spans_values (header_para : str) (values : list str) : list str :=
  match cue_text (re_s re_I "(?:adoption\s+)?spans\s+([^.]*?)(?:\.|$)") header_para with
  | None => values
  | Some value_text =>
      for_parts (re_split list_sep_re value_text) values (fun values part =>
        let main_value :=
          strip (before_first (re_s no_flags "\s+(?:given|dominate|show|large|tertiary)") part) in
        if nonempty main_value && (3 <? len main_value) then
          let main_value :=
            if first_islower main_value then
              let t := fix_to_hyphen (lower_small_words (title main_value)) in
              if nonempty t then capitalize_first t else t
            else main_value in
          if len main_value <? 100 then values ++ [main_value] else values
        else values)
  end.

Definition region_represents_values (section_type : string) (header_para header_lower : str)
    (values : list str) : list str :=
  if String.eqb section_type "region" && contains header_lower (u "represents") then
    match cue_text (re_s no_flags "^([A-Z][a-z]+(?:\s+[A-Z][a-z]+)*)") header_para with
    | None => values
    | Some region_value =>
        let region_value :=
          strip (before_first (re_s no_flags "\s+(?:represents|is|remains|follows|supported)")
                              region_value) in
        if nonempty region_value && (len region_value <? 50)
           && negb (str_in (lower region_value) [u "the"; u "by"; u "market"])
        then
          let region_value :=
            if first_islower region_value then title region_value else region_value in
          if str_in region_value values then values else values ++ [region_value]
        else values
    end
  else values.

Definition distributed_values (header_para : str) (values : list str) : list str :=
  match cue_text (re_s re_I "distributed across\s+([^.]*?)(?:\.|$)") header_para with
  | None => values
  | Some value_text =>
      for_parts (re_split (re_s no_flags ",\s*(?:and\s+)?(?!\s*\([A-Z]+\))") value_text) values
        (fun values part =>
           let main_value :=
             strip (re_sub (re_s no_flags "\s*\([^)]+\)") (const_repl "") part) in
           if nonempty main_value && (3 <? len main_value) then
             let main_value :=
               if first_islower main_value then capitalize_first main_value else main_value in
             if len main_value <? 80 then values ++ [main_value] else values
           else values)
  end.

Definition header_cues : list str :=
  [ u "divided into"; u "finds usage in"; u "applications across";
    u "find applications across"; u "available across"; u "spans"; u "includes";
    u "comprises"; u "distributed across"; u "usage in"; u "encompassing"; u "remains";
    u "represents"; u "leading"; u "category"; u "area" ].

Definition header_values (section_type : string) (header_para header_lower : str)
  : list str :=
  let values := encompassing_values header_para [] in
  let values := divided_values header_para values in
  let values := first_cap_values header_para header_lower values in
  let values := leading_values header_para values in
  let values := usage_values header_para values in
  let values := apps_values header_para values in
  let values := avail_values header_para values in
  let values := spans_values header_para values in
  let values := region_represents_values section_type header_para header_lower values in
  distributed_values header_para values.

(** De-duplication by lower-cased value, keeping the first occurrence. *)
Fixpoint dedupe_ci (values : list str) (seen : list str) : list str :=
  match values with
  | [] => []
  | v :: values' =>
      let vv := strip v in
      if negb (nonempty vv) then dedupe_ci values' seen
      else if str_in (lower vv) seen then dedupe_ci values' seen
      else vv :: dedupe_ci values' (lower vv :: seen)
  end.

Definition description_words_re : pattern :=
  re_s re_I "\s+(?:remain|are|encompass|represent|account|drive|continue|include|comprise)".

(** Values on the lines after the first line of the marker paragraph. *)
Definition line_values (header_para : str) (values : list str) : list str :=
  if nonempty header_para && contains header_para nl then
    fold_left (fun values line =>
      let line := strip line in
      if nonempty line && (10 <? len line) && contains line (u ",") then
        fold_left (fun values val =>
          let val := strip (before_first description_words_re (strip val)) in
          if nonempty val && (3 <? len val) && first_isupper val && (len val <? 80)
          then
            let val := if first_islower val then capitalize_first val else val in
            if str_in val values then values else values ++ [val]
          else values)
          (re_split list_sep_re line) values
      else values)
      (tail (split header_para nl)) values
  else values.

(** ** Title resolver: values in the paragraphs that follow a marker *)

Definition region_names : list str :=
  [ u "north america"; u "europe"; u "asia-pacific"; u "latin america"; u "middle east";
    u "africa"; u "asia pacific"; u "lamea" ].

Definition exclude_phrases : list str :=
  [ u "market analysis"; u "market share"; u "this segment"; u "this area"; u "this region";
    u "key stakeholders"; u "projected share" ].

Definition strip_determiner (s : str) : str :=
  strip (re_sub (re_s re_I "^(The|This|These|That)\s+") (const_repl "") s).

(** Drop a parenthesis from a value unless it holds an abbreviation. *)
Definition drop_parenthesis (value : str) : str :=
  if contains value (u "(") && contains value (u ")") then
    match re_search (re_s no_flags "\(([^)]+)\)") value with
    | Some pm =>
        if negb (matches (re_s no_flags "^[A-Z]{2,}$") (strip (group value pm 1)))
        then strip (re_sub (re_s no_flags "\s*\([^)]+\)") (const_repl "") value)
        else value
    | None => value
    end
  else value.

Definition and_to_amp (section_type : string) (value : str) : str :=
  if contains value (u " and ") && negb (String.eqb section_type "region")
  then replace value (u " and ") (u " & ") else value.

(** The comma-separated list at the start of a paragraph. *)
Definition comma_list_values (first_line : str) (values : list str) : list str :=
  if contains first_line (u ",") && (len first_line <? 200) then
    match re_match (re_s no_flags "^([A-Z][^,]+(?:,\s*[A-Z][^,]+){0,5}(?:,\s*and\s+[A-Z][^,]+)?)")
                   first_line with
    | None => values
    | Some vm =>
        let value_text := strip (group first_line vm 1) in
        let value_text :=
          re_sub (re_s no_flags ",\s*and\s+([A-Z][^,]+)")
                 (fun m => u ", " ++ group value_text m 1) value_text in
        fold_left (fun values val =>
          let val := strip (before_first description_words_re (strip val)) in
          if nonempty val && (3 <? len val) && first_isupper val && (len val <? 80)
             && negb (str_in val values)
          then values ++ [val] else values)
          (re_split (re_s no_flags ",\s*") value_text) values
  end
  else values.

Definition colon_label_re : pattern :=
  re_s no_flags "^([A-Z][a-zA-Z0-9\s&]+(?:\([A-Za-z0-9\s,]+\))?)\s*[:]".

(** "Name:" at the start of the paragraph. *)
Definition colon_value (section_type : string) (text : str) (label : str)
    (values : list str) : list str :=
  let value := strip_determiner (drop_parenthesis (strip label)) in
  let value_lower := lower value in
  let is_region_name := contains_any value_lower region_names in
  if is_region_name && negb (String.eqb section_type "region") then values
  else if String.eqb section_type "region" && negb is_region_name
          && ((40 <? len value)
              || contains_any value_lower
                   [ u "influence"; u "market size"; u "volume"; u "diagnostics";
                     u "methodology"; u "process"; u "research"; u "data sources" ])
  then values
  else
    let is_valid :=
      (len value <? 70)
      && negb (startswith_any value_lower
                 [ u "by "; u "the "; u "this "; u "these "; u "aml "; u "market"; u "key ";
                   u "the global"; u "other "; u "projected " ])
      && (len (split_ws value) <=? 10)
      && negb (str_in value values)
      && negb (contains value_lower (u "market analysis"))
      && negb (contains value_lower (u "market share"))
      && negb (contains value_lower (u "projected share"))
      && negb (contains value_lower (u "the market"))
      && negb (contains value_lower (u "the end users"))
      && negb (contains value_lower (u "end-user"))
      && negb (startswith value_lower (u "oem"))
      && negb (startswith value_lower (u "rest of")) in
    if is_valid then
      if startswith value_lower (u "diagnostic") then
        if contains value_lower (u "laborator") || contains value_lower (u "service")
           || contains value_lower (u "center")
        then values ++ [value] else values
      else values ++ [and_to_amp section_type value]
    else values.

(** The same label looked for in the first 100 characters of a long paragraph. *)
Definition alt_colon_value (section_type : string) (text text_lower : str)
    (values : list str) : list str :=
  if 50 <? len text then
    match re_search colon_label_re (slice_to text 100) with
    | None => values
    | Some am =>
        let value := strip (group (slice_to text 100) am 1) in
        if contains_any text_lower
             [ u "is employed"; u "are used"; u "is used"; u "are employed"; u "focuses on";
               u "targeting"; u "including"; u "such as" ]
        then values
        else
          let value := strip_determiner (drop_parenthesis value) in
          let value_lower := lower value in
          let is_region_name := contains_any value_lower region_names in
          if is_region_name && negb (String.eqb section_type "region") then values
          else if (len value <? 70)
                  && negb (startswith_any value_lower
                             [ u "by "; u "the "; u "this "; u "these "; u "market"; u "key ";
                               u "other "; u "rest of"; u "projected " ])
                  && (len (split_ws value) <=? 10)
                  && negb (str_in value values)
                  && negb (contains value_lower (u "market analysis"))
                  && negb (contains value_lower (u "market share"))
                  && negb (contains value_lower (u "projected share"))
          then values ++ [and_to_amp section_type value]
          else values
    end
  else values.

(** A standalone capitalised heading, possibly followed by a description. *)
Definition heading_of (text : str) : option str :=
  if matches (re_s no_flags "^[A-Z][a-zA-Z0-9\s&\-]+(?:\([A-Za-z0-9\s,\-]+\))?$") (strip text)
  then Some (strip text)
  else
    match re_match (re_s no_flags "^([A-Z][A-Za-z0-9\s&\-]+(?:\([A-Za-z0-9\s,\-]+\))?)") text with
    | None => None
    | Some hm =>
        let potential_heading := strip (group text hm 1) in
        let remaining := strip (slice_from text (len potential_heading)) in
        if negb (nonempty remaining) then Some potential_heading
        else if first_islower remaining then Some potential_heading
        else if (len (split_ws potential_heading) <=? 8) && (len potential_heading <=? 80)
        then Some potential_heading
        else None
    end.

Definition heading_value (section_type : string) (text : str) (values : list str) : list str :=
  match heading_of text with
  | None => values
  | Some potential_value =>
      let value_lower := lower potential_value in
      let is_heading_like :=
        (len potential_value <=? 80)
        && (len (split_ws potential_value) <=? 8)
        && negb (matches (re_s no_flags "^\d+[\.\)]\s*") potential_value)
        && negb (startswith_any value_lower
                   [ u "by "; u "the "; u "this "; u "these "; u "market"; u "key ";
                     u "projected "; u "products such"; u "the g-csf market" ])
        && negb (contains value_lower (u "market analysis"))
        && negb (contains value_lower (u "market share"))
        && negb (contains value_lower (u "projected share"))
        && negb (str_in potential_value values) in
      if is_heading_like then
        if contains_any value_lower region_names && negb (String.eqb section_type "region")
        then values
        else
          let value := strip_determiner potential_value in
          let value_lower := lower value in
          if contains_any value_lower
               [ u "is employed"; u "are used"; u "is used"; u "are employed"; u "focuses on";
                 u "targeting"; u "including"; u "such as"; u "helps in"; u "provides";
                 u "across various"; u "each targeting"; u "each with" ]
          then values
          else if contains_any value_lower
                    [ u "increased"; u "access to"; u "growth rate"; u "expected to";
                      u "impact"; u "trend"; u "outlook"; u "driven by"; u "the largest";
                      u "the dominant"; u "patients with"; u "g-csf is"; u "targeted";
                      u "treatments"; u "improve patient"; u "outcomes"; u "healthcare";
                      u "infrastructure" ]
          then values
          else if (len (split_ws value) =? 1)
                  && str_in value_lower
                       [ u "impact"; u "trend"; u "outlook"; u "growth"; u "share"; u "market";
                         u "targeted" ]
          then values
          else if 60 <? len value then
            if contains_any value_lower [u "to"; u "for"; u "with"]
               && (contains value_lower (u "across") || contains value_lower (u "various")
                   || contains value_lower (u "each"))
            then values
            else if 8 <? len (split_ws value) then values
            else if first_islower value then values
            else if contains_any value_lower
                      [u "the primary"; u "this segment"; u "this application"]
            then values
            else if (3 <=? len value) && (len value <=? 80) then values ++ [value]
            else values
          else if (3 <=? len value) && (len value <=? 80) then values ++ [value]
          else values
      else values
  end.

(** One paragraph after the marker.  The result is [None] when the loop
    breaks at the next "By " marker. *)
Definition following_paragraph (section_type : string) (para : Paragraph)
    (acc : list str * bool) : option (list str * bool) :=
  let '(values, skip_intro) := acc in
  let text := strip (p_text para) in
  if negb (nonempty text) then Some acc
  else if matches (re_s re_I "^By\s+") text then None
  else if len text <? 3 then Some acc
  else
    let first_line := if contains text nl then strip (hd [] (split text nl)) else text in
    let values := comma_list_values first_line values in
    let text := first_line in
    let text_lower := lower text in
    let starts_with_capital_heading :=
      matches (re_s no_flags "^[A-Z][a-zA-Z0-9\s&\-]+(?:\([A-Za-z0-9\s,\-]+\))?") text in
    if skip_intro && (100 <? len text) && negb starts_with_capital_heading
    then Some (values, false)
    else if startswith_any text_lower exclude_phrases then Some (values, false)
    else
      match re_match colon_label_re text with
      | Some m => Some (colon_value section_type text (group text m 1) values, false)
      | None =>
          let values := alt_colon_value section_type text text_lower values in
          let values := if 0 <? len text then heading_value section_type text values
                        else values in
          Some (values, false)
      end.

Fixpoint following_values (section_type : string) (paras : list Paragraph)
    (acc : list str * bool) : list str :=
  match paras with
  | [] => fst acc
  | para :: paras' =>
      match following_paragraph section_type para acc with
      | None => fst acc
      | Some acc' => following_values section_type paras' acc'
      end
  end.

(** ** Title resolver: [extract_segment_values] *)

Definition region_keywords : list str :=
  [ u "north america"; u "south america"; u "europe"; u "asia"; u "pacific";
    u "latin america"; u "middle east"; u "africa"; u "lamea"; u "apac"; u "emea";
    u "america"; u "oceania" ].

Definition invalid_region_terms : list str :=
  [ u "influence"; u "market size"; u "volume"; u "diagnostics"; u "methodology";
    u "process"; u "research"; u "data sources"; u "government"; u "regulatory";
    u "historical"; u "overview"; u "emerging"; u "technological"; u "stakeholders" ].

Definition sentence_verbs : list str :=
  [ u "is employed"; u "are used"; u "is used"; u "are employed"; u "focuses on";
    u "targeting"; u "including"; u "such as"; u "helps in"; u "provides"; u "allows";
    u "enables"; u "ensures"; u "aims to"; u "seeks to"; u "designed to"; u "used to";
    u "intended to" ].

Definition invalid_patterns : list str :=
  [ u "impact"; u "trend"; u "outlook"; u "growth"; u "share"; u "targeted";
    u "increased"; u "access to"; u "growth rate"; u "expected to"; u "driven by";
    u "the largest"; u "improve patient"; u "treatments to"; u "outcomes";
    u "healthcare infrastructure"; u "reflects"; u "differences in";
    u "definition and scope"; u "overview of"; u "research methodology"; u "research process";
    u "primary and secondary"; u "data sources"; u "emerging opportunities";
    u "technological advances"; u "across various"; u "each targeting"; u "each with";
    u "vary widely"; u "government and regulatory"; u "historical market";
    u "market size and volume"; u "this is the most"; u "this is the critical";
    u "dimension of segmentation"; u "in 2024,"; u "in 2024 "; u "the most critical dimension" ].

Definition desc_phrases : list str :=
  [ u "the primary"; u "this segment"; u "this sub-segment"; u "this application";
    u "the end users"; u "the market"; u "the largest"; u "the dominant"; u "this is the";
    u "the most critical" ].

(** The region section keeps region names only, and "Rest of the World" or
    LAMEA is spelled out when the expanded form occurs near the marker. *)
Definition region_post (section_type : string) (window : list Paragraph) (values : list str)
  : list str :=
  if String.eqb section_type "region" && bool_decide (values ≠ []) then
    let valid_regions :=
      List.filter (fun val =>
                     contains_any (lower val) (region_names ++ region_keywords)
                     && negb (contains_any (lower val) invalid_region_terms))
                  values in
    let values := match valid_regions with [] => values | _ => valid_regions end in
    let expanded :=
      existsb (fun para =>
                 let para_text := lower (p_text para) in
                 contains para_text (u "latin america") && contains para_text (u "middle east")
                 && contains para_text (u "africa"))
              window in
    map (fun val =>
           if (contains (lower val) (u "rest of") || contains (lower val) (u "lamea")) && expanded
           then u "Latin America, Middle East & Africa" else val)
        values
  else values.

Definition strip_eg (val : str) : str :=
  if contains val (u "(e.g.") || contains val (u "(e.g.,")
  then strip (hd [] (split (strip (hd [] (split val (u "(e.g.")))) (u "(e.g.,")))
  else val.

(** The final clean-up test on one value (after [strip_eg]). *)
Definition keep_value (section_type : string) (val : str) : bool :=
  let val_lower := lower val in
  nonempty val
  && negb (String.eqb section_type "region"
           && (negb (contains_any val_lower region_keywords)
               || contains_any val_lower invalid_region_terms))
  && negb (contains_any val_lower sentence_verbs)
  && negb (str_in val_lower (take 6 invalid_patterns)
           || contains_any val_lower (drop 6 invalid_patterns))
  && negb ((60 <? len val)
           && contains_any val_lower
                [u "to"; u "for"; u "with"; u "and"; u "of"; u "in"; u "at"; u "on"; u "by"]
           && (2 <? len (List.filter (fun word => str_in word (split_ws val_lower))
                                     [u "to"; u "for"; u "with"; u "of"; u "in"; u "at";
                                      u "on"; u "by"])))
  && negb (first_islower val)
  && negb (contains_any val_lower desc_phrases).

Definition final_values (section_type : string) (values : list str) : list str :=
  List.filter (keep_value section_type) (map strip_eg values).

Definition early_sections : list string := ["treatment"; "phase"; "output_power"]%string.

Definition extract_segment_values (doc : Document) (para_idx : Z) (section_type : string)
    (max_paras : Z) : result (list str) :=
  header ← index (doc_paragraphs doc) (Z.to_nat para_idx);
  let header_para := strip (p_text header) in
  let '(header_para, values, cued) :=
    if nonempty header_para && (20 <? len header_para) then
      let header_lower := lower header_para in
      let '(header_para, header_lower) :=
        if matches (re_s no_flags "^by\s+") header_lower then
          match split_max header_para nl 1 with
          | _ :: description_raw :: _ =>
              let description := strip description_raw in
              (description, lower description)
          | _ => (header_para, header_lower)
          end
        else (header_para, header_lower) in
      if contains_any header_lower header_cues
      then (header_para, header_values section_type header_para header_lower, true)
      else (header_para, [], false)
    else (header_para, [], false) in
  if cued && bool_decide (values ≠ []) && existsb (String.eqb section_type) early_sections
     && (2 <=? len values)
  then Ok (take 8 (dedupe_ci values []))
  else
    let values := line_values header_para values in
    let values :=
      following_values section_type
        (slice (doc_paragraphs doc) (para_idx + 1) (para_idx + max_paras + 1))
        (values, true) in
    let values :=
      region_post section_type
        (slice (doc_paragraphs doc) para_idx (para_idx + max_paras + 5)) values in
    Ok (take 8 (final_values section_type values)).

(** ** Title resolver: the market name *)



(** [", ".join(values[:6])] in parentheses after a label. *)
Definition title_part (label : string) (values : list str) : str :=
  u label ++ u " (" ++ join (u ", ") (take 6 values) ++ u ")".

(** Append [v] unless it is already there. *)
Definition add_new (values : list str) (v : str) : list str :=
  if str_in v values then values else values ++ [v].


(** ** Title resolver: the parts of the constructed title *)

Section TitleParts.
Variable doc : Document.
Variable segments : gmap string str.
Variable segment_indices : gmap string Z.
Variable base_market_name : str.

(** The values of a segment whose marker was detected and indexed. *)
Definition values_of (key : string) : result (list str) :=
  match segments !! key, segment_indices !! key with
  | Some _, Some i => extract_segment_values doc i key 20
  | _, _ => Ok []
  end.

Definition part_if_any (label : string) (cleaned_values : list str) : list str :=
  match cleaned_values with
  | [] => []
  | _ => [title_part label cleaned_values]
  end.

Definition phase_part : result (list str) :=
  phase_values ← values_of "phase";
  Ok (part_if_any "By Phase Type"
        (fold_left (fun cleaned val =>
                      let v := strip val in
                      if negb (nonempty v) then cleaned
                      else
                        let v := if str_eqb (lower v) (u "single phase") then u "Single Phase"
                                 else if str_eqb (lower v) (u "three phase") then u "Three Phase"
                                 else v in
                        add_new cleaned v)
                   phase_values [])).

Definition output_power_part : result (list str) :=
  output_values ← values_of "output_power";
  Ok (part_if_any "By Output Power"
        (fold_left (fun cleaned val =>
                      let v := _norm val in
                      if negb (nonempty v) then cleaned
                      else
                        let v := re_sub (re_s no_flags "(\d)\s*[-]\s*(\d)")
                                        (fun m => group v m 1 ++ DASH ++ group v m 2) v in
                        add_new cleaned v)
                   output_values [])).















End TitleParts.

(** ** Title resolver: the heuristic scan of the first 50 paragraphs *)









(** ** Title resolver: [extract_title] *)






(** ** Functions used to state what the substitutions compute *)

(** Replace every maximal run of characters of the class [cls] by [r]. *)
Fixpoint squeeze (cls : N -> bool) (r : str) (in_run : bool) (s : str) : str :=
  match s with
  | [] => []
  | c :: s' =>
      if cls c then (if in_run then squeeze cls r true s' else r ++ squeeze cls r true s')
      else c :: squeeze cls r false s'
  end.

(** The state reached from a position by consuming the characters of [cls]. *)
Fixpoint consume (cls : N -> bool) (pos : nat) (prev : option N) (rest : str) : mstate :=
  match rest with
  | c :: rest' =>
      if cls c then consume cls (S pos) (Some c) rest'
      else {| ms_pos := pos; ms_prev := prev; ms_rest := rest |}
  | [] => {| ms_pos := pos; ms_prev := prev; ms_rest := [] |}
  end.

(** Number of occurrences of [sub] in [s] (at every position). *)
Fixpoint count_occ_str (s sub : str) : nat :=
  (if startswith s sub then 1 else 0)
  + match s with [] => 0 | _ :: s' => count_occ_str s' sub end.

(** No space at the start (when [prev_space]) and no two spaces in a row. *)
Fixpoint single_spaced_from (prev_space : bool) (s : str) : bool :=
  match s with
  | [] => true
  | c :: s' =>
      if (c =? 32)%N then negb prev_space && single_spaced_from true s'
      else single_spaced_from false s'
  end.

(** The characters of a SKU code. *)
Definition sku_char (c : N) : bool := ascii_islower c || ascii_isdigit c || (c =? 32)%N.

(** Characters that survive steps 6 and 7 of [extract_sku_code]. *)
Definition alnum_or_space (c : N) : Prop :=
  c = 32%N \/ (ascii_isalpha c || ascii_isdigit c = true).

(** ** The report-attribute table of the SEO title *)

Definition text_cell (s : string) : Cell := {| cell_text := u s |}.
Definition attribute_header : Row := [text_cell "Report Attribute"; text_cell "Details"].
Definition forecast_row : Row :=
  [text_cell "Revenue Forecast in 2030"; text_cell "USD 4.5 Billion"].

(** A data row that the loop passes over: both cells exist and the label is
    not a 2030 forecast label. *)
Definition row_unmatched (attr_idx details_idx : nat) (row : Row) : Prop :=
  exists a d, index row attr_idx = Ok a /\ index row details_idx = Ok d
              /\ is_forecast_2030_row (strip (cell_text a)) = false.

(** A table that leaves [revenue_forecast] empty. *)
Definition table_unmatched (table : Table) : Prop :=
  match table with
  | header :: data =>
      let headers := map (fun c => lower (strip (cell_text c))) header in
      str_in (u "report attribute") headers && str_in (u "details") headers = true ->
      Forall (row_unmatched (list_index (u "report attribute") headers)
                            (list_index (u "details") headers)) data
  | [] => True
  end.

Definition seo_name (docx_path : str) : str := replace (file_stem docx_path) (u "_") (u " ").
Definition seo_doc (tables : list Table) : Document :=
  {| doc_paragraphs := []; doc_tables := tables; doc_rels := ∅ |}.

(** A [mainEntity] item with the given question and answer. *)
Definition faq_item (question answer : string) : json :=
  JObj [(u "@type", JStr (u "Question")); (u "name", JStr (u question));
        (u "acceptedAnswer", JObj [(u "@type", JStr (u "Answer")); (u "text", JStr (u answer))])].

Definition faq_page (items : list json) : json :=
  JObj [(u "@context", JStr (u "https://schema.org")); (u "@type", JStr (u "FAQPage"));
        (u "mainEntity", JArr items)].

(** ** Documents of the examples *)

Definition text_run (text : str) : Run :=
  {| run_text := text; run_bold := false; run_italic := false; run_br := false;
     run_link := NoLink |}.

Definition plain_paragraph (text : str) : Paragraph :=
  {| p_text := text; p_runs := [text_run text]; p_style := u "Normal"; p_numPr := None |}.

Definition text_doc (paragraphs : list Paragraph) : Document :=
  {| doc_paragraphs := paragraphs; doc_tables := []; doc_rels := ∅ |}.

(** No table has a first row that looks like a report coverage header. *)
Definition no_report_table (tables : list Table) : Prop :=
  Forall (fun table => match table with
                       | header :: _ => is_report_table (first_row_text header) = false
                       | [] => True
                       end) tables.

(** A [json.loads] of which one value is known: [text] parses to [value]. *)
Definition loads_only (text : str) (value : json) (s : str) : option json :=
  if str_eqb s text then Some value else None.

(** The paragraph [{"@type": "FAQPage", "mainEntity": [1]}] and its parse. *)
Definition faq_schema_text : str :=
  u "{" ++ dquote ++ u "@type" ++ dquote ++ u ": " ++ dquote ++ u "FAQPage" ++ dquote
    ++ u ", " ++ dquote ++ u "mainEntity" ++ dquote ++ u ": [1]}".

Definition faq_schema_value : json :=
  JObj [(u "@type", JStr (u "FAQPage")); (u "mainEntity", JArr [JNum 1])].


Definition one_rel (rid target : string) : gmap str str := {[ u rid := u target ]}.

Definition anchor (target txt : str) : str :=
  u "<a href=" ++ dquote ++ target ++ dquote ++ u ">" ++ txt ++ u "</a>".

Definition bold_run (text : str) : Run :=
  {| run_text := text; run_bold := true; run_italic := false; run_br := false;
     run_link := NoLink |}.

(** A bold paragraph, and a bold paragraph that is an item of a Word list. *)
Definition bold_paragraph (text : string) : Paragraph :=
  {| p_text := u text; p_runs := [bold_run (u text)]; p_style := u "Normal";
     p_numPr := None |}.

Definition bold_list_paragraph (text : string) : Paragraph :=
  {| p_text := u text; p_runs := [bold_run (u text)]; p_style := u "List Paragraph";
     p_numPr := Some (Some 0) |}.

(** A table of contents with two regional country breakdowns. *)
Definition breakdown_doc : Document :=
  text_doc [ bold_paragraph "Executive Summary";
             bold_list_paragraph "Country-Level Breakdown: United States, Canada";
             bold_list_paragraph "Country-Level Breakdown: Germany, France" ].

(** ** Shape of a list of segment values *)


(** A document of plain paragraphs. *)
Definition paragraphs_doc (texts : list string) : Document :=
  text_doc (map (fun text => plain_paragraph (u text)) texts).

(** ** The Canned Meat scenario *)





(** ** Documents without a title signal *)





(** ** The description columns of a row (views.py, _convert_worker)

    [merged_text = (description or "") + "\n\n" + (report or "")] and
    [chunks = extractor.split_into_excel_cells(merged_text)]; chunk [j]
    becomes the column [Description_Part{j}]. *)
Definition merged_text (description report : str) : str :=
  description ++ nl ++ nl ++ report.

Definition description_parts (description report : str) : result (list str) :=
  split_into_excel_cells (merged_text description report) EXCEL_CELL_LIMIT.

(** ** Meta description (extractor.py, extract_meta_description) *)

(** The loop over the paragraphs; [capture] is set by the first paragraph
    whose lower-cased text contains [introduction]. *)
Fixpoint meta_scan (capture : bool) (paras : list Paragraph) : str :=
  match paras with
  | [] => []
  | para :: paras' =>
      let text := strip (p_text para) in
      let low := lower text in
      if negb capture && contains low (u "introduction") then meta_scan true paras'
      else if capture && nonempty text then text
      else meta_scan capture paras'
  end.

Definition extract_meta_description (doc : Document) : str :=
  meta_scan false (doc_paragraphs doc).

(** A paragraph that mentions the introduction, and a blank one. *)
Definition mentions_introduction (para : Paragraph) : bool :=
  contains (lower (strip (p_text para))) (u "introduction").

Definition is_blank (para : Paragraph) : bool := negb (nonempty (strip (p_text para))).

(** ** Breadcrumb text (extractor.py, extract_breadcrumb_text) *)

Definition extract_breadcrumb_text (docx_path : str) (doc : Document) : result str :=
  let file_name := file_stem docx_path in
  revenue_forecast ← forecast_of_tables (doc_tables doc);
  let title_name := replace file_name (u "_") (u " ") in
  match revenue_forecast with
  | [] => Ok title_name
  | _ => Ok (title_name ++ u " Report 2030")
  end.

(** ** SKU URL (extractor.py, extract_sku_url) *)

Definition extract_sku_url (docx_path : str) : str :=
  let sku_code := file_stem docx_path in
  let processed_sku := replace sku_code (u "&") (u " ") in
  let processed_sku := replace processed_sku (u "-") (u " ") in
  let processed_sku := re_sub (re_compile re_I (u "\band\b")) (fun _ => u " ") processed_sku in
  let processed_sku :=
    re_sub (re_compile no_flags (u "\([^)]*\)")) (fun _ => u " ") processed_sku in
  let processed_sku :=
    strip (re_sub (re_compile no_flags (u "\s+")) (fun _ => u " ") processed_sku) in
  lower processed_sku.

(** A character of a SKU URL of an ASCII file name: ASCII, no capital, no
    ampersand, no hyphen, and no whitespace but the space. *)
Definition url_char (c : N) : bool :=
  is_ascii c && negb (ascii_isupper c) && negb (c =? 38)%N && negb (c =? 45)%N
  && (negb (is_space c) || (c =? 32)%N).

(** ** Breadcrumb schema (extractor.py, extract_breadcrumb_schema) *)

(** The last path component written into the item URL: the SKU code, with
    [ market] appended unless it ends with it, spaces as hyphens. *)
Definition breadcrumb_slug (docx_path : str) : str :=
  let sku_code := extract_sku_code docx_path in
  let sku_code :=
    if negb (endswith (lower sku_code) (u "market")) then sku_code ++ u " market"
    else sku_code in
  replace sku_code (u " ") (u "-").

Definition item_url_re : pattern :=
  re_compile no_flags
    (u "(" ++ dquote ++ u "item" ++ dquote ++ u ":\s*" ++ dquote
       ++ u "https://www\.strategicmarketresearch\.com/market-report/)[^" ++ dquote
       ++ u "]*(" ++ dquote ++ u ")").

Definition extract_breadcrumb_schema (docx_path : str) (doc : Document) : str :=
  let text := _get_text doc in
  let breadcrumb_json := _extract_json_block text (u "BreadcrumbList") in
  match breadcrumb_json with
  | [] => []
  | _ =>
      let sku_code := breadcrumb_slug docx_path in
      re_sub item_url_re
             (fun m => group breadcrumb_json m 1 ++ sku_code ++ group breadcrumb_json m 2)
             breadcrumb_json
  end.

(** A character of a slug: lowercase letter, digit or hyphen. *)
Definition slug_char (c : N) : bool := ascii_islower c || ascii_isdigit c || (c =? 45)%N.

Definition hyphenate (c : N) : N := if (c =? 32)%N then 45%N else c.

(** ** Paragraphs as [extract_toc] sees them *)

(** The paragraph's text contains the words that start the capture. *)
Definition is_summary (para : Paragraph) : bool :=
  contains (strip (p_text para)) (u "Executive Summary").

(** A paragraph of running text: not blank, not bold, not an item of a list
    by any of the three tests of [extract_toc]. *)
Definition is_running_text (para : Paragraph) : bool :=
  let text := strip (p_text para) in
  nonempty text
  && negb (has_bold_run para) && negb (has_bold_markup text)
  && negb (is_list_item para)
  && negb (contains_any text list_chars_logic)
  && negb (contains_any text bullet_chars)
  && negb (matches numbering_re text).

(** ** The lines of the table of contents *)

(** [extract_toc] before the final ["\n".join(html_output)]. *)
Definition toc_lines (doc : Document) : result (list str) :=
  let logic_type := determine_toc_logic doc in
  st ← toc_loop logic_type (doc_rels doc) toc_init (doc_paragraphs doc);
  let st := if inside_list st then emit st (replicate (list_depth st) UL_END) else st in
  Ok (html_output st).

(** Number of lines equal to [x], and list openings minus list closings. *)
Definition count_line (x : str) (lines : list str) : Z := len (List.filter (str_eqb x) lines).

Definition open_minus_closed (lines : list str) : Z :=
  count_line UL lines - count_line UL_END lines.

(** The list bookkeeping agrees with the lines written so far. *)
Definition toc_balanced (st : toc_state) : Prop :=
  (inside_list st = true -> list_depth st = 1%nat \/ list_depth st = 2%nat)
  /\ open_minus_closed (html_output st)
     = (if inside_list st then Z.of_nat (list_depth st) else 0).

(** Number of occurrences of one character, and the nesting depth left open
    by a text: its opening braces minus its closing ones. *)
Definition count_char (c : N) (s : str) : Z := len (List.filter (N.eqb c) s).
Definition brace_depth (s : str) : Z := count_char (ch "{") s - count_char (ch "}") s.

(** The characters of a normalised text: no emoji, no replacement character,
    no em-dash, and no white space other than the space. *)
Definition norm_char (c : N) : Prop :=
  is_emoji c = false /\ c <> 0xFFFD%N /\ c <> 0x2014%N /\ (is_space c = true -> c = 32%N).

(** A run outside every hyperlink. *)
Definition unlinked (run : Run) : Prop := run_link run = NoLink.

(** A character that cannot open or close a tag or an attribute value. *)
Definition markup_free (c : N) : Prop :=
  c <> ch "<" /\ c <> ch ">" /\ c <> 34%N /\ c <> 39%N.

(** The markup of one entry of the methodology: the five tags that
    [faq_paragraph] writes, and no quote. *)
Definition entry_markup (p : str) : Prop :=
  count_char (ch "<") p = 5 /\ count_char (ch ">") p = 5
  /\ count_char 34%N p = 0 /\ count_char 39%N p = 0.

(** A document that holds only tables. *)
Definition tables_doc (tables : list Table) : Document :=
  {| doc_paragraphs := []; doc_tables := tables; doc_rels := ∅ |}.

(** The two tests that [determine_toc_logic] applies to a paragraph. *)
Definition para_bold (para : Paragraph) : bool :=
  has_bold_run para || has_bold_markup (strip (p_text para)).

Definition para_in_list (para : Paragraph) : bool :=
  is_list_item para || contains_any (strip (p_text para)) list_chars_logic
  || matches numbering_re (strip (p_text para)).

Definition is_blank_paragraph (para : Paragraph) : bool :=
  negb (nonempty (strip (p_text para))).

(** The characters of a cleaned heading: no emoji, and no white space other
    than the space. *)
Definition heading_char (c : N) : Prop :=
  is_emoji c = false /\ (is_space c = true -> c = 32%N).

(** A title part that lists values: nothing, or the label followed by one to
    six values in parentheses, all different and none empty. *)
Definition listed_part (label : string) (parts : list str) : Prop :=
  parts = []
  \/ exists shown,
       parts = [u label ++ u " (" ++ join (u ", ") shown ++ u ")"]
       /\ shown <> [] /\ (length shown <= 6)%nat
       /\ List.NoDup shown /\ Forall (fun v : str => v <> []) shown.

(** What [add_new] keeps true of the values collected so far. *)
Definition distinct_values (values : list str) : Prop :=
  List.NoDup values /\ Forall (fun v : str => v <> []) values.

(** The weaker bookkeeping that every logic keeps: the lists that the state
    counts as open have been opened and not yet closed. *)
Definition toc_not_overclosed (st : toc_state) : Prop :=
  (inside_list st = true -> (1 <= list_depth st)%nat)
  /\ (if inside_list st then Z.of_nat (list_depth st) else 0)
     <= open_minus_closed (html_output st).

End Extractors.

(** * Theorems *)

(** ** Sequence lemmas *)

Lemma slice_nonneg {A} (s : list A) (a b : Z) :
  0 <= a -> a <= b ->
  slice s a b = take (Z.to_nat (b - a)) (drop (Z.to_nat a) s).
Proof.
  intros Ha Hab. unfold slice, norm_index, len.
  destruct (Z.ltb_spec a 0); [lia|].
  destruct (Z.ltb_spec b 0); [lia|].
  destruct (Z_le_gt_dec a (Z.of_nat (length s))) as [Hle|Hgt].
  - rewrite (Z.min_l a) by lia.
    destruct (Z_le_gt_dec b (Z.of_nat (length s))).
    + rewrite (Z.min_l b) by lia. reflexivity.
    + rewrite (Z.min_r b) by lia.
      rewrite !take_ge; [reflexivity | rewrite length_drop; lia ..].
  - rewrite (Z.min_r a), (Z.min_r b) by lia.
    rewrite !drop_ge by lia. now rewrite !take_nil.
Qed.

Lemma take_take_drop_app {A} (s : list A) (n m : nat) :
  take n s ++ take m (drop n s) = take (n + m) s.
Proof.
  revert s. induction n as [|n IH]; intros s; simpl.
  - now rewrite drop_0.
  - destruct s as [|x s]; simpl.
    + now rewrite take_nil.
    + now rewrite IH.
Qed.

Lemma concat_chunks {A} (s : list A) (l c : nat) :
  concat (map (fun k => take l (drop (k * l) s)) (seq 0 c)) = take (c * l) s.
Proof.
  induction c as [|c IH].
  - reflexivity.
  - rewrite seq_S, map_app, concat_app, IH. simpl.
    rewrite app_nil_r, take_take_drop_app. f_equal. lia.
Qed.

(** ** The matcher on a character class, and what the substitutions compute *)

Section EngineLemmas.
Context `{UD : UnicodeData}.
Variable fl : flags.
Variable subject : str.
Variables (neg : bool) (items : list citem).

Local Abbreviation cls := (set_mem fl neg items).
Local Abbreviation plus_re := (RSeq (RRep (RSet neg items) 1 None true) REps).
Local Abbreviation one_re := (RSeq (RSet neg items) REps).

Lemma consume_pos_ge pos prev rest : (pos <= ms_pos (consume cls pos prev rest))%nat.
Proof.
  revert pos prev. induction rest as [|c rest IH]; intros pos prev; simpl; [lia|].
  destruct (cls c); simpl; [|lia]. specialize (IH (S pos) (Some c)). lia.
Qed.

Lemma consume_rest pos prev rest :
  ms_rest (consume cls pos prev rest)
  = drop (ms_pos (consume cls pos prev rest) - pos) rest.
Proof.
  revert pos prev. induction rest as [|c rest IH]; intros pos prev; simpl.
  - now rewrite drop_nil.
  - destruct (cls c) eqn:E; simpl.
    + rewrite IH. pose proof (consume_pos_ge (S pos) (Some c) rest).
      replace (ms_pos (consume cls (S pos) (Some c) rest) - pos)%nat
        with (S (ms_pos (consume cls (S pos) (Some c) rest) - S pos)) by lia.
      reflexivity.
    + now rewrite Nat.sub_diag.
Qed.

Lemma consume_stops pos prev rest :
  match ms_rest (consume cls pos prev rest) with
  | c :: _ => cls c = false
  | [] => True
  end.
Proof.
  revert pos prev. induction rest as [|c rest IH]; intros pos prev; simpl; [exact I|].
  destruct (cls c) eqn:E; simpl; [apply IH | exact E].
Qed.

(** The greedy loop of [cls+] consumes the whole run. *)
Lemma rep_loop_class body start rest :
  (forall st cs k,
     body st cs k = match ms_rest st with
                    | c :: rest' => if cls c then k (step st c rest') cs else None
                    | [] => None
                    end) ->
  forall fuel count pos prev cs,
  (length rest < fuel)%nat ->
  rep_loop body 1 None true (accept false start) fuel count
           {| ms_pos := pos; ms_prev := prev; ms_rest := rest |} cs
  = if match rest with c :: _ => cls c | [] => false end || (1 <=? count)%nat
    then Some (consume cls pos prev rest, cs) else None.
Proof.
  intros Hbody.
  induction rest as [|c rest IH]; intros fuel count pos prev cs Hf;
    (destruct fuel as [|f]; [simpl in Hf; lia|]); cbn [rep_loop];
    rewrite Hbody; cbn [ms_rest].
  - cbn [orelse orb]. destruct (1 <=? count)%nat; reflexivity.
  - destruct (cls c) eqn:E.
    + cbn [step ms_pos].
      assert (Hne : (S pos =? pos)%nat = false) by (apply Nat.eqb_neq; lia).
      rewrite Hne. cbn [andb]. unfold step. cbn [ms_pos]. rewrite IH by (simpl in Hf; lia).
      rewrite orb_true_r. cbn [orelse orb consume]. rewrite E. reflexivity.
    + cbn [orelse orb consume]. rewrite E. destruct (1 <=? count)%nat; reflexivity.
Qed.

Lemma match_at_plus pos prev rest :
  match_at fl subject plus_re {| ms_pos := pos; ms_prev := prev; ms_rest := rest |} false
  = match rest with
    | c :: _ =>
        if cls c
        then Some {| m_start := pos; m_end := ms_pos (consume cls pos prev rest);
                     m_caps := [] |}
        else None
    | [] => None
    end.
Proof.
  unfold match_at. cbn [rmatch ms_rest ms_pos].
  change (fun st' cs' => accept false pos st' cs') with (accept false pos).
  erewrite rep_loop_class; [| intros; reflexivity | simpl; lia].
  destruct rest as [|c rest]; cbn [orb]; [reflexivity|].
  destruct (cls c); reflexivity.
Qed.

Lemma match_at_one pos prev rest :
  match_at fl subject one_re {| ms_pos := pos; ms_prev := prev; ms_rest := rest |} false
  = match rest with
    | c :: _ =>
        if cls c then Some {| m_start := pos; m_end := S pos; m_caps := [] |} else None
    | [] => None
    end.
Proof.
  unfold match_at. simpl. destruct rest as [|c rest]; [reflexivity|].
  destruct (cls c); reflexivity.
Qed.

Lemma match_at_start r st adv m :
  match_at fl subject r st adv = Some m -> m_start m = ms_pos st.
Proof.
  unfold match_at. destruct (rmatch _ _ _ _ _ _) as [[st' cs]|]; [|discriminate].
  intros [= <-]. reflexivity.
Qed.

Lemma search_at_start r rest : forall pos prev adv m,
  search_at fl subject r pos prev rest adv = Some m -> (pos <= m_start m)%nat.
Proof.
  induction rest as [|c rest IH]; intros pos prev adv m; cbn [search_at];
    destruct (match_at _ _ _ _ _) eqn:E.
  - intros [= <-]. apply match_at_start in E. simpl in E. lia.
  - discriminate.
  - intros [= <-]. apply match_at_start in E. simpl in E. lia.
  - intros H. apply IH in H. lia.
Qed.

Lemma drop_cons_lookup {A} (l : list A) i c rest :
  drop i l = c :: rest -> l !! i = Some c /\ drop (S i) l = rest.
Proof.
  revert i. induction l as [|x l IH]; intros i H.
  - rewrite drop_nil in H. discriminate.
  - destruct i as [|i]; simpl in *.
    + inversion H; subst. split; reflexivity.
    + apply IH in H. exact H.
Qed.

Lemma search_from_eq r i adv :
  search_from fl subject r i adv
  = search_at fl subject r i (match i with O => None | S j => subject !! j end)
              (drop i subject) adv.
Proof. reflexivity. Qed.

(** A position where [r] does not match is passed over by the scan. *)
Lemma scan_skip r fuel i c rest :
  drop i subject = c :: rest ->
  match_at fl subject r (state_at subject i) false = None ->
  scan fl subject fuel r i false None = scan fl subject fuel r (S i) false None.
Proof.
  intros Hd Hm. destruct (drop_cons_lookup _ _ _ _ Hd) as [Hl Hd'].
  destruct fuel as [|f]; [reflexivity|]. cbn [scan].
  rewrite !search_from_eq. rewrite Hd. cbn [search_at].
  unfold state_at in Hm. rewrite Hd in Hm. rewrite Hm.
  cbv iota beta. rewrite Hd'.
  replace (subject !! i) with (Some c) by (symmetry; exact Hl). reflexivity.
Qed.

Lemma between_skip i c ms (f : mres -> list str) :
  subject !! i = Some c ->
  match ms with m :: _ => (S i <= m_start m)%nat | [] => True end ->
  concat (between subject i ms f) = c :: concat (between subject (S i) ms f).
Proof.
  intros Hl Hs. destruct ms as [|m ms]; cbn [between concat].
  - rewrite app_nil_r, app_nil_r. now rewrite (drop_S _ _ _ Hl).
  - unfold substr. rewrite (drop_S _ _ _ Hl).
    replace (m_start m - i)%nat with (S (m_start m - S i)) by lia. reflexivity.
Qed.

Lemma scan_first_start r fuel i :
  match scan fl subject fuel r i false None with
  | m :: _ => (i <= m_start m)%nat
  | [] => True
  end.
Proof.
  destruct fuel as [|f]; cbn [scan]; [exact I|].
  destruct (search_from _ _ _ _ _) eqn:E; [|exact I].
  rewrite search_from_eq in E. now apply search_at_start in E.
Qed.

Lemma squeeze_true_consume r rest : forall pos prev,
  squeeze cls r true rest = squeeze cls r false (ms_rest (consume cls pos prev rest)).
Proof.
  induction rest as [|c rest IH]; intros pos prev; cbn [squeeze consume]; [reflexivity|].
  destruct (cls c) eqn:E.
  - apply IH.
  - cbn [ms_rest squeeze]. rewrite E. reflexivity.
Qed.

Lemma drop_drop_sub {A} (l : list A) i e :
  (i <= e)%nat -> drop e l = drop (e - i) (drop i l).
Proof. intros H. rewrite drop_drop. f_equal. lia. Qed.

(** Substituting [r] for the matches of a one-character class. *)
Lemma sub_one_from r : forall suf i fuel,
  drop i subject = suf -> (length suf < fuel)%nat ->
  concat (between subject i (scan fl subject fuel one_re i false None) (fun _ => [r]))
  = flat_map (fun c => if cls c then r else [c]) suf.
Proof.
  induction suf as [|c rest IH]; intros i fuel Hd Hf.
  - destruct fuel as [|f]; [simpl in Hf; lia|]. cbn [scan].
    rewrite search_from_eq, Hd. cbn [search_at]. rewrite match_at_one.
    cbn [between concat flat_map]. rewrite Hd. reflexivity.
  - destruct (drop_cons_lookup _ _ _ _ Hd) as [Hl Hd'].
    destruct (cls c) eqn:E.
    + destruct fuel as [|f]; [simpl in Hf; lia|]. cbn [scan].
      rewrite search_from_eq, Hd. cbn [search_at]. rewrite match_at_one, E.
      cbn [m_end m_start between concat flat_map].
      replace (S i =? i)%nat with false by (symmetry; apply Nat.eqb_neq; lia).
      rewrite E. unfold substr at 1. rewrite Nat.sub_diag, take_0.
      cbn [app concat]. f_equal.
      change (Init.Nat.pred <$> None) with (@None nat).
      apply (IH (S i) f Hd'). simpl in Hf. lia.
    + rewrite (scan_skip one_re fuel i c rest Hd).
      2:{ unfold state_at. rewrite Hd. rewrite match_at_one, E. reflexivity. }
      rewrite (between_skip i c) by (exact Hl || apply scan_first_start).
      cbn [flat_map]. rewrite E. cbn [app]. f_equal.
      apply (IH (S i) fuel Hd'). simpl in Hf. lia.
Qed.

(** Substituting [r] for the matches of [cls+]. *)
Lemma sub_plus_from r : forall n suf i fuel,
  (length suf <= n)%nat -> drop i subject = suf -> (length suf < fuel)%nat ->
  concat (between subject i (scan fl subject fuel plus_re i false None) (fun _ => [r]))
  = squeeze cls r false suf.
Proof.
  induction n as [|n IH]; intros suf i fuel Hn Hd Hf.
  - destruct suf; [|simpl in Hn; lia].
    destruct fuel as [|f]; [simpl in Hf; lia|]. cbn [scan].
    rewrite search_from_eq, Hd. cbn [search_at]. rewrite match_at_plus.
    cbn [between concat squeeze]. rewrite Hd. reflexivity.
  - destruct suf as [|c rest].
    { destruct fuel as [|f]; [simpl in Hf; lia|]. cbn [scan].
      rewrite search_from_eq, Hd. cbn [search_at]. rewrite match_at_plus.
      cbn [between concat squeeze]. rewrite Hd. reflexivity. }
    destruct (drop_cons_lookup _ _ _ _ Hd) as [Hl Hd'].
    destruct (cls c) eqn:E.
    + destruct fuel as [|f]; [simpl in Hf; lia|]. cbn [scan].
      rewrite search_from_eq, Hd. cbn [search_at]. rewrite match_at_plus, E.
      cbn [m_end m_start between concat squeeze]. rewrite E.
      set (prev := match i with O => None | S j => subject !! j end).
      set (st := consume cls i prev (c :: rest)).
      assert (Hst : st = consume cls (S i) (Some c) rest)
        by (unfold st; cbn [consume]; now rewrite E).
      pose proof (consume_pos_ge (S i) (Some c) rest) as Hge. rewrite <- Hst in Hge.
      replace (ms_pos st =? i)%nat with false by (symmetry; apply Nat.eqb_neq; lia).
      unfold substr at 1. rewrite Nat.sub_diag, take_0.
      cbn [app concat]. f_equal.
      change (Init.Nat.pred <$> None) with (@None nat).
      rewrite (squeeze_true_consume r rest (S i) (Some c)). rewrite <- Hst.
      assert (Hrest : drop (ms_pos st) subject = ms_rest st).
      { rewrite (drop_drop_sub subject (S i) (ms_pos st)) by lia.
        rewrite Hd', Hst. symmetry. apply consume_rest. }
      assert (Hlen : (length (ms_rest st) <= length rest)%nat).
      { rewrite Hst, consume_rest, length_drop. lia. }
      apply (IH (ms_rest st) (ms_pos st) f); [simpl in Hn; lia | exact Hrest |].
      simpl in Hf. lia.
    + rewrite (scan_skip plus_re fuel i c rest Hd).
      2:{ unfold state_at. rewrite Hd. rewrite match_at_plus, E. reflexivity. }
      rewrite (between_skip i c) by (exact Hl || apply scan_first_start).
      cbn [squeeze]. rewrite E. f_equal.
      apply (IH rest (S i) fuel); [simpl in Hn; lia | exact Hd' | simpl in Hf; lia].
Qed.
End EngineLemmas.

Section SubLemmas.
Context `{UD : UnicodeData}.

Lemma re_sub_one_class p neg items r s :
  p_regex p = RSeq (RSet neg items) REps ->
  re_sub p (fun _ => r) s
  = flat_map (fun c => if set_mem (p_flags p) neg items c then r else [c]) s.
Proof.
  intros Hp. unfold re_sub, re_finditer. rewrite Hp.
  apply sub_one_from; [apply drop_0 | lia].
Qed.

Lemma re_sub_class_plus p neg items r s :
  p_regex p = RSeq (RRep (RSet neg items) 1 None true) REps ->
  re_sub p (fun _ => r) s = squeeze (set_mem (p_flags p) neg items) r false s.
Proof.
  intros Hp. unfold re_sub, re_finditer. rewrite Hp.
  apply (sub_plus_from _ _ _ _ _ (length s)); [lia | apply drop_0 | lia].
Qed.
End SubLemmas.


(** ** C8: cell splitting *)

(** C8. For every text and every positive limit [L], the chunks returned by
    [split_into_excel_cells text L] concatenate back to [text], every chunk
    has length at most [L], and every chunk but the last has length exactly
    [L]. *)
Theorem split_into_excel_cells_roundtrip (text : str) (L : Z) :
  0 < L ->
  exists chunks,
    split_into_excel_cells text L = Ok chunks
    /\ concat chunks = text
    /\ Forall (fun c => len c <= L) chunks
    /\ (forall i c, chunks !! i = Some c -> (S i < length chunks)%nat -> len c = L).
Proof.
  intros HL. destruct text as [|x t].
  { exists [[]]. simpl. repeat split; auto.
    - repeat constructor. unfold len. simpl. lia.
    - intros i c _ Hi. simpl in Hi. lia. }
  assert (Hsplit : split_into_excel_cells (x :: t) L
                   = (idxs ← py_range 0 (len (x :: t)) L;
                      Ok (map (fun i => slice (x :: t) i (i + L)) idxs)))
    by reflexivity.
  remember (x :: t) as text eqn:Etext. set (n := len text).
  assert (Hn : 0 < n) by (unfold n, len; subst text; simpl; lia).
  set (cnt := Z.to_nat (range_count 0 n L)).
  set (l := Z.to_nat L).
  assert (Hcnt : (Z.of_nat cnt - 1) * L < n <= Z.of_nat cnt * L).
  { unfold cnt, range_count. destruct (Z.ltb_spec 0 L); [|lia].
    rewrite Z.sub_0_r. rewrite Z.max_r by (apply Z.div_pos; lia).
    rewrite Z2Nat.id by (apply Z.div_pos; lia).
    pose proof (Z.div_mod (n + L - 1) L ltac:(lia)) as Hdm.
    pose proof (Z.mod_pos_bound (n + L - 1) L HL) as Hmb. nia. }
  exists (map (fun k => take l (drop (k * l) text)) (seq 0 cnt)).
  split; [|split; [|split]].
  - rewrite Hsplit. unfold py_range. destruct (Z.eqb_spec L 0); [lia|]. simpl.
    f_equal. fold n. fold cnt. rewrite map_map. apply map_ext_in.
    intros k _. rewrite Z.add_0_l. rewrite slice_nonneg by lia.
    f_equal; [f_equal; lia | f_equal; unfold l; lia].
  - rewrite concat_chunks. apply take_ge. unfold n, len, l in *. nia.
  - apply Forall_forall. intros c Hc. apply list_elem_of_In in Hc.
    apply in_map_iff in Hc as (k & <- & _). unfold len.
    rewrite length_take. unfold l. lia.
  - intros i c Hi Hlt. rewrite length_map, length_seq in Hlt.
    rewrite list_lookup_fmap in Hi.
    rewrite lookup_seq_lt in Hi by lia. simpl in Hi. inversion Hi; subst c.
    unfold len. rewrite length_take, length_drop. unfold n, len, l in *. nia.
Qed.

Lemma split_into_excel_cells_roundtrip_witness :
  exists chunks,
    split_into_excel_cells (u "abcdefg") 3 = Ok chunks
    /\ concat chunks = u "abcdefg"
    /\ Forall (fun c => len c <= 3) chunks
    /\ (forall i c, chunks !! i = Some c -> (S i < length chunks)%nat -> len c = 3).
Proof. apply (split_into_excel_cells_roundtrip (u "abcdefg") 3). lia. Defined.

(** ** C10: shape of the SKU code *)

Lemma alnum_not_space c : ascii_isalpha c || ascii_isdigit c = true -> is_space c = false.
Proof.
  unfold ascii_isalpha, ascii_isupper, ascii_islower, ascii_isdigit, is_space.
  intros H.
  repeat match goal with
         | H : _ || _ = true |- _ => apply orb_true_iff in H; destruct H as [H|H]
         | H : _ && _ = true |- _ => apply andb_true_iff in H; destruct H
         | H : (_ <=? _)%N = true |- _ => apply N.leb_le in H
         end;
  repeat match goal with
         | |- _ || _ = false => apply orb_false_iff; split
         | |- _ && _ = false => apply andb_false_iff
         end;
  first [ apply N.eqb_neq; lia
        | left; apply N.leb_gt; lia
        | right; apply N.leb_gt; lia ].
Qed.

Lemma alnum_or_space_is_space c : alnum_or_space c -> is_space c = (c =? 32)%N.
Proof.
  intros [->|H]; [reflexivity|].
  rewrite (alnum_not_space c H). symmetry. apply N.eqb_neq. intros ->. discriminate.
Qed.

Lemma squeeze_single_spaced s : forall b,
  single_spaced_from b (squeeze is_space [32%N] b s) = true.
Proof.
  induction s as [|c s IH]; intros b; cbn [squeeze]; [reflexivity|].
  destruct (is_space c) eqn:E.
  - destruct b; [apply IH|]. cbn [app single_spaced_from].
    rewrite N.eqb_refl. cbn [negb andb]. apply IH.
  - cbn [single_spaced_from].
    destruct (N.eqb_spec c 32) as [->|_]; [discriminate|]. apply IH.
Qed.

Lemma squeeze_chars (P : N -> Prop) s : forall b,
  P 32%N -> Forall P s -> Forall P (squeeze is_space [32%N] b s).
Proof.
  intros b H32 Hs. revert b. induction Hs as [|c s Hc Hs IH]; intros b; cbn [squeeze].
  - constructor.
  - destruct (is_space c); [destruct b|]; cbn [app]; auto.
Qed.

Lemma squeeze_no_space s : forall b,
  Forall (fun c => is_space c = true -> c = 32%N) (squeeze is_space [32%N] b s).
Proof.
  induction s as [|c s IH]; intros b; cbn [squeeze]; [constructor|].
  destruct (is_space c) eqn:E; [destruct b|]; cbn [app]; auto.
  constructor; [congruence | apply IH].
Qed.

Lemma lstrip_spec s :
  exists pre, s = pre ++ lstrip s
              /\ match lstrip s with c :: _ => is_space c = false | [] => True end.
Proof.
  induction s as [|c s (pre & Hs & Hh)]; cbn [lstrip].
  - exists []. split; [reflexivity | exact I].
  - destruct (is_space c) eqn:E.
    + exists (c :: pre). split; [cbn [app]; congruence | exact Hh].
    + exists []. split; [reflexivity | exact E].
Qed.

Lemma last_rev {A} (l : list A) : last (rev l) = head l.
Proof. destruct l as [|a l]; [reflexivity|]. cbn [rev head]. apply last_snoc. Qed.

Lemma rstrip_spec s :
  exists suf, s = rstrip s ++ suf
              /\ match last (rstrip s) with Some c => is_space c = false | None => True end.
Proof.
  unfold rstrip. destruct (lstrip_spec (rev s)) as (pre & Hs & Hh).
  exists (rev pre). split.
  - rewrite <- rev_app_distr, <- Hs. symmetry. apply rev_involutive.
  - rewrite last_rev. destruct (lstrip (rev s)); [exact I | exact Hh].
Qed.

Lemma Forall_app_l {A} (P : A -> Prop) x y : Forall P (x ++ y) -> Forall P x.
Proof. intros H. apply Forall_app in H. tauto. Qed.

Lemma Forall_app_r {A} (P : A -> Prop) x y : Forall P (x ++ y) -> Forall P y.
Proof. intros H. apply Forall_app in H. tauto. Qed.

Lemma strip_Forall (P : N -> Prop) s : Forall P s -> Forall P (strip s).
Proof.
  intros H. unfold strip.
  destruct (lstrip_spec s) as (pre & Hs & _).
  destruct (rstrip_spec (lstrip s)) as (suf & Hr & _).
  rewrite Hs in H. apply Forall_app_r in H. rewrite Hr in H. now apply Forall_app_l in H.
Qed.

Lemma single_spaced_app_l x : forall b y,
  single_spaced_from b (x ++ y) = true -> single_spaced_from b x = true.
Proof.
  induction x as [|c x IH]; intros b y; cbn [app single_spaced_from]; [reflexivity|].
  destruct (c =? 32)%N.
  - intros H. apply andb_true_iff in H as [H1 H2]. rewrite H1. cbn [andb]. eauto.
  - eauto.
Qed.

Lemma single_spaced_lstrip s : forall b,
  Forall (fun c => is_space c = true -> c = 32%N) s ->
  single_spaced_from b s = true -> single_spaced_from true (lstrip s) = true.
Proof.
  induction s as [|c s IH]; intros b Hs; cbn [lstrip single_spaced_from]; [reflexivity|].
  inversion Hs as [|? ? Hc Hs']; subst.
  destruct (is_space c) eqn:E.
  - rewrite (Hc eq_refl), N.eqb_refl. intros H. apply andb_true_iff in H as [_ H]. eauto.
  - intros H. cbn [single_spaced_from].
    destruct (N.eqb_spec c 32) as [->|_]; [discriminate | exact H].
Qed.

Lemma single_spaced_head s : single_spaced_from true s = true -> head s <> Some 32%N.
Proof.
  destruct s as [|c s]; cbn [single_spaced_from head]; [discriminate|].
  destruct (N.eqb_spec c 32); [discriminate | congruence].
Qed.

Lemma single_spaced_no_double s : forall b i,
  single_spaced_from b s = true -> s !! i = Some 32%N -> s !! S i <> Some 32%N.
Proof.
  induction s as [|c s IH]; intros b i H Hi; [discriminate|].
  cbn [single_spaced_from] in H. destruct i as [|i]; cbn in Hi |- *.
  - inversion Hi; subst. rewrite N.eqb_refl in H. apply andb_true_iff in H as [_ H].
    apply single_spaced_head in H. destruct s; [discriminate | exact H].
  - destruct (c =? 32)%N; [apply andb_true_iff in H as [_ H]|]; eauto.
Qed.

Lemma single_spaced_map_lower s : forall b,
  Forall alnum_or_space s ->
  single_spaced_from b (map ascii_lower s) = single_spaced_from b s.
Proof.
  induction s as [|c s IH]; intros b Hs; [reflexivity|].
  inversion Hs as [|? ? Hc Hs']; subst. cbn [map single_spaced_from].
  assert (Heq : (ascii_lower c =? 32)%N = (c =? 32)%N).
  { destruct Hc as [->|Hc]; [reflexivity|].
    unfold ascii_lower. destruct (ascii_isupper c) eqn:Eu; [|reflexivity].
    unfold ascii_isupper in Eu. apply andb_true_iff in Eu as [H1 H2].
    apply N.leb_le in H1, H2.
    transitivity false; [apply N.eqb_neq; lia | symmetry; apply N.eqb_neq; lia]. }
  rewrite Heq, !IH by assumption. reflexivity.
Qed.

Lemma lower_sku_char c : alnum_or_space c -> sku_char (ascii_lower c) = true.
Proof.
  unfold sku_char, ascii_lower, ascii_isalpha.
  intros [->|H]; [reflexivity|].
  destruct (ascii_isupper c) eqn:Eu.
  - unfold ascii_isupper in Eu. apply andb_true_iff in Eu as [H1 H2].
    apply N.leb_le in H1, H2. unfold ascii_islower.
    replace (97 <=? c + 32)%N with true by (symmetry; apply N.leb_le; lia).
    replace (c + 32 <=? 122)%N with true by (symmetry; apply N.leb_le; lia).
    reflexivity.
  - unfold ascii_isalpha in H. rewrite Eu in H. cbn [orb] in H. rewrite H. reflexivity.
Qed.

Lemma alnum_or_space_ascii c : alnum_or_space c -> is_ascii c = true.
Proof.
  intros [->|H]; [reflexivity|].
  unfold is_ascii. unfold ascii_isalpha, ascii_isupper, ascii_islower, ascii_isdigit in H.
  apply N.ltb_lt.
  repeat match goal with
         | H : _ || _ = true |- _ => apply orb_true_iff in H; destruct H as [H|H]
         | H : _ && _ = true |- _ => apply andb_true_iff in H; destruct H
         | H : (_ <=? _)%N = true |- _ => apply N.leb_le in H
         end; lia.
Qed.

Lemma squeeze_ext (cls cls' : N -> bool) r s :
  (forall c, cls c = cls' c) -> forall b, squeeze cls r b s = squeeze cls' r b s.
Proof.
  intros H. induction s as [|c s IH]; intros b; cbn [squeeze]; [reflexivity|].
  rewrite <- H, !IH. reflexivity.
Qed.

Lemma squeeze_alnum s : forall b,
  Forall (fun c => is_space c = true \/ (ascii_isalpha c || ascii_isdigit c = true)) s ->
  Forall alnum_or_space (squeeze is_space [32%N] b s).
Proof.
  induction s as [|c s IH]; intros b Hs; cbn [squeeze]; [constructor|].
  inversion Hs as [|? ? Hc Hs']; subst.
  destruct (is_space c) eqn:E.
  - destruct b; cbn [app]; [auto|]. constructor; [left; reflexivity | auto].
  - constructor; [|auto]. destruct Hc as [Hc|Hc]; [congruence | right; exact Hc].
Qed.

Lemma strip_shape (t : str) :
  Forall alnum_or_space t -> single_spaced_from false t = true ->
  Forall alnum_or_space (strip t) /\ single_spaced_from true (strip t) = true
  /\ last (strip t) <> Some 32%N.
Proof.
  intros Hta Hts.
  assert (Hsp : Forall (fun c => is_space c = true -> c = 32%N) t).
  { eapply Forall_impl; [exact Hta|]. intros c Hc Hs.
    rewrite (alnum_or_space_is_space c Hc) in Hs. now apply N.eqb_eq. }
  pose proof (single_spaced_lstrip t false Hsp Hts) as Hl.
  split; [now apply strip_Forall|]. unfold strip.
  destruct (rstrip_spec (lstrip t)) as (suf & Hr & Hlast).
  split.
  - rewrite Hr in Hl. now apply single_spaced_app_l in Hl.
  - intros Hc. rewrite Hc in Hlast. discriminate.
Qed.

Section Sku.
Context `{UD : UnicodeData}.

Lemma not_alnum_class (c : N) :
  set_mem no_flags true [CRange 97 122; CRange 65 90; CRange 48 57; CSpace true] c = false ->
  is_space c = true \/ (ascii_isalpha c || ascii_isdigit c = true).
Proof.
  unfold set_mem. cbn [IGNORECASE no_flags existsb citem_mem]. intros E.
  apply negb_false_iff in E.
  unfold ascii_isalpha, ascii_islower, ascii_isupper, ascii_isdigit.
  destruct (is_space c); [left; reflexivity|]. right.
  destruct ((97 <=? c)%N && (c <=? 122)%N); [now rewrite orb_true_r|].
  destruct ((65 <=? c)%N && (c <=? 90)%N); [reflexivity|].
  destruct ((48 <=? c)%N && (c <=? 57)%N); [reflexivity|].
  cbn in E. discriminate E.
Qed.

Lemma sku_tail_shape (s5 : str) :
  let s6 := re_sub (re_compile no_flags (u "[^a-zA-Z0-9\s]")) (fun _ => u " ") s5 in
  let s7 := strip (re_sub (re_compile no_flags (u "\s+")) (fun _ => u " ") s6) in
  Forall alnum_or_space s7 /\ single_spaced_from true s7 = true /\ last s7 <> Some 32%N.
Proof.
  intros s6 s7.
  assert (H6 : Forall (fun c => is_space c = true
                                \/ (ascii_isalpha c || ascii_isdigit c = true)) s6).
  { unfold s6. rewrite (re_sub_one_class _ true
      [CRange 97 122; CRange 65 90; CRange 48 57; CSpace true]) by (vm_compute; reflexivity).
    apply Forall_flat_map, Forall_forall. intros c _.
    destruct (set_mem _ _ _ c) eqn:E.
    - repeat constructor.
    - constructor; [|constructor]. now apply not_alnum_class. }
  clearbody s6. subst s7.
  rewrite (re_sub_class_plus _ false [CSpace true]) by (vm_compute; reflexivity).
  rewrite (squeeze_ext _ is_space).
  - apply strip_shape; [now apply squeeze_alnum | apply squeeze_single_spaced].
  - intros c. unfold set_mem.
    cbn [IGNORECASE p_flags re_compile no_flags existsb citem_mem].
    destruct (is_space c); reflexivity.
Qed.

Lemma lower_shape (t : str) :
  Forall alnum_or_space t -> single_spaced_from true t = true -> last t <> Some 32%N ->
  Forall (fun c => sku_char c = true) (lower t)
  /\ head (lower t) <> Some 32%N
  /\ last (lower t) <> Some 32%N
  /\ (forall i, lower t !! i = Some 32%N -> lower t !! S i <> Some 32%N).
Proof.
  intros Ha Hs Hl. unfold lower.
  assert (Hascii : forallb is_ascii t = true).
  { apply forallb_forall. intros c Hc. apply alnum_or_space_ascii.
    rewrite Forall_forall in Ha. apply Ha. now apply list_elem_of_In. }
  rewrite Hascii.
  assert (Hss : single_spaced_from true (map ascii_lower t) = true)
    by (rewrite single_spaced_map_lower; assumption).
  split; [|split; [|split]].
  - apply Forall_forall. intros c Hc. apply list_elem_of_In, in_map_iff in Hc as (d & <- & Hd).
    apply lower_sku_char. rewrite Forall_forall in Ha. apply Ha. now apply list_elem_of_In.
  - now apply single_spaced_head.
  - change (map ascii_lower t) with (ascii_lower <$> t). rewrite fmap_last.
    destruct (last t) as [c|] eqn:E; [|discriminate]. cbn [fmap option_fmap option_map].
    intros [= Hc]. apply Hl. f_equal.
    assert (Hin : alnum_or_space c).
    { rewrite Forall_forall in Ha. apply Ha. apply last_Some_elem_of. exact E. }
    destruct Hin as [->|Hal]; [reflexivity|]. exfalso.
    unfold ascii_lower in Hc. destruct (ascii_isupper c) eqn:Eu.
    + unfold ascii_isupper in Eu. apply andb_true_iff in Eu as [H1 H2].
      apply N.leb_le in H1, H2. lia.
    + subst c. discriminate.
  - intros i. now apply (single_spaced_no_double _ true).
Qed.

(** C10. For every input path, the SKU code returned by [extract_sku_code]
    consists only of lowercase ASCII letters, digits and spaces; it neither
    starts nor ends with a space, and no two spaces are adjacent. *)
Theorem extract_sku_code_shape (docx_path : str) :
  let sku := extract_sku_code docx_path in
  Forall (fun c => sku_char c = true) sku
  /\ head sku <> Some 32%N
  /\ last sku <> Some 32%N
  /\ (forall i, sku !! i = Some 32%N -> sku !! S i <> Some 32%N).
Proof.
  unfold extract_sku_code. cbv zeta.
  match goal with
  | |- context [re_sub (re_compile no_flags (u "[^a-zA-Z0-9\s]")) _ ?s5] =>
      pose proof (sku_tail_shape s5) as H
  end.
  cbv zeta in H. destruct H as (Ha & Hs & Hl).
  apply lower_shape; assumption.
Qed.
End Sku.

(** ** C7: the SEO title *)

Section SeoTitle.
Context `{UD : UnicodeData}.

Lemma forecast_of_rows_unmatched (i j : nat) (pre rest : list Row) :
  Forall (row_unmatched i j) pre ->
  forecast_of_rows i j (pre ++ rest) = forecast_of_rows i j rest.
Proof.
  induction 1 as [|row pre (a & d & Ha & Hd & Hm) _ IH]; [reflexivity|].
  cbn [app forecast_of_rows]. rewrite Ha, Hd. cbn. rewrite Hm. exact IH.
Qed.

Lemma forecast_of_tables_unmatched (pre rest : list Table) :
  Forall table_unmatched pre ->
  forecast_of_tables (pre ++ rest) = forecast_of_tables rest.
Proof.
  induction 1 as [|table pre Ht _ IH]; [reflexivity|].
  cbn [app forecast_of_tables].
  destruct table as [|header data]; [exact IH|].
  destruct header as [|c header]; [exact IH|].
  cbn [table_unmatched] in Ht. cbv zeta in *.
  destruct (str_in _ _ && str_in _ _) eqn:E; [|exact IH].
  specialize (Ht eq_refl).
  rewrite <- (app_nil_r data), forecast_of_rows_unmatched by exact Ht.
  cbn. exact IH.
Qed.

(** C7 (amended). When the attribute table is headed [Report Attribute | Details],
    no earlier table yields a forecast and no earlier data row of the table is a
    forecast row, the row [Revenue Forecast in 2030 | USD 4.5 Billion] makes
    [extract_seo_title] return the file name (underscores as spaces) followed by
    [ Size ($ 4.5 Billion) 2030]: the substitution of [USD] keeps the space
    after it.  When no row of any table matches, the bare name is returned. *)
Theorem extract_seo_title_forecast (docx_path : str) (doc : Document) :
  (forall pre data_pre data_post post,
      doc_tables doc
      = pre ++ (attribute_header :: data_pre ++ forecast_row :: data_post) :: post ->
      Forall table_unmatched pre ->
      Forall (row_unmatched 0 1) data_pre ->
      extract_seo_title docx_path doc
      = Ok (seo_name docx_path ++ u " Size ($ 4.5 Billion) 2030"))
  /\ (Forall table_unmatched (doc_tables doc) ->
      extract_seo_title docx_path doc = Ok (seo_name docx_path)).
Proof.
  split.
  - intros pre data_pre data_post post Hdoc Hpre Hdata.
    unfold extract_seo_title. rewrite Hdoc, forecast_of_tables_unmatched by exact Hpre.
    cbn [forecast_of_tables attribute_header].
    replace (str_in _ _ && str_in _ _) with true by (vm_compute; reflexivity).
    replace (list_index (u "report attribute") _) with 0%nat by (vm_compute; reflexivity).
    replace (list_index (u "details") _) with 1%nat by (vm_compute; reflexivity).
    rewrite forecast_of_rows_unmatched by exact Hdata.
    replace (forecast_of_rows 0 1 (forecast_row :: data_post)) with (Ok (u "$ 4.5 Billion"))
      by (vm_compute; reflexivity).
    reflexivity.
  - intros Hall. unfold extract_seo_title.
    rewrite <- (app_nil_r (doc_tables doc)), forecast_of_tables_unmatched by exact Hall.
    reflexivity.
Qed.
End SeoTitle.

Lemma extract_seo_title_forecast_witness :
  extract_seo_title (UD := plain_unicode) (u "reports/Canned_Meat_Market.docx")
    (seo_doc [[attribute_header; [text_cell "Base Year"; text_cell "2023"]; forecast_row]])
  = Ok (u "Canned Meat Market Size ($ 4.5 Billion) 2030")
  /\ extract_seo_title (UD := plain_unicode) (u "reports/Canned_Meat_Market.docx")
       (seo_doc [[attribute_header; [text_cell "Base Year"; text_cell "2023"]]])
     = Ok (u "Canned Meat Market").
Proof.
  destruct (extract_seo_title_forecast (UD := plain_unicode)
              (u "reports/Canned_Meat_Market.docx")
              (seo_doc [[attribute_header; [text_cell "Base Year"; text_cell "2023"];
                         forecast_row]])) as [Hfound _].
  destruct (extract_seo_title_forecast (UD := plain_unicode)
              (u "reports/Canned_Meat_Market.docx")
              (seo_doc [[attribute_header; [text_cell "Base Year"; text_cell "2023"]]]))
    as [_ Hnone].
  split.
  - rewrite (Hfound [] [[text_cell "Base Year"; text_cell "2023"]] [] []).
    + vm_compute. reflexivity.
    + reflexivity.
    + constructor.
    + constructor; [|constructor].
      eexists _, _. repeat split; vm_compute; reflexivity.
  - rewrite Hnone.
    + vm_compute. reflexivity.
    + constructor; [|constructor]. intros _.
      constructor; [|constructor].
      eexists _, _. repeat split; vm_compute; reflexivity.
Defined.

(** C7, as stated, fails on the scenario itself: the result has [$ 4.5 Billion],
    not [$4.5 Billion]. *)
Lemma extract_seo_title_scenario_counterexample :
  let doc := seo_doc [[attribute_header; forecast_row]] in
  In forecast_row (tl (hd [] (doc_tables doc)))
  /\ extract_seo_title (UD := plain_unicode) (u "Canned_Meat_Market.docx") doc
     = Ok (u "Canned Meat Market Size ($ 4.5 Billion) 2030")
  /\ extract_seo_title (UD := plain_unicode) (u "Canned_Meat_Market.docx") doc
     <> Ok (u "Canned Meat Market Size ($4.5 Billion) 2030").
Proof.
  cbv zeta. split; [left; reflexivity|]. split; [vm_compute; reflexivity|].
  vm_compute. intros [=].
Qed.

(** The first matching row wins, and a row shorter than the header raises. *)
Lemma extract_seo_title_earlier_row :
  extract_seo_title (UD := plain_unicode) (u "Canned_Meat_Market.docx")
    (seo_doc [[attribute_header; [text_cell "Market Size 2030"; text_cell "USD 1 Billion"];
               forecast_row]])
  = Ok (u "Canned Meat Market Size ($ 1 Billion) 2030").
Proof. vm_compute. reflexivity. Qed.

Lemma extract_seo_title_short_row :
  extract_seo_title (UD := plain_unicode) (u "Canned_Meat_Market.docx")
    (seo_doc [[attribute_header; [text_cell "Notes"]; forecast_row]])
  = Raise IndexError.
Proof. vm_compute. reflexivity. Qed.

(** ** C9: numbering of the methodology questions *)

Section Faq.

Lemma faq_loop_positions (items : list json) (qas : list (str * str)) :
  Forall2 (fun item qa => item_qa item = Ok qa) items qas ->
  forall q_count,
    faq_loop q_count items
    = Ok (omap id (imap (fun i qa => faq_entry (q_count + Z.of_nat i + 1) qa) qas)).
Proof.
  induction 1 as [|item qa items qas Hqa _ IH]; intros q_count; [reflexivity|].
  cbn [faq_loop]. cbv zeta. rewrite Hqa. cbn [mbind result_bind].
  rewrite IH. cbn [mbind result_bind imap omap].
  replace (q_count + Z.of_nat 0 + 1) with (q_count + 1) by lia.
  assert (Hext : imap (fun i qa0 => faq_entry (q_count + 1 + Z.of_nat i + 1) qa0) qas
                 = imap ((fun i qa0 => faq_entry (q_count + Z.of_nat i + 1) qa0) ∘ S) qas).
  { apply imap_ext. intros i x _. cbn. f_equal. lia. }
  rewrite Hext. destruct (faq_entry (q_count + 1) qa); reflexivity.
Qed.

(** C9. The counter advances on every element of [mainEntity], skipped or not:
    the paragraph of the element at index [i] (if it has a question and an
    answer) carries the label [i + 1], its 1-based position, whatever the
    elements before it were. *)
Theorem faq_labels_are_positions (members : list (str * json)) (items : list json)
    (qas : list (str * str)) :
  assoc (u "mainEntity") members = Some (JArr items) ->
  Forall2 (fun item qa => item_qa item = Ok qa) items qas ->
  methodology_of_json (JObj members)
  = Ok (join nl (omap id (imap (fun i qa => faq_entry (Z.of_nat i + 1) qa) qas))).
Proof.
  intros Hmain Hqas. unfold methodology_of_json, py_get. rewrite Hmain.
  cbn [default from_option id mbind result_bind py_iter].
  rewrite (faq_loop_positions items qas Hqas 0). reflexivity.
Qed.
End Faq.

Lemma faq_labels_are_positions_witness :
  methodology_of_json
    (faq_page [faq_item "What is covered?" "Five regions.";
               faq_item "Which year?" " ";
               faq_item "Who is profiled?" "Ten vendors."])
  = Ok (u "<p><strong>Q1: What is covered?</strong><br>A1: Five regions.</p>" ++ nl
        ++ u "<p><strong>Q3: Who is profiled?</strong><br>A3: Ten vendors.</p>").
Proof.
  unfold faq_page.
  rewrite (faq_labels_are_positions _
             [faq_item "What is covered?" "Five regions.";
              faq_item "Which year?" " ";
              faq_item "Who is profiled?" "Ten vendors."]
             [(u "What is covered?", u "Five regions."); (u "Which year?", []);
              (u "Who is profiled?", u "Ten vendors.")]).
  - vm_compute. reflexivity.
  - vm_compute. reflexivity.
  - repeat constructor.
Defined.

(** ** C5: extractors that return the empty string *)

Section EmptyResults.
Context `{UD : UnicodeData}.
Variable json_loads : str -> option json.

Lemma coverage_of_tables_none (tables : list Table) :
  no_report_table tables -> coverage_of_tables tables = [].
Proof.
  induction 1 as [|table tables Ht _ IH]; [reflexivity|].
  cbn [coverage_of_tables]. destruct table as [|header rows]; [exact IH|].
  rewrite Ht. exact IH.
Qed.

(** C5 (amended). [extract_report_coverage_table_with_style] returns the empty
    string when no table has a first row matching the keyword set, and
    [extract_methodology_from_faqschema] returns the empty string, without
    raising, when the FAQPage block is absent or [json.loads] rejects it. *)
Theorem field_extractors_empty (doc : Document) :
  (no_report_table (doc_tables doc) -> extract_report_coverage_table_with_style doc = [])
  /\ (extract_faq_schema doc = [] ->
      extract_methodology_from_faqschema json_loads doc = Ok [])
  /\ (json_loads (cleaned_json (extract_faq_schema doc)) = None ->
      extract_methodology_from_faqschema json_loads doc = Ok []).
Proof.
  split; [|split].
  - apply coverage_of_tables_none.
  - intros Habsent. unfold extract_methodology_from_faqschema. now rewrite Habsent.
  - intros Hfail. unfold extract_methodology_from_faqschema. cbv zeta.
    rewrite Hfail.
    destruct (extract_faq_schema doc); reflexivity.
Qed.
End EmptyResults.

Lemma field_extractors_empty_witness :
  extract_report_coverage_table_with_style (UD := plain_unicode)
    (seo_doc [[[text_cell "Company"; text_cell "Country"]; [text_cell "Acme"; text_cell "US"]]])
  = []
  /\ extract_methodology_from_faqschema (UD := plain_unicode) (fun _ => None)
       (text_doc [plain_paragraph (u "Research methodology")]) = Ok []
  /\ extract_methodology_from_faqschema (UD := plain_unicode) (fun _ => None)
       (text_doc [plain_paragraph faq_schema_text]) = Ok [].
Proof.
  split; [|split].
  - apply (field_extractors_empty (UD := plain_unicode) (fun _ => None)).
    constructor; [vm_compute; reflexivity | constructor].
  - apply (field_extractors_empty (UD := plain_unicode) (fun _ => None)).
    vm_compute. reflexivity.
  - apply (field_extractors_empty (UD := plain_unicode) (fun _ => None)).
    reflexivity.
Defined.

(** C5, as stated, fails: a FAQPage block that parses but whose [mainEntity]
    holds something else than objects makes the extractor raise. *)
Lemma methodology_raises_counterexample :
  extract_faq_schema (UD := plain_unicode) (text_doc [plain_paragraph faq_schema_text])
  = faq_schema_text
  /\ cleaned_json (UD := plain_unicode) faq_schema_text = faq_schema_text
  /\ extract_methodology_from_faqschema (UD := plain_unicode)
       (loads_only faq_schema_text faq_schema_value)
       (text_doc [plain_paragraph faq_schema_text])
     = Raise AttributeError.
Proof. repeat split; vm_compute; reflexivity. Qed.

(** ** C4: hyperlinks in the inline formatter *)

(** The first definition of [runs_to_html] (line 190) does what the claim says:
    a run with text inside a hyperlink becomes an anchor to the resolved
    target, and the bare text when the relationship is missing. *)
Lemma line190_run_part_hyperlink (rels : gmap str str) (run : Run) (rid : str) :
  run_link run = LinkId rid ->
  remove_emojis (strip (run_text run)) <> [] ->
  Line190.run_part rels run
  = [match rels !! rid with
     | Some target => anchor target (remove_emojis (strip (run_text run)))
     | None => remove_emojis (strip (run_text run))
     end].
Proof.
  intros Hlink Htxt. unfold Line190.run_part. cbv zeta. rewrite Hlink.
  destruct (remove_emojis (strip (run_text run))) as [|c txt]; [congruence|].
  destruct (rels !! rid); reflexivity.
Qed.

(** The definition in force never looks at the hyperlink of a run. *)
Lemma run_part_ignores_link (run : Run) (lnk : link) :
  run_part {| run_text := run_text run; run_bold := run_bold run;
              run_italic := run_italic run; run_br := run_br run; run_link := lnk |}
  = run_part run.
Proof. reflexivity. Qed.


(** ** C1: balance of the list markup *)

(** C1. On a document whose table of contents has two consecutive
    [Country-Level Breakdown: ...] list items, [extract_toc] opens three lists
    and closes two: the branch of logic 3 for these items opens a nested list
    without looking at the depth already reached. *)
Theorem extract_toc_unbalanced :
  determine_toc_logic (UD := plain_unicode) breakdown_doc = 3
  /\ exists out, extract_toc (UD := plain_unicode) breakdown_doc = Ok out
                 /\ count_occ_str out UL = 3%nat
                 /\ count_occ_str out UL_END = 2%nat.
Proof.
  split; [vm_compute; reflexivity|].
  eexists. split; [vm_compute; reflexivity|].
  split; vm_compute; reflexivity.
Qed.

Lemma extract_toc_breakdown_output :
  extract_toc (UD := plain_unicode) breakdown_doc
  = Ok (join nl
          [ nl ++ u "<strong>Executive Summary</strong>";
            u "<ul>";
            u "<li><p><strong>Country-Level Breakdown: United States, Canada</strong></p>";
            u "<ul>";
            u "<li><p><strong>Country-Level Breakdown: Germany, France</strong></p>";
            u "<ul>";
            u "</ul>";
            u "</ul>" ]).
Proof. vm_compute. reflexivity. Qed.

(** ** C6: the values of a segment *)

Section SegmentValues.
Context `{UD : UnicodeData}.

Lemma str_in_spec (x : str) (xs : list str) : str_in x xs = true <-> In x xs.
Proof.
  unfold str_in. rewrite existsb_exists. split.
  - intros (y & Hy & Heq). unfold str_eqb in Heq. apply bool_decide_eq_true in Heq.
    now subst.
  - intros Hx. exists x. split; [exact Hx|]. unfold str_eqb. now apply bool_decide_eq_true.
Qed.




Lemma length_take_le {A} (n : nat) (l : list A) : (length (take n l) <= n)%nat.
Proof. rewrite length_take. lia. Qed.

End SegmentValues.



(** ** C3: the Canned Meat scenario *)


(** ** C2: the sentinel title *)

Section Sentinel.
Context `{UD : UnicodeData}.






End Sentinel.


(** ** More on cell splitting *)

(** The chunks of a non-empty text for a positive limit. *)
Lemma split_chunks_eq (text : str) (L : Z) :
  0 < L -> text <> [] ->
  split_into_excel_cells text L
  = Ok (map (fun k => take (Z.to_nat L) (drop (k * Z.to_nat L) text))
            (seq 0 (Z.to_nat ((len text + L - 1) / L)))).
Proof.
  intros HL Hne. destruct text as [|x t]; [congruence|].
  remember (x :: t) as text eqn:Etext.
  assert (Hsplit : split_into_excel_cells text L
                   = (idxs ← py_range 0 (len text) L;
                      Ok (map (fun i => slice text i (i + L)) idxs)))
    by (subst text; reflexivity).
  rewrite Hsplit. unfold py_range, range_count.
  destruct (Z.eqb_spec L 0); [lia|]. destruct (Z.ltb_spec 0 L); [|lia].
  cbn [mbind result_bind]. f_equal.
  rewrite Z.sub_0_r, Z.max_r by (apply Z.div_pos; unfold len; lia).
  rewrite map_map. apply map_ext_in. intros k _.
  rewrite Z.add_0_l, slice_nonneg by lia.
  f_equal; [f_equal; lia | f_equal; lia].
Qed.

Lemma ceil_div_bounds (n L : Z) :
  0 < L -> 0 <= n -> ((n + L - 1) / L - 1) * L < n <= (n + L - 1) / L * L.
Proof.
  intros HL Hn.
  pose proof (Z.div_mod (n + L - 1) L ltac:(lia)) as Hdm.
  pose proof (Z.mod_pos_bound (n + L - 1) L HL) as Hmb. nia.
Qed.

(** X1. For a positive limit the number of chunks is the length of the text
    divided by the limit, rounded up; the empty text gives one (empty) chunk. *)
Theorem split_into_excel_cells_count (text : str) (L : Z) :
  0 < L ->
  exists chunks,
    split_into_excel_cells text L = Ok chunks
    /\ len chunks = Z.max 1 ((len text + L - 1) / L).
Proof.
  intros HL. destruct (decide (text = [])) as [->|Hne].
  - exists [[]]. split; [reflexivity|]. unfold len. cbn [length].
    rewrite Z.add_0_l. rewrite Z.div_small by lia. reflexivity.
  - eexists. split; [apply split_chunks_eq; assumption|].
    unfold len at 1. rewrite length_map, length_seq.
    assert (Hn : 0 < len text) by (unfold len; destruct text; [congruence|cbn; lia]).
    pose proof (ceil_div_bounds (len text) L HL ltac:(lia)).
    rewrite Z2Nat.id by (apply Z.div_pos; lia). nia.
Qed.

Lemma split_into_excel_cells_count_witness :
  exists chunks,
    split_into_excel_cells (u "abcdefg") 3 = Ok chunks
    /\ len chunks = Z.max 1 ((len (u "abcdefg") + 3 - 1) / 3).
Proof. apply (split_into_excel_cells_count (u "abcdefg") 3). lia. Defined.

(** X2. Outside the positive limits: the empty text gives the single empty
    chunk whatever the limit; a non-empty text raises ValueError for the limit
    0 and gives no chunk at all, so that the text is lost, for a negative
    limit. *)
Theorem split_into_excel_cells_edge (text : str) (L : Z) :
  split_into_excel_cells [] L = Ok [[]]
  /\ (text <> [] -> L = 0 -> split_into_excel_cells text L = Raise ValueError)
  /\ (text <> [] -> L < 0 -> split_into_excel_cells text L = Ok []).
Proof.
  split; [reflexivity|]. split; intros Hne HL.
  - subst L. destruct text; [congruence|]. reflexivity.
  - destruct text as [|x t]; [congruence|].
    unfold split_into_excel_cells, py_range, range_count.
    destruct (Z.eqb_spec L 0); [lia|]. destruct (Z.ltb_spec 0 L); [lia|].
    replace (Z.max 0 ((0 - len (x :: t) - L - 1) / - L)) with 0; [reflexivity|].
    assert (Hn : 0 < len (x :: t)) by (unfold len; cbn; lia).
    assert ((0 - len (x :: t) - L - 1) / - L <= 0); [|lia].
    destruct (Z_lt_le_dec (0 - len (x :: t) - L - 1) 0).
    + apply Z.lt_le_incl, Z.div_lt_upper_bound; lia.
    + rewrite Z.div_small; lia.
Qed.

Lemma split_into_excel_cells_edge_witness :
  split_into_excel_cells [] (-4) = Ok [[]]
  /\ (u "abc" <> [] -> 0 = 0 -> split_into_excel_cells (u "abc") 0 = Raise ValueError)
  /\ (u "abc" <> [] -> -4 < 0 -> split_into_excel_cells (u "abc") (-4) = Ok []).
Proof.
  destruct (split_into_excel_cells_edge (u "abc") 0) as (H1 & H2 & _).
  destruct (split_into_excel_cells_edge (u "abc") (-4)) as (H3 & _ & H4).
  split; [exact H3|]. split; [exact H2 | exact H4].
Defined.

(** X3. The description columns of a row: the merged text is never empty, so
    there is at least one part; no part is longer than an Excel cell, and the
    parts put together are the description, an empty line and the report
    table. *)
Theorem description_parts_roundtrip (description report : str) :
  exists chunks,
    description_parts description report = Ok chunks
    /\ chunks <> []
    /\ Forall (fun c => len c <= EXCEL_CELL_LIMIT) chunks
    /\ concat chunks = description ++ nl ++ nl ++ report.
Proof.
  unfold description_parts.
  assert (Hne : merged_text description report <> [])
    by (unfold merged_text; destruct description; discriminate).
  assert (HL : 0 < EXCEL_CELL_LIMIT) by reflexivity.
  rewrite (split_chunks_eq _ _ HL Hne). eexists. split; [reflexivity|].
  pose proof (ceil_div_bounds (len (merged_text description report)) EXCEL_CELL_LIMIT HL
                ltac:(unfold len; lia)) as Hb.
  assert (Hn : 0 < len (merged_text description report))
    by (unfold len; destruct (merged_text description report); [congruence|cbn; lia]).
  split; [|split].
  - intros Hnil. apply (f_equal length) in Hnil.
    rewrite length_map, length_seq in Hnil. cbn [length] in Hnil.
    assert (0 < (len (merged_text description report) + EXCEL_CELL_LIMIT - 1)
                 / EXCEL_CELL_LIMIT) by (apply Z.div_str_pos; lia).
    lia.
  - apply Forall_forall. intros c Hc. apply list_elem_of_In, in_map_iff in Hc as (k & <- & _).
    unfold len. rewrite length_take. lia.
  - rewrite concat_chunks. fold (merged_text description report). apply take_ge.
    assert (0 <= (len (merged_text description report) + EXCEL_CELL_LIMIT - 1)
                 / EXCEL_CELL_LIMIT) by (apply Z.div_pos; lia).
    apply Nat2Z.inj_le. rewrite Nat2Z.inj_mul, !Z2Nat.id by lia.
    unfold len in *. lia.
Qed.

(** ** The meta description *)

Section MetaDescription.
Context `{UD : UnicodeData}.

Lemma meta_scan_before (pre rest : list Paragraph) :
  Forall (fun para => mentions_introduction para = false) pre ->
  meta_scan false (pre ++ rest) = meta_scan false rest.
Proof.
  induction 1 as [|para pre Hpara _ IH]; [reflexivity|].
  cbn [app meta_scan]. cbv zeta. unfold mentions_introduction in Hpara.
  rewrite Hpara. cbn [negb andb]. exact IH.
Qed.

Lemma meta_scan_blank (blanks rest : list Paragraph) :
  Forall (fun para => is_blank para = true) blanks ->
  meta_scan true (blanks ++ rest) = meta_scan true rest.
Proof.
  induction 1 as [|para blanks Hpara _ IH]; [reflexivity|].
  cbn [app meta_scan]. cbv zeta. unfold is_blank in Hpara.
  apply negb_true_iff in Hpara. rewrite Hpara. cbn [negb andb]. exact IH.
Qed.

(** X4. [extract_meta_description] returns the stripped text of the first
    non-blank paragraph that follows the first paragraph mentioning
    [introduction] (in any case); that paragraph itself is never returned.
    Without such a paragraph, or with only blank paragraphs after it, the
    result is the empty string. *)
Theorem extract_meta_description_first_after (doc : Document) :
  (forall pre intro blanks para post,
      doc_paragraphs doc = pre ++ intro :: blanks ++ para :: post ->
      Forall (fun p => mentions_introduction p = false) pre ->
      mentions_introduction intro = true ->
      Forall (fun p => is_blank p = true) blanks ->
      is_blank para = false ->
      extract_meta_description doc = strip (p_text para))
  /\ (Forall (fun p => mentions_introduction p = false) (doc_paragraphs doc) ->
      extract_meta_description doc = [])
  /\ (forall pre intro blanks,
      doc_paragraphs doc = pre ++ intro :: blanks ->
      Forall (fun p => mentions_introduction p = false) pre ->
      mentions_introduction intro = true ->
      Forall (fun p => is_blank p = true) blanks ->
      extract_meta_description doc = []).
Proof.
  unfold extract_meta_description. split; [|split].
  - intros pre intro blanks para post -> Hpre Hintro Hblanks Hpara.
    rewrite meta_scan_before by exact Hpre. cbn [meta_scan]. cbv zeta.
    unfold mentions_introduction in Hintro. rewrite Hintro. cbn [negb andb].
    rewrite meta_scan_blank by exact Hblanks. cbn [meta_scan]. cbv zeta.
    unfold is_blank in Hpara. apply negb_false_iff in Hpara. rewrite Hpara. reflexivity.
  - intros Hnone. rewrite <- (app_nil_r (doc_paragraphs doc)).
    now rewrite meta_scan_before.
  - intros pre intro blanks -> Hpre Hintro Hblanks.
    rewrite meta_scan_before by exact Hpre. cbn [meta_scan]. cbv zeta.
    unfold mentions_introduction in Hintro. rewrite Hintro. cbn [negb andb].
    rewrite <- (app_nil_r blanks). now rewrite meta_scan_blank.
Qed.
End MetaDescription.

Lemma extract_meta_description_first_after_witness :
  extract_meta_description (UD := plain_unicode)
    (paragraphs_doc ["Cover page"; "1. INTRODUCTION and scope"; "   ";
                     "  The market grew steadily. "; "Second paragraph"]%string)
  = u "The market grew steadily."
  /\ extract_meta_description (UD := plain_unicode)
       (paragraphs_doc ["Cover page"; "Summary"]%string) = []
  /\ extract_meta_description (UD := plain_unicode)
       (paragraphs_doc ["Cover page"; "Introduction"; " "]%string) = [].
Proof.
  split; [|split].
  - apply (proj1 (extract_meta_description_first_after (UD := plain_unicode) _)
             [plain_paragraph (u "Cover page")]
             (plain_paragraph (u "1. INTRODUCTION and scope"))
             [plain_paragraph (u "   ")]
             (plain_paragraph (u "  The market grew steadily. "))
             [plain_paragraph (u "Second paragraph")]).
    + reflexivity.
    + repeat constructor.
    + vm_compute. reflexivity.
    + repeat constructor.
    + vm_compute. reflexivity.
  - apply (proj1 (proj2 (extract_meta_description_first_after (UD := plain_unicode) _))).
    repeat constructor.
  - apply (proj2 (proj2 (extract_meta_description_first_after (UD := plain_unicode) _))
             [plain_paragraph (u "Cover page")] (plain_paragraph (u "Introduction"))
             [plain_paragraph (u " ")]).
    + reflexivity.
    + repeat constructor.
    + vm_compute. reflexivity.
    + repeat constructor.
Defined.

(** ** The breadcrumb text and the SEO title *)

Section Breadcrumb.
Context `{UD : UnicodeData}.

(** X5. [extract_breadcrumb_text] and [extract_seo_title] decide on the same
    forecast: either both raise the same exception, or both return the bare
    name (file name with underscores as spaces), or the SEO title is the name
    followed by [ Size (<forecast>) 2030] with a non-empty forecast and the
    breadcrumb is the name followed by [ Report 2030]. *)
Theorem breadcrumb_text_follows_seo_title (docx_path : str) (doc : Document) :
  match extract_seo_title docx_path doc, extract_breadcrumb_text docx_path doc with
  | Ok seo, Ok crumb =>
      (seo = seo_name docx_path /\ crumb = seo_name docx_path)
      \/ (exists forecast,
             forecast <> []
             /\ seo = seo_name docx_path ++ u " Size (" ++ forecast ++ u ") 2030"
             /\ crumb = seo_name docx_path ++ u " Report 2030")
  | Raise e, Raise e' => e = e'
  | _, _ => False
  end.
Proof.
  unfold extract_seo_title, extract_breadcrumb_text, seo_name. cbv zeta.
  destruct (forecast_of_tables (doc_tables doc)) as [forecast|e]; cbn [mbind result_bind];
    [|reflexivity].
  destruct forecast as [|c forecast]; [left; split; reflexivity|].
  right. exists (c :: forecast). repeat split. discriminate.
Qed.
End Breadcrumb.

(** ** Substitution keeps the characters of the subject *)

Lemma Forall_slice {A} (P : A -> Prop) (s : list A) (a b : Z) :
  Forall P s -> Forall P (slice s a b).
Proof. intros H. unfold slice. cbv zeta. now apply Forall_take, Forall_drop. Qed.

Lemma file_stem_Forall (P : N -> Prop) (path : str) :
  Forall P path -> Forall P (file_stem path).
Proof.
  intros H. unfold file_stem, splitext_root, basename, slice_from, slice_to.
  set (name := slice path _ _). assert (Hname : Forall P name) by now apply Forall_slice.
  clearbody name. cbv zeta.
  destruct (_ <? 0); [exact Hname|]. destruct (all_dots_before _ _); [exact Hname|].
  now apply Forall_slice.
Qed.

Lemma startswith_nil (s : str) : startswith s [] = true.
Proof. destruct s; reflexivity. Qed.

Lemma replace_char (s new : str) (c : N) :
  replace s [c] new = flat_map (fun x => if (c =? x)%N then new else [x]) s.
Proof.
  unfold replace. induction s as [|x s IH]; [reflexivity|].
  cbn [replace_aux startswith flat_map length Nat.sub].
  rewrite startswith_nil, andb_true_r.
  destruct (c =? x)%N; cbn [app]; now rewrite IH.
Qed.

Lemma replace_char_Forall (P : N -> Prop) (s new : str) (c : N) :
  Forall P new -> Forall (fun x => x <> c -> P x) s -> Forall P (replace s [c] new).
Proof.
  intros Hnew Hs. rewrite replace_char. apply Forall_flat_map.
  eapply Forall_impl; [exact Hs|]. cbn. intros x Hx.
  destruct (N.eqb_spec c x); [exact Hnew|]. constructor; [|constructor].
  apply Hx. congruence.
Qed.

Section SubKeeps.
Context `{UD : UnicodeData}.

Lemma between_Forall (P : N -> Prop) (s : str) (f : mres -> list str) (ms : list mres) :
  Forall P s -> (forall m, Forall (Forall P) (f m)) ->
  forall i, Forall (Forall P) (between s i ms f).
Proof.
  intros Hs Hf. induction ms as [|m ms IH]; intros i; cbn [between].
  - constructor; [now apply Forall_drop | constructor].
  - constructor; [unfold substr; now apply Forall_take, Forall_drop|].
    apply Forall_app. split; [apply Hf | apply IH].
Qed.

(** Every character of [re.sub(p, repl, s)] comes from [s] or from a
    replacement. *)
Lemma re_sub_Forall (P : N -> Prop) (p : pattern) (repl : mres -> str) (s : str) :
  Forall P s -> (forall m, Forall P (repl m)) -> Forall P (re_sub p repl s).
Proof.
  intros Hs Hrepl. unfold re_sub. apply Forall_concat, between_Forall; [exact Hs|].
  intros m. constructor; [apply Hrepl | constructor].
Qed.
End SubKeeps.

(** ** Single spacing, in general *)

Lemma ascii_lower_space (c : N) : (ascii_lower c =? 32)%N = (c =? 32)%N.
Proof.
  unfold ascii_lower. destruct (ascii_isupper c) eqn:Eu; [|reflexivity].
  unfold ascii_isupper in Eu. apply andb_true_iff in Eu as [H1 H2].
  apply N.leb_le in H1, H2.
  transitivity false; [apply N.eqb_neq; lia | symmetry; apply N.eqb_neq; lia].
Qed.

Lemma single_spaced_lower (s : str) : forall b,
  single_spaced_from b (map ascii_lower s) = single_spaced_from b s.
Proof.
  induction s as [|c s IH]; intros b; [reflexivity|].
  cbn [map single_spaced_from]. now rewrite ascii_lower_space, !IH.
Qed.

Lemma strip_single_spaced (t : str) :
  Forall (fun c => is_space c = true -> c = 32%N) t ->
  single_spaced_from false t = true ->
  single_spaced_from true (strip t) = true /\ last (strip t) <> Some 32%N.
Proof.
  intros Hsp Hts.
  pose proof (single_spaced_lstrip t false Hsp Hts) as Hl. unfold strip.
  destruct (rstrip_spec (lstrip t)) as (suf & Hr & Hlast). split.
  - rewrite Hr in Hl. now apply single_spaced_app_l in Hl.
  - intros Hc. rewrite Hc in Hlast. discriminate.
Qed.

Lemma last_map_lower (s : str) :
  last s <> Some 32%N -> last (map ascii_lower s) <> Some 32%N.
Proof.
  change (map ascii_lower s) with (ascii_lower <$> s). rewrite fmap_last.
  destruct (last s) as [c|]; [|discriminate]. cbn. intros Hc [= Hl]. apply Hc. f_equal.
  apply N.eqb_eq. rewrite <- ascii_lower_space. now apply N.eqb_eq.
Qed.

Lemma url_char_lower (c : N) :
  is_ascii c = true -> c <> 38%N -> c <> 45%N -> (is_space c = true -> c = 32%N) ->
  url_char (ascii_lower c) = true.
Proof.
  intros Ha H38 H45 Hsp. unfold url_char, ascii_lower.
  destruct (ascii_isupper c) eqn:Eu.
  - unfold ascii_isupper in Eu. apply andb_true_iff in Eu as [H1 H2].
    apply N.leb_le in H1, H2.
    assert (Hs : is_space (c + 32) = false).
    { unfold is_space.
      repeat match goal with
             | |- context [(?a <=? ?b)%N] => destruct (N.leb_spec a b); try lia
             | |- context [(?a =? ?b)%N] => destruct (N.eqb_spec a b); try lia
             end; reflexivity. }
    rewrite Hs. unfold is_ascii, ascii_isupper.
    replace (c + 32 <? 128)%N with true by (symmetry; apply N.ltb_lt; lia).
    replace (c + 32 <=? 90)%N with false by (symmetry; apply N.leb_gt; lia).
    replace (c + 32 =? 38)%N with false by (symmetry; apply N.eqb_neq; lia).
    replace (c + 32 =? 45)%N with false by (symmetry; apply N.eqb_neq; lia).
    now rewrite andb_false_r.
  - rewrite Ha, Eu.
    replace (c =? 38)%N with false by (symmetry; now apply N.eqb_neq).
    replace (c =? 45)%N with false by (symmetry; now apply N.eqb_neq).
    cbn [negb andb]. destruct (is_space c); [|reflexivity].
    rewrite (Hsp eq_refl). reflexivity.
Qed.

(** ** The SKU URL *)

Section SkuUrl.
Context `{UD : UnicodeData}.

(** X6. For an ASCII path, the SKU URL returned by [extract_sku_url] is ASCII
    without capitals, ampersands or hyphens; its only whitespace is the
    single space, never at either end and never doubled. *)
Theorem extract_sku_url_shape (docx_path : str) :
  Forall (fun c => is_ascii c = true) docx_path ->
  let url := extract_sku_url docx_path in
  Forall (fun c => url_char c = true) url
  /\ head url <> Some 32%N
  /\ last url <> Some 32%N
  /\ (forall i, url !! i = Some 32%N -> url !! S i <> Some 32%N).
Proof.
  intros Hascii. unfold extract_sku_url. cbv zeta.
  change (u " ") with [32%N]. change (u "&") with [38%N]. change (u "-") with [45%N].
  set (P := fun c : N => is_ascii c = true /\ c <> 38%N /\ c <> 45%N).
  assert (H0 : Forall (fun c => is_ascii c = true) (file_stem docx_path))
    by now apply file_stem_Forall.
  set (s0 := file_stem docx_path) in *. clearbody s0.
  assert (H1 : Forall (fun c => is_ascii c = true /\ c <> 38%N) (replace s0 [38%N] [32%N])).
  { apply (replace_char_Forall _ s0 [32%N] 38%N);
      [constructor; [split; [reflexivity | lia] | constructor]|].
    eapply Forall_impl; [exact H0|]. cbn. auto. }
  set (s1 := replace s0 [38%N] [32%N]) in *. clearbody s1.
  assert (H2 : Forall P (replace s1 [45%N] [32%N])).
  { apply (replace_char_Forall _ s1 [32%N] 45%N);
      [constructor; [repeat split; (reflexivity || lia) | constructor]|].
    eapply Forall_impl; [exact H1|]. cbn. intros c [? ?] ?. repeat split; assumption. }
  set (s2 := replace s1 [45%N] [32%N]) in *. clearbody s2.
  assert (HP32 : Forall P [32%N])
    by (constructor; [repeat split; (reflexivity || lia) | constructor]).
  assert (H3 : Forall P (re_sub (re_compile re_I (u "\band\b")) (fun _ => [32%N]) s2))
    by (apply re_sub_Forall; auto).
  set (s3 := re_sub (re_compile re_I (u "\band\b")) _ s2) in *. clearbody s3.
  assert (H4 : Forall P (re_sub (re_compile no_flags (u "\([^)]*\)")) (fun _ => [32%N]) s3))
    by (apply re_sub_Forall; auto).
  set (s4 := re_sub (re_compile no_flags (u "\([^)]*\)")) _ s3) in *. clearbody s4.
  rewrite (re_sub_class_plus _ false [CSpace true]) by (vm_compute; reflexivity).
  rewrite (squeeze_ext _ is_space)
    by (intros c; unfold set_mem;
        cbn [IGNORECASE p_flags re_compile no_flags existsb citem_mem];
        destruct (is_space c); reflexivity).
  set (t := squeeze is_space [32%N] false s4).
  assert (HtP : Forall P t) by (apply squeeze_chars; [repeat split; (reflexivity || lia) | exact H4]).
  assert (Hts : Forall (fun c => is_space c = true -> c = 32%N) t) by apply squeeze_no_space.
  assert (Htss : single_spaced_from false t = true) by apply squeeze_single_spaced.
  clearbody t.
  destruct (strip_single_spaced t Hts Htss) as [Hss Hlast].
  assert (HsP : Forall P (strip t)) by now apply strip_Forall.
  assert (Hssp : Forall (fun c => is_space c = true -> c = 32%N) (strip t))
    by now apply strip_Forall.
  set (w := strip t) in *. clearbody w.
  unfold lower.
  assert (Hw : forallb is_ascii w = true).
  { apply forallb_forall. intros c Hc. rewrite Forall_forall in HsP.
    apply (HsP c). now apply list_elem_of_In. }
  rewrite Hw.
  assert (Hlow : single_spaced_from true (map ascii_lower w) = true)
    by now rewrite single_spaced_lower.
  split; [|split; [|split]].
  - apply Forall_forall. intros c Hc.
    apply list_elem_of_In, in_map_iff in Hc as (d & <- & Hd).
    apply list_elem_of_In in Hd. rewrite Forall_forall in HsP, Hssp.
    destruct (HsP d Hd) as (Ha & H38 & H45). apply url_char_lower; auto.
  - now apply single_spaced_head.
  - now apply last_map_lower.
  - intros i. now apply (single_spaced_no_double _ true).
Qed.
End SkuUrl.

Lemma extract_sku_url_shape_witness :
  let url := extract_sku_url (UD := plain_unicode)
               (u "reports/Oil & Gas - Pumps and Valves (2024) Market.docx") in
  url = u "oil gas pumps valves market"
  /\ Forall (fun c => url_char c = true) url
  /\ head url <> Some 32%N
  /\ last url <> Some 32%N
  /\ (forall i, url !! i = Some 32%N -> url !! S i <> Some 32%N).
Proof.
  cbv zeta. split; [vm_compute; reflexivity|].
  apply (extract_sku_url_shape (UD := plain_unicode)).
  apply Forall_forall. intros c Hc. apply list_elem_of_In in Hc.
  assert (Hall : forallb is_ascii
                   (u "reports/Oil & Gas - Pumps and Valves (2024) Market.docx") = true)
    by (vm_compute; reflexivity).
  rewrite forallb_forall in Hall. now apply Hall.
Defined.

(** ** The slug of the breadcrumb URL *)

Lemma startswith_spec (s p : str) : startswith s p = true <-> exists t, s = p ++ t.
Proof.
  revert s. induction p as [|a p IH]; intros s.
  - rewrite startswith_nil. split; [exists s; reflexivity | reflexivity].
  - destruct s as [|b s]; cbn [startswith].
    + split; [discriminate | intros (t & Ht); discriminate].
    + rewrite andb_true_iff, N.eqb_eq, IH. split.
      * intros (-> & t & ->). exists t. reflexivity.
      * intros (t & [= -> ->]). split; [reflexivity | exists t; reflexivity].
Qed.

Lemma endswith_spec (s p : str) : endswith s p = true <-> exists t, s = t ++ p.
Proof.
  unfold endswith. rewrite startswith_spec. split.
  - intros (t & Ht). exists (rev t). apply (f_equal (@rev N)) in Ht.
    rewrite rev_involutive, rev_app_distr, rev_involutive in Ht. exact Ht.
  - intros (t & ->). exists (rev t). apply rev_app_distr.
Qed.

Lemma replace_space_hyphen (s : str) : replace s [32%N] [45%N] = map hyphenate s.
Proof.
  rewrite replace_char. induction s as [|c s IH]; [reflexivity|].
  cbn [flat_map map]. rewrite IH. unfold hyphenate. rewrite (N.eqb_sym c 32).
  destruct (32 =? c)%N; reflexivity.
Qed.

Lemma single_spaced_weaken (s : str) :
  single_spaced_from true s = true -> single_spaced_from false s = true.
Proof.
  destruct s as [|c s]; [reflexivity|]. cbn [single_spaced_from].
  destruct (c =? 32)%N; [discriminate | auto].
Qed.

Lemma single_spaced_app (x y : str) : forall b,
  single_spaced_from b x = true -> last x <> Some 32%N ->
  single_spaced_from false y = true ->
  x <> [] -> single_spaced_from b (x ++ y) = true.
Proof.
  induction x as [|c x IH]; intros b Hx Hlast Hy Hne; [congruence|].
  cbn [app single_spaced_from] in *.
  destruct x as [|d x].
  - destruct (N.eqb_spec c 32) as [->|Hc]; [now destruct Hlast|]. exact Hy.
  - assert (Hlast' : last (d :: x) <> Some 32%N) by exact Hlast.
    destruct (c =? 32)%N.
    + apply andb_true_iff in Hx as [Hb Hx]. rewrite Hb. cbn [andb].
      apply IH; [exact Hx | exact Hlast' | exact Hy | discriminate].
    + apply IH; [exact Hx | exact Hlast' | exact Hy | discriminate].
Qed.

Lemma sku_char_hyphenate (c : N) : sku_char c = true -> slug_char (hyphenate c) = true.
Proof.
  unfold sku_char, slug_char, hyphenate. intros H.
  destruct (N.eqb_spec c 32) as [Heq|Hc]; [reflexivity|].
  apply orb_true_iff in H as [H|H]; [rewrite H; reflexivity | discriminate H].
Qed.

Lemma sku_char_not_hyphen (c : N) : sku_char c = true -> c <> 45%N.
Proof. intros H ->. discriminate H. Qed.

Lemma sku_char_lower_id (s : str) :
  Forall (fun c => sku_char c = true) s -> map ascii_lower s = s.
Proof.
  induction 1 as [|c s Hc _ IH]; [reflexivity|]. cbn [map]. rewrite IH. f_equal.
  unfold ascii_lower. destruct (ascii_isupper c) eqn:Eu; [|reflexivity].
  unfold sku_char, ascii_islower, ascii_isdigit in Hc. unfold ascii_isupper in Eu.
  apply andb_true_iff in Eu as [H1 H2]. apply N.leb_le in H1, H2.
  repeat match type of Hc with
         | context [(?a <=? ?b)%N] => destruct (N.leb_spec a b); try lia
         | context [(?a =? ?b)%N] => destruct (N.eqb_spec a b); try lia
         end; discriminate Hc.
Qed.

Lemma sku_char_ascii (s : str) :
  Forall (fun c => sku_char c = true) s -> forallb is_ascii s = true.
Proof.
  intros H. apply forallb_forall. intros c Hc. rewrite Forall_forall in H.
  apply list_elem_of_In, H in Hc. unfold sku_char, ascii_islower, ascii_isdigit in Hc.
  unfold is_ascii. apply N.ltb_lt.
  repeat match type of Hc with
         | context [(?a <=? ?b)%N] => destruct (N.leb_spec a b); try lia
         | context [(?a =? ?b)%N] => destruct (N.eqb_spec a b); try lia
         end; discriminate Hc.
Qed.

Lemma hyphenate_lookup (s : list N) (i : nat) (c : N) :
  Forall (fun c => sku_char c = true) s ->
  map hyphenate s !! i = Some c -> (c = 45%N <-> s !! i = Some 32%N).
Proof.
  intros Hs. change (map hyphenate s) with (hyphenate <$> s). rewrite list_lookup_fmap.
  destruct (s !! i) as [d|] eqn:Ei; [|discriminate]. cbn. intros [= <-].
  assert (Hd : sku_char d = true).
  { rewrite Forall_forall in Hs. apply Hs. eapply list_elem_of_lookup_2; eauto. }
  unfold hyphenate. destruct (N.eqb_spec d 32) as [->|Hne]; [split; reflexivity|].
  split; [intros ->; discriminate Hd | congruence].
Qed.

Lemma no_double_hyphen (s : list N) (b : bool) (i : nat) :
  Forall (fun c => sku_char c = true) s -> single_spaced_from b s = true ->
  map hyphenate s !! i = Some 45%N -> map hyphenate s !! S i <> Some 45%N.
Proof.
  intros Hs Hss Hi Hsi.
  apply (hyphenate_lookup s i 45 Hs) in Hi. apply (hyphenate_lookup s (S i) 45 Hs) in Hsi.
  apply (single_spaced_no_double s b i Hss); [now apply Hi | now apply Hsi].
Qed.

Section Slug.
Context `{UD : UnicodeData}.

(** The shape of the SKU code, in the form used for the slug. *)
Lemma sku_code_spaced (docx_path : str) :
  Forall (fun c => sku_char c = true) (extract_sku_code docx_path)
  /\ single_spaced_from true (extract_sku_code docx_path) = true
  /\ last (extract_sku_code docx_path) <> Some 32%N.
Proof.
  unfold extract_sku_code. cbv zeta.
  match goal with
  | |- context [re_sub (re_compile no_flags (u "[^a-zA-Z0-9\s]")) _ ?s5] =>
      pose proof (sku_tail_shape s5) as H
  end.
  cbv zeta in H. destruct H as (Ha & Hs & Hl).
  destruct (lower_shape _ Ha Hs Hl) as (Hc & _ & Hlast & _).
  split; [exact Hc|]. split; [|exact Hlast].
  unfold lower.
  match goal with |- context [forallb is_ascii ?t] => set (w := t) in * end.
  clearbody w.
  assert (Hw : forallb is_ascii w = true).
  { apply forallb_forall. intros c Hin. apply alnum_or_space_ascii.
    rewrite Forall_forall in Ha. apply Ha. now apply list_elem_of_In. }
  rewrite Hw. now rewrite single_spaced_lower.
Qed.

(** X7. The slug that [extract_breadcrumb_schema] writes into the item URL
    consists of lowercase letters, digits and hyphens, ends with [market] and
    never has two hyphens in a row; it starts with a hyphen exactly when the
    SKU code of the file is empty (the slug is then [-market]). *)
Theorem breadcrumb_slug_shape (docx_path : str) :
  let slug := breadcrumb_slug docx_path in
  Forall (fun c => slug_char c = true) slug
  /\ endswith slug (u "market") = true
  /\ (forall i, slug !! i = Some 45%N -> slug !! S i <> Some 45%N)
  /\ (head slug = Some 45%N <-> extract_sku_code docx_path = []).
Proof.
  unfold breadcrumb_slug. cbv zeta.
  destruct (sku_code_spaced docx_path) as (Hc & Hs & Hl).
  set (sku := extract_sku_code docx_path) in *. clearbody sku.
  change (u " ") with [32%N]. change (u "-") with [45%N].
  rewrite replace_space_hyphen.
  assert (Hlow : lower sku = sku)
    by (unfold lower; rewrite (sku_char_ascii sku Hc); now apply sku_char_lower_id).
  rewrite Hlow.
  set (sku' := if negb (endswith sku (u "market")) then sku ++ u " market" else sku).
  assert (Hc' : Forall (fun c => sku_char c = true) sku').
  { unfold sku'. destruct (negb _); [|exact Hc].
    apply Forall_app. split; [exact Hc|]. apply Forall_forall. intros c Hin.
    apply list_elem_of_In in Hin. revert c Hin. apply forallb_forall. reflexivity. }
  assert (Hs' : single_spaced_from false sku' = true).
  { unfold sku'. destruct (negb _); [|now apply single_spaced_weaken].
    destruct sku as [|c sku]; [reflexivity|].
    apply single_spaced_app; [now apply single_spaced_weaken | exact Hl | reflexivity
                             | discriminate]. }
  assert (Hend : endswith sku' (u "market") = true).
  { unfold sku'. destruct (endswith sku (u "market")) eqn:E; cbn [negb]; [exact E|].
    apply endswith_spec. exists (sku ++ [32%N]). now rewrite <- app_assoc. }
  assert (Hhead : head sku' = Some 32%N <-> sku = []).
  { unfold sku'. split.
    - intros Hh. destruct sku as [|c sku]; [reflexivity|]. exfalso.
      apply single_spaced_head in Hs. apply Hs.
      destruct (negb _); exact Hh.
    - intros ->. reflexivity. }
  clearbody sku'. split; [|split; [|split]].
  - apply Forall_forall. intros c Hin.
    apply list_elem_of_In, in_map_iff in Hin as (d & <- & Hd).
    apply sku_char_hyphenate. rewrite Forall_forall in Hc'. apply Hc'.
    now apply list_elem_of_In.
  - apply endswith_spec in Hend as (t & ->). apply endswith_spec.
    exists (map hyphenate t). now rewrite map_app.
  - intros i. now apply (no_double_hyphen sku' false).
  - rewrite <- Hhead. destruct sku' as [|c rest]; cbn [map head]; [split; discriminate|].
    assert (Hcc : sku_char c = true) by (now inversion Hc').
    unfold hyphenate. destruct (N.eqb_spec c 32) as [->|Hne]; [split; reflexivity|].
    split; intros [= ->]; [now apply sku_char_not_hyphen in Hcc | congruence].
Qed.
End Slug.

(** The slug of two file names, and the schema of a document. *)
Lemma breadcrumb_slug_examples :
  breadcrumb_slug (UD := plain_unicode) (u "Oil & Gas Pumps Market.docx")
  = u "oil-gas-pumps-market"
  /\ breadcrumb_slug (UD := plain_unicode) (u "Canned Meat.docx") = u "canned-meat-market"
  /\ breadcrumb_slug (UD := plain_unicode) (u "Global.docx") = u "-market".
Proof. repeat split; vm_compute; reflexivity. Qed.

(** ** The table of contents: start of the capture *)

Section TocCapture.
Context `{UD : UnicodeData}.

Lemma toc_loop_not_capturing (logic_type : Z) (rels : gmap str str) (paras : list Paragraph)
    (st : toc_state) :
  capture st = false ->
  Forall (fun para => is_summary para = false) paras ->
  toc_loop logic_type rels st paras = Ok st.
Proof.
  intros Hcap Hparas. induction Hparas as [|para paras Hpara _ IH]; [reflexivity|].
  cbn [toc_loop]. unfold toc_step. cbv zeta. unfold is_summary in Hpara.
  rewrite Hpara, Hcap, andb_false_r.
  destruct (negb (nonempty _)); cbn [mbind result_bind]; exact IH.
Qed.

(** X8. Without a paragraph containing [Executive Summary] nothing is
    captured: [extract_toc] returns the empty string. *)
Theorem extract_toc_without_summary (doc : Document) :
  Forall (fun para => is_summary para = false) (doc_paragraphs doc) ->
  extract_toc doc = Ok [].
Proof.
  intros Hnone. unfold extract_toc. cbv zeta.
  rewrite toc_loop_not_capturing by (reflexivity || exact Hnone). reflexivity.
Qed.
End TocCapture.

Lemma extract_toc_without_summary_witness :
  extract_toc (UD := plain_unicode)
    (paragraphs_doc ["Table of Contents"; "1. Introduction"; "2. Market Overview"]%string)
  = Ok [].
Proof.
  apply (extract_toc_without_summary (UD := plain_unicode)). repeat constructor.
Defined.

(** ** The table of contents: running text right after the summary *)

Section TocUnbound.
Context `{UD : UnicodeData}.

Lemma is_summary_nonempty (para : Paragraph) :
  is_summary para = true -> nonempty (strip (p_text para)) = true.
Proof.
  unfold is_summary. destruct (strip (p_text para)); [vm_compute; discriminate | reflexivity].
Qed.

Lemma is_running_text_spec (para : Paragraph) :
  is_running_text para = true ->
  nonempty (strip (p_text para)) = true
  /\ has_bold_run para = false /\ has_bold_markup (strip (p_text para)) = false
  /\ is_list_item para = false
  /\ contains_any (strip (p_text para)) list_chars_logic = false
  /\ contains_any (strip (p_text para)) bullet_chars = false
  /\ matches numbering_re (strip (p_text para)) = false.
Proof.
  unfold is_running_text. cbv zeta. intros H.
  repeat (apply andb_true_iff in H as [H ?]).
  repeat match goal with Hn : negb _ = true |- _ => apply negb_true_iff in Hn end.
  repeat split; assumption.
Qed.

(** Once a paragraph after the summary has been counted, the flags of the
    first line after it are settled. *)
Lemma logic_scan_settled (paras : list Paragraph) : forall st,
  found_executive_summary st = true -> 1 <= para_count st ->
  let st' := fold_left logic_scan_step paras st in
  first_line_after_bold st' = first_line_after_bold st /\ 1 <= para_count st'.
Proof.
  induction paras as [|para paras IH]; intros st Hfound Hcount; [split; [reflexivity | exact Hcount]|].
  cbn [fold_left]. cbv zeta.
  assert (Hstep : found_executive_summary (logic_scan_step st para) = true
                  /\ 1 <= para_count (logic_scan_step st para)
                  /\ first_line_after_bold (logic_scan_step st para)
                     = first_line_after_bold st).
  { unfold logic_scan_step. cbv zeta.
    destruct (negb (nonempty _)); [auto|].
    destruct (contains _ _); [cbn; auto|].
    rewrite Hfound. cbn [negb]. cbn [found_executive_summary para_count first_line_after_bold].
    destruct (Z.eqb_spec (para_count st + 1) 1); [lia|]. repeat split; try reflexivity; lia. }
  destruct Hstep as (Hf & Hc & Hb).
  destruct (IH _ Hf Hc) as (Hb' & Hc'). cbv zeta in Hb', Hc'.
  split; [now rewrite Hb' | exact Hc'].
Qed.

Lemma logic_scan_two (st : logic_scan) (summary para : Paragraph) :
  is_summary summary = true -> is_summary para = false ->
  nonempty (strip (p_text para)) = true ->
  has_bold_run para = false -> has_bold_markup (strip (p_text para)) = false ->
  para_count st = 0 ->
  let st2 := logic_scan_step (logic_scan_step st summary) para in
  found_executive_summary st2 = true /\ para_count st2 = 1
  /\ first_line_after_bold st2 = false.
Proof.
  intros Hsum Hnot Hne Hbold Hmark Hzero. cbv zeta.
  pose proof (is_summary_nonempty summary Hsum) as Hsne.
  unfold is_summary in Hsum, Hnot. unfold logic_scan_step. cbv zeta.
  rewrite Hne, Hnot, Hsne, Hsum, Hbold, Hmark. cbn [negb orb].
  cbn [found_executive_summary para_count first_line_after_bold].
  rewrite Hzero. repeat split.
Qed.

Lemma logic_scan_before (pre : list Paragraph) (st : logic_scan) :
  found_executive_summary st = false ->
  Forall (fun para => is_summary para = false) pre ->
  fold_left logic_scan_step pre st = st.
Proof.
  intros Hfound Hpre. induction Hpre as [|para pre Hpara _ IH]; [reflexivity|].
  cbn [fold_left]. replace (logic_scan_step st para) with st; [exact IH|].
  unfold logic_scan_step. cbv zeta. unfold is_summary in Hpara. rewrite Hpara, Hfound.
  now destruct (negb (nonempty _)).
Qed.

Lemma toc_loop_before (logic_type : Z) (rels : gmap str str) (pre rest : list Paragraph)
    (st : toc_state) :
  capture st = false ->
  Forall (fun para => is_summary para = false) pre ->
  toc_loop logic_type rels st (pre ++ rest) = toc_loop logic_type rels st rest.
Proof.
  intros Hcap Hpre. induction Hpre as [|para pre Hpara _ IH]; [reflexivity|].
  cbn [app toc_loop]. unfold toc_step. cbv zeta. unfold is_summary in Hpara.
  rewrite Hpara, Hcap, andb_false_r.
  destruct (negb (nonempty _)); cbn [mbind result_bind]; exact IH.
Qed.

Lemma determine_toc_logic_running (doc : Document) (pre : list Paragraph)
    (summary para : Paragraph) (rest : list Paragraph) :
  doc_paragraphs doc = pre ++ summary :: para :: rest ->
  Forall (fun p => is_summary p = false) pre ->
  is_summary summary = true -> is_summary para = false -> is_running_text para = true ->
  determine_toc_logic doc = 1 \/ determine_toc_logic doc = 2.
Proof.
  intros Hdoc Hpre Hsum Hnot Hrun. unfold determine_toc_logic. cbv zeta. rewrite Hdoc.
  rewrite fold_left_app, (logic_scan_before pre) by (reflexivity || exact Hpre).
  cbn [fold_left].
  apply is_running_text_spec in Hrun as (Hne & Hbold & Hmark & _).
  match goal with
  | |- context [fold_left logic_scan_step rest ?st2] =>
      assert (H2 : found_executive_summary st2 = true /\ para_count st2 = 1
                   /\ first_line_after_bold st2 = false);
      [|destruct H2 as (Hf & Hc & Hb);
        destruct (logic_scan_settled rest st2 Hf ltac:(lia)) as (Hb' & Hc');
        cbv zeta in Hb', Hc'; rewrite Hb in Hb';
        set (final := fold_left logic_scan_step rest st2) in *; clearbody final]
  end.
  { now apply logic_scan_two. }
  destruct (Z.leb_spec 1 (para_count final)); [|lia].
  rewrite Hb'. cbn [negb]. rewrite !andb_false_r, !andb_true_r.
  destruct (_ && _ && _); [now right|]. destruct (_ && _); now left.
Qed.

Lemma exec_summary_unbound (st : toc_state) (text : str) (is_bold : bool) :
  formatted_content (exec_summary st text is_bold) = formatted_content st
  /\ capture (exec_summary st text is_bold) = capture st.
Proof.
  unfold exec_summary. cbv zeta.
  destruct is_bold; [|auto]. destruct (contains _ _).
  - destruct (bullet_parts text); auto.
  - destruct (nonempty _); auto.
Qed.

Lemma nonbold_paragraph_unbound (extra_parent new_main : str -> bool) (rels : gmap str str)
    (st : toc_state) (para : Paragraph) :
  is_running_text para = true -> formatted_content st = None ->
  nonbold_paragraph extra_parent new_main rels st para (strip (p_text para))
  = Raise UnboundLocalError.
Proof.
  intros Hrun Hnone. apply is_running_text_spec in Hrun as (_ & _ & _ & Hl & _ & Hb & Hn).
  unfold nonbold_paragraph. cbv zeta. rewrite Hl, Hb, Hn. cbn [orb]. now rewrite Hnone.
Qed.

(** X9. When the paragraph right after the first summary line is running text (not
    blank, not bold, not a list item), [extract_toc] raises UnboundLocalError:
    logic 1 or 2 is selected, and their branch for such a paragraph reads
    [formatted_content] before anything was assigned to it. *)
Theorem extract_toc_unbound_local (doc : Document) (pre : list Paragraph)
    (summary para : Paragraph) (rest : list Paragraph) :
  doc_paragraphs doc = pre ++ summary :: para :: rest ->
  Forall (fun p => is_summary p = false) pre ->
  is_summary summary = true -> is_summary para = false -> is_running_text para = true ->
  extract_toc doc = Raise UnboundLocalError.
Proof.
  intros Hdoc Hpre Hsum Hnot Hrun. unfold extract_toc. cbv zeta.
  pose proof (determine_toc_logic_running doc pre summary para rest Hdoc Hpre Hsum Hnot Hrun)
    as Hlogic.
  set (logic_type := determine_toc_logic doc) in *. clearbody logic_type.
  rewrite Hdoc, (toc_loop_before _ _ pre) by (reflexivity || exact Hpre). cbn [toc_loop].
  assert (Hfirst : exists st1, toc_step logic_type (doc_rels doc) toc_init summary = Ok st1
                               /\ formatted_content st1 = None /\ capture st1 = true).
  { unfold toc_step. cbv zeta. rewrite (is_summary_nonempty summary Hsum).
    unfold is_summary in Hsum. rewrite Hsum. cbn [negb andb toc_init capture].
    eexists. split; [reflexivity|]. apply exec_summary_unbound. }
  destruct Hfirst as (st1 & -> & Hnone & Hcap). cbn [mbind result_bind].
  assert (Hsecond : toc_step logic_type (doc_rels doc) st1 para = Raise UnboundLocalError).
  { pose proof (is_running_text_spec para Hrun) as (Hne & Hbold & Hmark & _).
    unfold toc_step. cbv zeta. rewrite Hne, Hcap. cbn [negb andb].
    assert (His : is_bold_text para = false).
    { unfold is_bold_text. rewrite Hbold, Hmark. now destruct (p_runs para). }
    rewrite His.
    destruct Hlogic as [-> | ->]; cbn [Z.eqb Pos.eqb].
    - unfold logic1. now apply nonbold_paragraph_unbound.
    - unfold logic2. now apply nonbold_paragraph_unbound. }
  rewrite Hsecond. reflexivity.
Qed.
End TocUnbound.

Lemma extract_toc_unbound_local_witness :
  extract_toc (UD := plain_unicode)
    (text_doc [plain_paragraph (u "Table of Contents");
               bold_paragraph "Executive Summary";
               plain_paragraph (u "The market is expected to grow steadily.");
               bold_paragraph "Market Overview"])
  = Raise UnboundLocalError.
Proof.
  apply (extract_toc_unbound_local (UD := plain_unicode) _
           [plain_paragraph (u "Table of Contents")]
           (bold_paragraph "Executive Summary")
           (plain_paragraph (u "The market is expected to grow steadily."))
           [bold_paragraph "Market Overview"]);
    [reflexivity | repeat constructor | vm_compute; reflexivity ..].
Defined.

(** ** The table of contents: balance of the lists under logic 1 and 2 *)

Lemma count_line_app (x : str) (a b : list str) :
  count_line x (a ++ b) = count_line x a + count_line x b.
Proof. unfold count_line, len. rewrite List.filter_app, length_app. lia. Qed.

Lemma open_minus_closed_app (a b : list str) :
  open_minus_closed (a ++ b) = open_minus_closed a + open_minus_closed b.
Proof. unfold open_minus_closed. rewrite !count_line_app. lia. Qed.

Lemma count_line_cons_ne (x y : str) (lines : list str) :
  x <> y -> count_line x (y :: lines) = count_line x lines.
Proof.
  intros Hne. unfold count_line. cbn [List.filter]. unfold str_eqb at 1.
  now rewrite bool_decide_eq_false_2.
Qed.

Lemma count_line_cons_eq (x : str) (lines : list str) :
  count_line x (x :: lines) = 1 + count_line x lines.
Proof.
  unfold count_line. cbn [List.filter]. unfold str_eqb at 1.
  rewrite bool_decide_eq_true_2 by reflexivity. unfold len. cbn [length]. lia.
Qed.

Lemma open_minus_closed_other (y : str) (lines : list str) :
  UL <> y -> UL_END <> y -> open_minus_closed (y :: lines) = open_minus_closed lines.
Proof. intros H1 H2. unfold open_minus_closed. now rewrite !count_line_cons_ne. Qed.

Lemma open_minus_closed_open (lines : list str) :
  open_minus_closed (UL :: lines) = 1 + open_minus_closed lines.
Proof.
  unfold open_minus_closed. rewrite count_line_cons_eq, count_line_cons_ne; [lia|].
  vm_compute. discriminate.
Qed.

Lemma open_minus_closed_close (lines : list str) :
  open_minus_closed (UL_END :: lines) = open_minus_closed lines - 1.
Proof.
  unfold open_minus_closed. rewrite count_line_cons_eq, count_line_cons_ne; [lia|].
  vm_compute. discriminate.
Qed.

Lemma open_minus_closed_replicate (n : nat) :
  open_minus_closed (replicate n UL_END) = - Z.of_nat n.
Proof.
  induction n as [|n IH]; [reflexivity|]. cbn [replicate].
  rewrite open_minus_closed_close, IH. lia.
Qed.

(** Lines that carry text are neither an opening nor a closing. *)
Lemma second_char_differs (a b : str) : a !! 1%nat <> b !! 1%nat -> a <> b.
Proof. intros H ->. now apply H. Qed.

Lemma li_other (c : str) : UL <> li c /\ UL_END <> li c.
Proof. split; apply second_char_differs; vm_compute; discriminate. Qed.

Lemma li_strong_other (c : str) : UL <> li_strong c /\ UL_END <> li_strong c.
Proof. split; apply second_char_differs; vm_compute; discriminate. Qed.

Lemma strong_heading_other (c : str) : UL <> strong_heading c /\ UL_END <> strong_heading c.
Proof. split; apply second_char_differs; vm_compute; discriminate. Qed.

Lemma p_other (c : str) : UL <> u "<p>" ++ c ++ u "</p>" /\ UL_END <> u "<p>" ++ c ++ u "</p>".
Proof. split; apply second_char_differs; vm_compute; discriminate. Qed.

Lemma li_end_other : UL <> u "</li>" /\ UL_END <> u "</li>".
Proof. split; vm_compute; discriminate. Qed.

Lemma open_minus_closed_items (bullets : list str) :
  open_minus_closed
    (flat_map (fun item => if nonempty (strip (remove_emojis item))
                           then [li (strip (remove_emojis item))] else []) bullets) = 0.
Proof.
  induction bullets as [|item bullets IH]; [reflexivity|]. cbn [flat_map].
  rewrite open_minus_closed_app, IH. destruct (nonempty _); [|reflexivity].
  rewrite open_minus_closed_other by apply li_other. reflexivity.
Qed.

Lemma open_minus_closed_bullet_block (bullets : list str) :
  open_minus_closed (bullet_block bullets) = 0.
Proof.
  unfold bullet_block. destruct bullets as [|b bullets]; [reflexivity|]. cbv zeta.
  rewrite !open_minus_closed_app, open_minus_closed_items.
  change (open_minus_closed [UL]) with 1. change (open_minus_closed [UL_END]) with (-1).
  reflexivity.
Qed.

Section TocBalance.
Context `{UD : UnicodeData}.

Lemma balanced_emit_zero (st : toc_state) (lines : list str) :
  open_minus_closed lines = 0 -> toc_balanced st -> toc_balanced (emit st lines).
Proof.
  intros Hz [Hd Hb]. split; [exact Hd|]. cbn [emit html_output inside_list list_depth].
  rewrite open_minus_closed_app, Hz, Hb. lia.
Qed.

Lemma balanced_emit_other (st : toc_state) (line : str) :
  UL <> line /\ UL_END <> line -> toc_balanced st -> toc_balanced (emit st [line]).
Proof.
  intros [H1 H2]. apply balanced_emit_zero. now rewrite open_minus_closed_other.
Qed.

Lemma balanced_close (st : toc_state) :
  toc_balanced st -> toc_balanced (close_lists st) /\ inside_list (close_lists st) = false.
Proof.
  intros Hst. unfold close_lists. destruct (inside_list st) eqn:Ei.
  - split; [|reflexivity]. split; [discriminate|]. destruct Hst as [_ Hb].
    rewrite Ei in Hb. cbn [set_list emit html_output inside_list list_depth].
    rewrite open_minus_closed_app, open_minus_closed_replicate, Hb. lia.
  - split; [exact Hst | exact Ei].
Qed.

Lemma balanced_open_parent (st : toc_state) (content : str) :
  toc_balanced st -> inside_list st = false -> toc_balanced (open_parent st content).
Proof.
  intros [Hd Hb] Hi. rewrite Hi in Hb. unfold open_parent. split; [now right|].
  cbn [set_list emit html_output inside_list list_depth].
  rewrite open_minus_closed_app, Hb, open_minus_closed_open,
    open_minus_closed_other, open_minus_closed_open by apply li_strong_other.
  reflexivity.
Qed.

Lemma balanced_ensure_list (st : toc_state) :
  toc_balanced st ->
  let st' := if negb (inside_list st) then set_list (emit st [UL]) true 1 else st in
  toc_balanced st' /\ inside_list st' = true.
Proof.
  intros Hst. cbv zeta. destruct (inside_list st) eqn:Ei; cbn [negb].
  - split; [exact Hst | exact Ei].
  - split; [|reflexivity]. split; [now left|]. destruct Hst as [_ Hb]. rewrite Ei in Hb.
    cbn [set_list emit html_output inside_list list_depth].
    rewrite open_minus_closed_app, Hb. reflexivity.
Qed.

Lemma balanced_nested (st : toc_state) :
  toc_balanced st -> inside_list st && (1 <? list_depth st)%nat = true ->
  inside_list st = true /\ list_depth st = 2%nat
  /\ open_minus_closed (html_output st) = 2.
Proof.
  intros [Hd Hb] H. apply andb_true_iff in H as [Hi Hlt]. apply Nat.ltb_lt in Hlt.
  rewrite Hi in Hb. destruct (Hd Hi) as [H1|H2]; [lia|]. rewrite H2 in Hb. auto.
Qed.

Lemma balanced_close_two (st : toc_state) :
  toc_balanced st -> inside_list st && (1 <? list_depth st)%nat = true ->
  toc_balanced (set_list (emit st [UL_END; u "</li>"; UL_END]) false 0).
Proof.
  intros Hst H. destruct (balanced_nested st Hst H) as (_ & _ & Hb).
  split; [discriminate|]. cbn [set_list emit html_output inside_list list_depth].
  rewrite open_minus_closed_app, Hb, open_minus_closed_close,
    open_minus_closed_other, open_minus_closed_close by apply li_end_other.
  reflexivity.
Qed.

Lemma balanced_close_child (st : toc_state) :
  toc_balanced st -> inside_list st && (1 <? list_depth st)%nat = true ->
  toc_balanced (set_list (emit st [UL_END; u "</li>"]) (inside_list st) 1).
Proof.
  intros Hst H. destruct (balanced_nested st Hst H) as (Hi & _ & Hb).
  split; [now left|]. cbn [set_list emit html_output inside_list list_depth].
  rewrite Hi, open_minus_closed_app, Hb, open_minus_closed_close,
    open_minus_closed_other by apply li_end_other.
  reflexivity.
Qed.

Lemma balanced_exec_summary (st : toc_state) (text : str) (is_bold : bool) :
  toc_balanced st -> toc_balanced (exec_summary st text is_bold).
Proof.
  intros Hst. unfold exec_summary. cbv zeta. destruct is_bold; [|exact Hst].
  destruct (contains _ _).
  - destruct (bullet_parts text) as [|first bullets]; [exact Hst|].
    apply balanced_emit_zero; [apply open_minus_closed_bullet_block|].
    now apply balanced_emit_other; [apply strong_heading_other|].
  - destruct (nonempty _); [|exact Hst].
    now apply balanced_emit_other; [apply strong_heading_other|].
Qed.

Lemma balanced_bold_heading (st : toc_state) (text : str) (remove_b : bool) :
  toc_balanced st -> toc_balanced (bold_heading st text remove_b).
Proof.
  intros Hst. unfold bold_heading. cbv zeta.
  destruct (balanced_close st Hst) as [Hc _]. destruct (nonempty _); [|exact Hc].
  now apply balanced_emit_other; [apply strong_heading_other|].
Qed.

Lemma balanced_parent (st : toc_state) (content : str) :
  toc_balanced st -> toc_balanced (open_parent (close_lists st) content).
Proof.
  intros Hst. destruct (balanced_close st Hst) as [Hc Hi]. now apply balanced_open_parent.
Qed.

Lemma balanced_plain_list_item (st : toc_state) (content : str) :
  toc_balanced st -> toc_balanced (plain_list_item st content).
Proof.
  intros Hst. unfold plain_list_item. cbv zeta.
  set (st1 := if _ && _ && _ then _ else st).
  assert (H1 : toc_balanced st1).
  { unfold st1. destruct (is_main_level_item _ _); [|exact Hst]. cbn [andb].
    destruct (inside_list st && (1 <? list_depth st)%nat) eqn:E; [|exact Hst].
    exact (balanced_close_child st Hst E). }
  clearbody st1.
  apply balanced_emit_other; [apply li_other|].
  destruct (inside_list st1) eqn:Ei; cbn [negb]; [exact H1|].
  pose proof (balanced_ensure_list st1 H1) as [H2 _]. rewrite Ei in H2. exact H2.
Qed.

Lemma balanced_nonbold_paragraph (extra_parent new_main : str -> bool) (rels : gmap str str)
    (st st' : toc_state) (para : Paragraph) (text : str) :
  toc_balanced st ->
  nonbold_paragraph extra_parent new_main rels st para text = Ok st' ->
  toc_balanced st'.
Proof.
  intros Hst. unfold nonbold_paragraph. cbv zeta.
  destruct (_ || _ || _).
  - set (content := runs_to_html_with_links rels (p_runs para)). clearbody content.
    set (st0 := set_current_style (set_formatted st content) _).
    assert (H0 : toc_balanced st0) by exact Hst. clearbody st0.
    destruct (_ && not_in_figures st0).
    { intros [= <-]. exact (balanced_parent st0 content H0). }
    destruct (new_main content).
    + intros [= <-]. set (st1 := if inside_list st0 && _ then _ else st0).
      assert (H1 : toc_balanced st1).
      { unfold st1. destruct (inside_list st0 && (1 <? list_depth st0)%nat) eqn:E;
          [exact (balanced_close_two st0 H0 E) | exact H0]. }
      clearbody st1. apply balanced_emit_other; [apply li_other|].
      exact (proj1 (balanced_ensure_list st1 H1)).
    + intros [= <-]. now apply balanced_plain_list_item.
  - destruct (formatted_content st) as [stale|]; [|discriminate].
    destruct (ends_with_colon stale).
    + intros [= <-]. now apply balanced_parent.
    + intros [= <-]. destruct (balanced_close st Hst) as [Hc _].
      set (content := runs_to_html_with_links rels (p_runs para)). clearbody content.
      destruct (nonempty content); [|exact Hc].
      apply balanced_emit_other; [apply p_other|]. exact Hc.
Qed.

Lemma balanced_logic1 (rels : gmap str str) (st st' : toc_state) (para : Paragraph)
    (text : str) (is_bold : bool) :
  toc_balanced st -> logic1 rels st para text is_bold = Ok st' -> toc_balanced st'.
Proof.
  intros Hst. unfold logic1. cbv zeta. destruct is_bold.
  - destruct (_ || _ || _).
    + set (content := runs_to_html_with_links rels (p_runs para)). clearbody content.
      set (st0 := set_formatted st content).
      assert (H0 : toc_balanced st0) by exact Hst. clearbody st0.
      destruct (_ && _).
      * intros [= <-]. now apply balanced_parent.
      * intros [= <-]. apply balanced_emit_other; [apply li_other|].
        exact (proj1 (balanced_ensure_list st0 H0)).
    + intros [= <-]. now apply balanced_bold_heading.
  - now apply balanced_nonbold_paragraph.
Qed.

Lemma balanced_logic2 (rels : gmap str str) (st st' : toc_state) (para : Paragraph)
    (text : str) (is_bold : bool) :
  toc_balanced st -> logic2 rels st para text is_bold = Ok st' -> toc_balanced st'.
Proof.
  intros Hst. unfold logic2. destruct is_bold.
  - intros [= <-]. now apply balanced_bold_heading.
  - now apply balanced_nonbold_paragraph.
Qed.

Lemma balanced_toc_step (logic_type : Z) (rels : gmap str str) (st st' : toc_state)
    (para : Paragraph) :
  logic_type <> 3 -> toc_balanced st ->
  toc_step logic_type rels st para = Ok st' -> toc_balanced st'.
Proof.
  intros Hlogic Hst. unfold toc_step. cbv zeta.
  destruct (negb (nonempty _)); [now intros [= <-]|].
  destruct (negb (capture st) && _).
  { intros [= <-]. now apply balanced_exec_summary. }
  destruct (capture st); [|now intros [= <-]].
  destruct (Z.eqb_spec logic_type 1); [now apply balanced_logic1|].
  destruct (Z.eqb_spec logic_type 2); [now apply balanced_logic2|].
  destruct (Z.eqb_spec logic_type 3); [congruence|]. now intros [= <-].
Qed.

Lemma balanced_toc_loop (logic_type : Z) (rels : gmap str str) (paras : list Paragraph) :
  logic_type <> 3 -> forall st st',
  toc_balanced st -> toc_loop logic_type rels st paras = Ok st' -> toc_balanced st'.
Proof.
  intros Hlogic. induction paras as [|para paras IH]; intros st st' Hst; cbn [toc_loop].
  - now intros [= <-].
  - destruct (toc_step logic_type rels st para) as [st1|e] eqn:E; cbn [mbind result_bind];
      [|discriminate].
    apply IH. exact (balanced_toc_step _ _ _ _ _ Hlogic Hst E).
Qed.

Lemma extract_toc_lines (doc : Document) :
  extract_toc doc = lines ← toc_lines doc; Ok (join nl lines).
Proof.
  unfold extract_toc, toc_lines. cbv zeta.
  destruct (toc_loop _ _ _ _); reflexivity.
Qed.

(** X10. Under logic 1 and 2 the lists are balanced: when [extract_toc]
    returns, its result is the lines of [html_output] joined by newlines, and
    as many of these lines are [<ul>] as are [</ul>]. *)
Theorem extract_toc_balanced_lines (doc : Document) (out : str) :
  determine_toc_logic doc <> 3 ->
  extract_toc doc = Ok out ->
  exists lines,
    toc_lines doc = Ok lines /\ out = join nl lines
    /\ count_line UL lines = count_line UL_END lines.
Proof.
  intros Hlogic. rewrite extract_toc_lines. unfold toc_lines. cbv zeta.
  destruct (toc_loop _ _ _ _) as [st|e] eqn:E; cbn [mbind result_bind]; [|discriminate].
  intros [= <-]. eexists. split; [reflexivity|]. split; [reflexivity|].
  assert (Hinit : toc_balanced toc_init) by (split; [discriminate | reflexivity]).
  pose proof (balanced_toc_loop _ _ _ Hlogic _ _ Hinit E) as [Hd Hb].
  enough (open_minus_closed
            (html_output (if inside_list st
                          then emit st (replicate (list_depth st) UL_END) else st)) = 0)
    by (unfold open_minus_closed in *; lia).
  destruct (inside_list st).
  - cbn [emit html_output]. rewrite open_minus_closed_app, open_minus_closed_replicate. lia.
  - exact Hb.
Qed.
End TocBalance.

Lemma extract_toc_balanced_lines_witness :
  exists lines,
    toc_lines (UD := plain_unicode)
      (text_doc [bold_paragraph "Executive Summary";
                 {| p_text := u "Key Findings:"; p_runs := [text_run (u "Key Findings:")];
                    p_style := u "List Paragraph"; p_numPr := Some (Some 0) |};
                 {| p_text := u "Market size"; p_runs := [text_run (u "Market size")];
                    p_style := u "List Paragraph"; p_numPr := Some (Some 1) |}])
    = Ok lines
    /\ join nl [nl ++ u "<strong>Executive Summary</strong>"; u "<ul>";
                u "<li><p><strong>Key Findings:</strong></p>"; u "<ul>";
                u "<li><p>Market size</p></li>"; u "</ul>"; u "</ul>"] = join nl lines
    /\ count_line UL lines = count_line UL_END lines.
Proof.
  apply (extract_toc_balanced_lines (UD := plain_unicode)); vm_compute; [discriminate|reflexivity].
Defined.

(** ** The JSON block of [_extract_json_block] *)

Lemma brace_depth_cons (c : N) (s : str) :
  brace_depth (c :: s)
  = (if (c =? ch "{")%N then 1 else if (c =? ch "}")%N then -1 else 0) + brace_depth s.
Proof.
  unfold brace_depth, count_char, len. cbn [List.filter].
  rewrite (N.eqb_sym (ch "{") c), (N.eqb_sym (ch "}") c).
  destruct (N.eqb_spec c (ch "{")) as [->|H1].
  - change (ch "{" =? ch "}")%N with false. cbn [length]. lia.
  - destruct (c =? ch "}")%N; cbn [length]; lia.
Qed.

Lemma brace_depth_app (a b : str) : brace_depth (a ++ b) = brace_depth a + brace_depth b.
Proof.
  induction a as [|c a IH]; [reflexivity|].
  cbn [app]. rewrite !brace_depth_cons, IH. lia.
Qed.

Lemma brace_depth_spaces (s : str) :
  Forall (fun c => is_space c = true) s -> brace_depth s = 0.
Proof.
  induction 1 as [|c s Hc _ IH]; [reflexivity|].
  rewrite brace_depth_cons, IH.
  destruct (N.eqb_spec c (ch "{")) as [->|_]; [discriminate|].
  destruct (N.eqb_spec c (ch "}")) as [->|_]; [discriminate|]. reflexivity.
Qed.

Lemma lstrip_spaces (s : str) :
  exists pre, s = pre ++ lstrip s /\ Forall (fun c => is_space c = true) pre.
Proof.
  induction s as [|c s (pre & Hs & Hp)]; cbn [lstrip].
  - exists []. split; [reflexivity | constructor].
  - destruct (is_space c) eqn:E.
    + exists (c :: pre). split; [cbn [app]; congruence | now constructor].
    + exists []. split; [reflexivity | constructor].
Qed.

Lemma rstrip_spaces (s : str) :
  exists suf, s = rstrip s ++ suf /\ Forall (fun c => is_space c = true) suf.
Proof.
  unfold rstrip. destruct (lstrip_spaces (rev s)) as (pre & Hs & Hp).
  exists (rev pre). split.
  - rewrite <- rev_app_distr, <- Hs. symmetry. apply rev_involutive.
  - now apply List.Forall_rev.
Qed.

(** The loop copies a prefix of its input; it stops early only on the closing
    brace that brings the depth back to 0. *)
Lemma take_block_spec (s : str) : forall depth, 1 <= depth ->
  exists post, s = take_block depth s ++ post
    /\ 0 <= depth + brace_depth (take_block depth s)
    /\ (depth + brace_depth (take_block depth s) = 0 ->
        last (take_block depth s) = Some (ch "}"))
    /\ (0 < depth + brace_depth (take_block depth s) -> post = []).
Proof.
  induction s as [|c s IH]; intros depth Hd; cbn [take_block].
  - exists []. change (brace_depth []) with 0.
    split; [reflexivity|]. split; [lia|]. split; [lia | reflexivity].
  - destruct (N.eqb_spec c (ch "{")) as [->|H1].
    + destruct (IH (depth + 1) ltac:(lia)) as (post & Hs & H0 & Hl & Hp).
      exists post. rewrite brace_depth_cons. change (ch "{" =? ch "{")%N with true.
      split; [cbn [app]; congruence|]. split; [lia|]. split.
      * intros Hz. specialize (Hl ltac:(lia)).
        destruct (take_block (depth + 1) s); [discriminate | exact Hl].
      * intros Hz. apply Hp. lia.
    + destruct (N.eqb_spec c (ch "}")) as [->|H2].
      * destruct (Z.eqb_spec (depth - 1) 0) as [Hz|Hnz].
        -- exists s. change (brace_depth [ch "}"]) with (-1).
           split; [reflexivity|]. split; [lia|]. split; [reflexivity | lia].
        -- destruct (IH (depth - 1) ltac:(lia)) as (post & Hs & H0 & Hl & Hp).
           exists post. rewrite brace_depth_cons. change (ch "}" =? ch "{")%N with false.
           change (ch "}" =? ch "}")%N with true.
           split; [cbn [app]; congruence|]. split; [lia|]. split.
           ++ intros Hz. specialize (Hl ltac:(lia)).
              destruct (take_block (depth - 1) s); [discriminate | exact Hl].
           ++ intros Hz. apply Hp. lia.
      * destruct (IH depth Hd) as (post & Hs & H0 & Hl & Hp).
        exists post. rewrite brace_depth_cons.
        destruct (N.eqb_spec c (ch "{")) as [?|_]; [contradiction|].
        destruct (N.eqb_spec c (ch "}")) as [?|_]; [contradiction|].
        split; [cbn [app]; congruence|]. split; [lia|]. split.
        -- intros Hz. specialize (Hl ltac:(lia)).
           destruct (take_block depth s); [discriminate | exact Hl].
        -- intros Hz. apply Hp. lia.
Qed.

(** [rfind] with a one-character needle points at that character. *)
Lemma rfind_from_char (c : N) (stop : Z) (s : str) : forall i best,
  rfind_from s [c] i best stop = best
  \/ exists k rest, rfind_from s [c] i best stop = i + Z.of_nat k
                    /\ drop k s = c :: rest.
Proof.
  induction s as [|b s IH]; intros i best; cbn [rfind_from startswith].
  - left. reflexivity.
  - match goal with |- context [rfind_from s [c] (i + 1) ?b' stop] => set (best' := b') end.
    destruct (IH (i + 1) best') as [H|(k & rest & H & Hk)].
    + rewrite H. unfold best'. destruct (N.eqb_spec c b) as [->|_]; cbn [andb].
      * destruct (_ && _); [|now left].
        right. exists 0%nat, s. split; [lia | reflexivity].
      * now left.
    + right. exists (S k), rest. split; [rewrite H; lia | exact Hk].
Qed.

Section JsonBlock.
Context `{UD : UnicodeData}.

(** X11. A non-empty result of [_extract_json_block] is a piece of the text
    that starts with an opening brace and never closes more braces than it
    opens; when its braces balance it ends with the closing brace, and when
    they do not, only white space follows it in the text. *)
Theorem extract_json_block_shape (text type_name : str) :
  let block := _extract_json_block text type_name in
  block = [] \/
  (exists pre post, text = pre ++ block ++ post
     /\ (0 < brace_depth block -> Forall (fun c => is_space c = true) post))
  /\ head block = Some (ch "{")
  /\ 0 <= brace_depth block
  /\ (brace_depth block = 0 -> last block = Some (ch "}")).
Proof.
  cbv zeta. unfold _extract_json_block.
  destruct (re_search _ text) as [m|]; [|now left]. cbv zeta.
  set (stop := Z.of_nat (m_start m)). clearbody stop.
  unfold rfind. change (u "{") with [ch "{"].
  destruct (rfind_from_char (ch "{") (Z.min stop (len text)) text 0 (-1))
    as [H|(k & rest & H & Hk)]; rewrite H.
  { now left. }
  destruct (Z.eqb_spec (0 + Z.of_nat k) (-1)) as [?|_]; [lia|]. right.
  replace (Z.to_nat (0 + Z.of_nat k)) with k by lia. rewrite Hk.
  cbn [take_block]. change (ch "{" =? ch "{")%N with true.
  cbv iota. change (0 + 1) with 1.
  destruct (take_block_spec rest 1 ltac:(lia)) as (post & Hs & H0 & Hl & Hp).
  set (body := take_block 1 rest) in *. clearbody body.
  unfold strip. change (lstrip (ch "{" :: body)) with (ch "{" :: body).
  destruct (rstrip_spaces (ch "{" :: body)) as (suf & Hr & Hsuf).
  set (block := rstrip (ch "{" :: body)) in *. clearbody block.
  assert (Hd : brace_depth block = 1 + brace_depth body).
  { apply (f_equal brace_depth) in Hr.
    rewrite brace_depth_app, (brace_depth_spaces suf Hsuf), brace_depth_cons in Hr.
    change (ch "{" =? ch "{")%N with true in Hr. cbv iota in Hr. lia. }
  assert (Htext : text = take k text ++ block ++ suf ++ post).
  { rewrite <- (take_drop k text) at 1. rewrite Hk, Hs.
    change (ch "{" :: body ++ post) with ((ch "{" :: body) ++ post).
    rewrite Hr at 1. now rewrite <- !app_assoc. }
  split; [|split; [|split]].
  - exists (take k text), (suf ++ post). split; [exact Htext|].
    intros Hpos. rewrite (Hp ltac:(lia)), app_nil_r. exact Hsuf.
  - destruct block as [|b block].
    + cbn [app] in Hr. subst suf. inversion Hsuf as [|? ? Hc _]. discriminate.
    + cbn [app] in Hr. injection Hr as <- _. reflexivity.
  - lia.
  - intros Hz. specialize (Hl ltac:(lia)).
    assert (Hlast : last (ch "{" :: body) = Some (ch "}")).
    { destruct body; [discriminate | exact Hl]. }
    destruct suf as [|c suf _] using rev_ind.
    + rewrite app_nil_r in Hr. now rewrite <- Hr.
    + rewrite Hr, app_assoc, last_snoc in Hlast. injection Hlast as ->.
      apply Forall_app in Hsuf as [_ Hc]. inversion Hc. discriminate.
Qed.
End JsonBlock.

(** ** Normal form of [_norm] *)

Lemma squeeze_snoc (cls : N -> bool) (r : str) (c : N) (s : str) : forall b,
  cls c = false -> squeeze cls r b (s ++ [c]) = squeeze cls r b s ++ [c].
Proof.
  intros b Hc. revert b. induction s as [|x s IH]; intros b; cbn [app squeeze].
  - now rewrite Hc.
  - destruct (cls x); [destruct b|]; rewrite IH; try reflexivity.
    now rewrite <- app_assoc.
Qed.

Lemma squeeze_fixed (s : str) : forall b,
  Forall (fun c => is_space c = true -> c = 32%N) s ->
  single_spaced_from b s = true -> squeeze is_space [32%N] b s = s.
Proof.
  induction s as [|c s IH]; intros b Hs H; [reflexivity|].
  inversion Hs as [|? ? Hc Hs']; subst. cbn [squeeze single_spaced_from] in *.
  destruct (is_space c) eqn:E.
  - rewrite (Hc eq_refl) in *. change (32 =? 32)%N with true in H. cbv iota in H.
    apply andb_true_iff in H as [Hb H]. apply negb_true_iff in Hb. subst b.
    cbn [app]. now rewrite IH.
  - destruct (N.eqb_spec c 32) as [->|_]; [discriminate|]. now rewrite IH.
Qed.

Lemma lstrip_fixed (s : str) :
  match s with c :: _ => is_space c = false | [] => True end -> lstrip s = s.
Proof. destruct s as [|c s]; [reflexivity|]. cbn [lstrip]. now intros ->. Qed.

Lemma rstrip_fixed (s : str) :
  match last s with Some c => is_space c = false | None => True end -> rstrip s = s.
Proof.
  intros H. unfold rstrip. rewrite lstrip_fixed; [apply rev_involutive|].
  destruct s as [|c s _] using rev_ind; [exact I|].
  rewrite rev_app_distr. cbn [rev app]. now rewrite last_snoc in H.
Qed.

Lemma filter_fixed (s : str) :
  Forall (fun c => is_emoji c = false) s -> remove_emojis s = s.
Proof.
  unfold remove_emojis. induction 1 as [|c s Hc _ IH]; [reflexivity|].
  change (filter ?P (c :: s)) with (if decide (P c) then c :: filter P s else filter P s).
  destruct (decide _); [f_equal; exact IH | contradiction].
Qed.

Lemma replace_absent (s new : str) (c : N) :
  Forall (fun x => x <> c) s -> replace s [c] new = s.
Proof.
  rewrite replace_char. induction 1 as [|x s Hx _ IH]; [reflexivity|].
  cbn [flat_map]. destruct (N.eqb_spec c x); [congruence|]. now rewrite IH.
Qed.

Section Norm.
Context `{UD : UnicodeData}.

Lemma norm_squeeze (s : str) :
  _norm s
  = squeeze is_space [32%N] false
      (strip (replace (replace (remove_emojis s) [0xFFFD%N] DASH) [0x2014%N] DASH)).
Proof.
  unfold _norm. cbv zeta.
  set (t := strip _). clearbody t. unfold re_s, const_repl.
  rewrite (re_sub_class_plus _ false [CSpace true]) by (vm_compute; reflexivity).
  change (u " ") with [32%N]. apply squeeze_ext. intros c. unfold set_mem.
  cbn [IGNORECASE p_flags re_compile no_flags existsb citem_mem].
  destruct (is_space c); reflexivity.
Qed.

(** X12. [_norm] returns a normal form: its result holds no emoji, no
    replacement character and no em-dash, its only white space is single
    spaces between other characters, and normalising it again changes
    nothing. *)
Theorem norm_normal_form (s : str) :
  let r := _norm s in
  Forall norm_char r
  /\ single_spaced_from true r = true
  /\ last r <> Some 32%N
  /\ _norm r = r.
Proof.
  cbv zeta.
  assert (Hfix : forall t, Forall norm_char t -> single_spaced_from true t = true ->
                           last t <> Some 32%N -> _norm t = t).
  { intros t Ht Hs Hl.
    assert (Hsp : Forall (fun c => is_space c = true -> c = 32%N) t)
      by (eapply Forall_impl; [exact Ht | intros c Hc; apply Hc]).
    assert (He : remove_emojis t = t)
      by (apply filter_fixed; eapply Forall_impl; [exact Ht | intros c Hc; apply Hc]).
    assert (H1 : replace t [0xFFFD%N] DASH = t)
      by (apply replace_absent; eapply Forall_impl; [exact Ht | intros c Hc; apply Hc]).
    assert (H2 : replace t [0x2014%N] DASH = t)
      by (apply replace_absent; eapply Forall_impl; [exact Ht | intros c Hc; apply Hc]).
    rewrite norm_squeeze, He, H1, H2.
    unfold strip. rewrite lstrip_fixed, rstrip_fixed.
    - apply squeeze_fixed; [exact Hsp | now apply single_spaced_weaken].
    - destruct (last t) as [c|] eqn:E; [|exact I].
      destruct (is_space c) eqn:Ec; [|reflexivity]. exfalso. apply Hl. f_equal.
      rewrite last_Some in E. destruct E as (l' & ->).
      apply Forall_app in Hsp as [_ Hc]. inversion Hc; subst. auto.
    - destruct t as [|c t]; [exact I|]. inversion Hsp; subst.
      cbn [single_spaced_from] in Hs. destruct (is_space c) eqn:Ec; [|reflexivity].
      rewrite (H3 eq_refl) in Hs. discriminate. }
  assert (Hr : Forall norm_char (_norm s) /\ single_spaced_from true (_norm s) = true
               /\ last (_norm s) <> Some 32%N).
  { rewrite norm_squeeze.
    set (t2 := replace _ [0x2014%N] DASH).
    assert (H2 : Forall (fun c => is_emoji c = false /\ c <> 0xFFFD%N /\ c <> 0x2014%N) t2).
    { unfold t2. apply replace_char_Forall.
      - constructor; [|constructor]. vm_compute. repeat split; discriminate.
      - assert (H1 : Forall (fun c => is_emoji c = false /\ c <> 0xFFFD%N)
                       (replace (remove_emojis s) [0xFFFD%N] DASH)).
        { apply replace_char_Forall.
          - constructor; [|constructor]. vm_compute. split; [reflexivity | discriminate].
          - unfold remove_emojis. apply Forall_forall. intros c Hc.
            apply list_elem_of_filter in Hc as [Hc _]. auto. }
        eapply Forall_impl; [exact H1|]. cbn. intros c [Ha Hb] Hc. auto. }
    clearbody t2.
    pose proof (strip_Forall _ t2 H2) as H3.
    assert (Hhead : match strip t2 with c :: _ => is_space c = false | [] => True end).
    { unfold strip. destruct (lstrip_spec t2) as (pre & _ & Hh).
      destruct (rstrip_spaces (lstrip t2)) as (suf & Hsuf & _).
      destruct (rstrip (lstrip t2)) as [|c r]; [exact I|].
      rewrite Hsuf in Hh. exact Hh. }
    assert (Hlast : match last (strip t2) with Some c => is_space c = false | None => True end).
    { unfold strip. destruct (rstrip_spec (lstrip t2)) as (suf & _ & Hl). exact Hl. }
    set (t := strip t2) in *. clearbody t. clear H2 t2.
    split; [|split].
    - assert (Hq : Forall (fun c => is_emoji c = false /\ c <> 0xFFFD%N /\ c <> 0x2014%N)
                     (squeeze is_space [32%N] false t)).
      { apply squeeze_chars; [|exact H3]. vm_compute. repeat split; discriminate. }
      pose proof (squeeze_no_space t false) as Hn.
      apply Forall_forall. intros c Hc.
      pose proof (proj1 (Forall_forall _ _) Hq c Hc) as (Ha & Hb & Hd).
      pose proof (proj1 (Forall_forall _ _) Hn c Hc) as He.
      unfold norm_char. auto.
    - pose proof (squeeze_single_spaced t false) as Hs.
      destruct t as [|c t]; [reflexivity|]. cbn [squeeze] in *. rewrite Hhead in *.
      cbn [single_spaced_from] in *.
      destruct (N.eqb_spec c 32) as [->|_]; [discriminate | exact Hs].
    - destruct t as [|c t _] using rev_ind; [discriminate|].
      rewrite last_snoc in Hlast. rewrite squeeze_snoc by exact Hlast.
      rewrite last_snoc. intros [= ->]. discriminate. }
  destruct Hr as (Ha & Hb & Hc). repeat split; try assumption.
  now apply Hfix.
Qed.
End Norm.

(** ** The three definitions of [runs_to_html] *)

(** X13. On runs that are outside every hyperlink the first definition of
    [runs_to_html] (line 190, also the formatter nested in [extract_toc]) and
    the definition in force (line 3969) return the same text, whatever the
    relationships of the document are. *)
Theorem runs_to_html_same_without_links (rels : gmap str str) (runs : list Run) :
  Forall unlinked runs ->
  Line190.runs_to_html rels runs = runs_to_html runs
  /\ runs_to_html_with_links rels runs = runs_to_html runs.
Proof.
  intros H.
  assert (E : flat_map (Line190.run_part rels) runs = flat_map run_part runs).
  { induction H as [|run runs Hrun _ IH]; [reflexivity|].
    cbn [flat_map]. rewrite IH. f_equal.
    unfold Line190.run_part, run_part. cbv zeta. rewrite Hrun. reflexivity. }
  unfold runs_to_html_with_links, Line190.runs_to_html, runs_to_html.
  now rewrite E.
Qed.

Lemma runs_to_html_same_without_links_witness :
  Line190.runs_to_html (one_rel "rId5" "https://example.com/report")
    [text_run (u "Market size "); bold_run (u "USD 4.5 Billion")]
  = u "Market size <b>USD 4.5 Billion</b>"
  /\ runs_to_html_with_links (one_rel "rId5" "https://example.com/report")
       [text_run (u "Market size "); bold_run (u "USD 4.5 Billion")]
     = u "Market size <b>USD 4.5 Billion</b>".
Proof.
  change (u "Market size <b>USD 4.5 Billion</b>")
    with (runs_to_html [text_run (u "Market size "); bold_run (u "USD 4.5 Billion")]).
  apply runs_to_html_same_without_links.
  repeat constructor.
Defined.

(** ** Escaping in the methodology *)

Lemma count_char_app (c : N) (a b : str) :
  count_char c (a ++ b) = count_char c a + count_char c b.
Proof. unfold count_char, len. rewrite List.filter_app, length_app. lia. Qed.

Lemma count_char_absent (c : N) (s : str) :
  Forall (fun x => x <> c) s -> count_char c s = 0.
Proof.
  unfold count_char, len. induction 1 as [|x s Hx _ IH]; [reflexivity|].
  cbn [List.filter]. destruct (N.eqb_spec c x); [congruence | exact IH].
Qed.

Lemma markup_free_counts (s : str) :
  Forall markup_free s ->
  count_char (ch "<") s = 0 /\ count_char (ch ">") s = 0
  /\ count_char 34%N s = 0 /\ count_char 39%N s = 0.
Proof.
  intros H. repeat split; apply count_char_absent;
    (eapply Forall_impl; [exact H | intros c Hc; apply Hc]).
Qed.

Lemma html_escape_markup_free (s : str) : Forall markup_free (html_escape s).
Proof.
  unfold html_escape. cbv zeta.
  set (s0 := replace s (u "&") (u "&amp;")). clearbody s0.
  assert (H1 : Forall (fun c => c <> ch "<") (replace s0 (u "<") (u "&lt;"))).
  { apply (replace_char_Forall _ s0 (u "&lt;") (ch "<")).
    - repeat constructor; discriminate.
    - apply Forall_forall. auto. }
  set (s1 := replace s0 (u "<") (u "&lt;")) in *. clearbody s1.
  assert (H2 : Forall (fun c => c <> ch "<" /\ c <> ch ">") (replace s1 (u ">") (u "&gt;"))).
  { apply (replace_char_Forall _ s1 (u "&gt;") (ch ">")).
    - repeat constructor; discriminate.
    - eapply Forall_impl; [exact H1|]. cbn. auto. }
  set (s2 := replace s1 (u ">") (u "&gt;")) in *. clearbody s2.
  assert (H3 : Forall (fun c => c <> ch "<" /\ c <> ch ">" /\ c <> 34%N)
                 (replace s2 dquote (u "&quot;"))).
  { apply (replace_char_Forall _ s2 (u "&quot;") 34%N).
    - repeat constructor; discriminate.
    - eapply Forall_impl; [exact H2|]. cbn. intros c [Ha Hb] Hc. auto. }
  set (s3 := replace s2 dquote (u "&quot;")) in *. clearbody s3.
  apply (replace_char_Forall _ s3 (u "&#x27;") 39%N).
  - repeat constructor; discriminate.
  - eapply Forall_impl; [exact H3|]. cbn. intros c (Ha & Hb & Hc) Hd.
    unfold markup_free. auto.
Qed.

Lemma markup_free_digit (a : ascii) :
  (48 <=? N_of_ascii a)%N && (N_of_ascii a <=? 57)%N = true -> markup_free (N_of_ascii a).
Proof.
  intros H. apply andb_true_iff in H as [H1 H2].
  apply N.leb_le in H1. apply N.leb_le in H2.
  unfold markup_free, ch. change (N_of_ascii "<") with 60%N.
  change (N_of_ascii ">") with 62%N. lia.
Qed.

Lemma digits_markup_free (d : Decimal.uint) :
  Forall markup_free (bytes_of_string (NilEmpty.string_of_uint d)).
Proof.
  induction d; cbn [NilEmpty.string_of_uint bytes_of_string]; constructor; try assumption;
    now apply markup_free_digit.
Qed.

Lemma string_of_uint_markup_free (d : Decimal.uint) :
  Forall markup_free (bytes_of_string (NilZero.string_of_uint d)).
Proof.
  destruct d; try apply (digits_markup_free (_ d)).
  change (Forall markup_free [N_of_ascii "0"]).
  constructor; [now apply markup_free_digit | constructor].
Qed.

Lemma str_of_Z_markup_free (n : Z) : Forall markup_free (str_of_Z n).
Proof.
  unfold str_of_Z. destruct (Z.to_int n) as [d|d]; cbn [NilZero.string_of_int].
  - apply string_of_uint_markup_free.
  - cbn [bytes_of_string].
    constructor; [unfold markup_free; repeat apply conj; intros E; vm_compute in E; discriminate|].
    apply string_of_uint_markup_free.
Qed.

Lemma faq_paragraph_markup (q_count : Z) (question answer : str) :
  entry_markup (faq_paragraph q_count question answer).
Proof.
  destruct (markup_free_counts _ (str_of_Z_markup_free q_count)) as (N1 & N2 & N3 & N4).
  destruct (markup_free_counts _ (html_escape_markup_free question)) as (Q1 & Q2 & Q3 & Q4).
  destruct (markup_free_counts _ (html_escape_markup_free answer)) as (A1 & A2 & A3 & A4).
  unfold faq_paragraph, entry_markup.
  set (num := str_of_Z q_count) in *. clearbody num.
  set (q := html_escape question) in *. clearbody q.
  set (a := html_escape answer) in *. clearbody a.
  rewrite !count_char_app, N1, N2, N3, N4, Q1, Q2, Q3, Q4, A1, A2, A3, A4.
  repeat split; reflexivity.
Qed.

Lemma faq_loop_markup (items : list json) : forall q_count faqs,
  faq_loop q_count items = Ok faqs -> Forall entry_markup faqs.
Proof.
  induction items as [|item items IH]; intros q_count faqs; cbn [faq_loop].
  - intros [= <-]. constructor.
  - cbv zeta. destruct (item_qa item) as [qa|e]; cbn [mbind result_bind]; [|discriminate].
    destruct (faq_loop (q_count + 1) items) as [rest|e] eqn:E; cbn [mbind result_bind];
      [|discriminate].
    specialize (IH _ _ E). unfold faq_entry.
    destruct qa as [[|c question] [|d answer]]; intros [= <-]; try exact IH.
    constructor; [apply faq_paragraph_markup | exact IH].
Qed.

Lemma count_char_join (c : N) (k : Z) (parts : list str) :
  c <> 10%N -> Forall (fun p => count_char c p = k) parts ->
  count_char c (join nl parts) = k * len parts.
Proof.
  intros Hc. induction 1 as [|p parts Hp Hparts IH]; [change (0 = k * 0); lia|].
  destruct parts as [|p' parts].
  - cbn [join]. rewrite Hp. change (len [p]) with 1. lia.
  - change (join nl (p :: p' :: parts)) with (p ++ nl ++ join nl (p' :: parts)).
    rewrite !count_char_app, IH, Hp.
    assert (Hnl : count_char c nl = 0).
    { apply count_char_absent. constructor; [congruence | constructor]. }
    rewrite Hnl. unfold len. cbn [length]. rewrite !Nat2Z.inj_succ. lia.
Qed.

(** X14. Whatever the questions and answers of the FAQ schema contain, the
    methodology is a list of entries joined by newlines in which every entry
    has exactly the five tags written by the code and no quote character:
    markup in a question or an answer is escaped. *)
Theorem methodology_markup_escaped (faq_data : json) (out : str) :
  methodology_of_json faq_data = Ok out ->
  exists faqs,
    out = join nl faqs /\ Forall entry_markup faqs
    /\ count_char (ch "<") out = 5 * len faqs
    /\ count_char (ch ">") out = 5 * len faqs.
Proof.
  unfold methodology_of_json.
  destruct (py_get faq_data (u "mainEntity") (JArr [])) as [main|e];
    cbn [mbind result_bind]; [|discriminate].
  destruct (py_iter main) as [items|e]; cbn [mbind result_bind]; [|discriminate].
  destruct (faq_loop 0 items) as [faqs|e] eqn:E; cbn [mbind result_bind]; [|discriminate].
  intros [= <-]. exists faqs. pose proof (faq_loop_markup _ _ _ E) as H.
  split; [reflexivity|]. split; [exact H|].
  split; apply count_char_join; try discriminate;
    (eapply Forall_impl; [exact H | intros p Hp; apply Hp]).
Qed.

Lemma methodology_markup_escaped_witness :
  exists faqs,
    u "<p><strong>Q1: Is &lt;b&gt;5G&lt;/b&gt; covered?</strong><br>A1: Yes &amp; it&#x27;s &quot;core&quot;.</p>"
    = join nl faqs /\ Forall entry_markup faqs
    /\ count_char (ch "<")
         (u "<p><strong>Q1: Is &lt;b&gt;5G&lt;/b&gt; covered?</strong><br>A1: Yes &amp; it&#x27;s &quot;core&quot;.</p>")
       = 5 * len faqs
    /\ count_char (ch ">")
         (u "<p><strong>Q1: Is &lt;b&gt;5G&lt;/b&gt; covered?</strong><br>A1: Yes &amp; it&#x27;s &quot;core&quot;.</p>")
       = 5 * len faqs.
Proof.
  apply (methodology_markup_escaped
           (faq_page [JObj [(u "name", JStr (u "Is <b>5G</b> covered?"));
                            (u "acceptedAnswer",
                             JObj [(u "text", JStr (u "Yes & it's " ++ dquote ++ u "core"
                                                      ++ dquote ++ u "."))])]])).
  vm_compute. reflexivity.
Defined.

(** ** The table chosen for the report coverage *)

Lemma join_nonempty (sep a : str) (parts : list str) : a <> [] -> join sep (a :: parts) <> [].
Proof.
  intros Ha. destruct a as [|c a]; [congruence|].
  destruct parts; cbn [join app]; discriminate.
Qed.

Section Coverage.
Context `{UD : UnicodeData}.

Lemma coverage_html_nonempty (table : Table) : coverage_html table <> [].
Proof.
  unfold coverage_html. cbn [app]. apply join_nonempty.
  intros E. vm_compute in E. discriminate.
Qed.

Lemma coverage_of_tables_first (pre : list Table) (header : Row) (rows : list Row)
    (post : list Table) :
  no_report_table pre -> is_report_table (first_row_text header) = true ->
  coverage_of_tables (pre ++ (header :: rows) :: post) = coverage_html (header :: rows).
Proof.
  intros Hpre Hh. induction Hpre as [|table pre Ht _ IH]; cbn [app coverage_of_tables].
  - now rewrite Hh.
  - destruct table as [|h r]; [exact IH|]. rewrite Ht. exact IH.
Qed.

(** X15. The first table whose first row reads as a coverage header decides
    the report coverage: tables before it, empty or with another first row,
    are skipped, tables after it are not looked at, and the result is then
    never empty.  With no such table the result is empty, and only then. *)
Theorem coverage_first_matching_table (doc : Document) :
  (forall pre header rows post,
     doc_tables doc = pre ++ (header :: rows) :: post ->
     no_report_table pre -> is_report_table (first_row_text header) = true ->
     extract_report_coverage_table_with_style doc = coverage_html (header :: rows))
  /\ (extract_report_coverage_table_with_style doc = [] <-> no_report_table (doc_tables doc)).
Proof.
  unfold extract_report_coverage_table_with_style. split.
  - intros pre header rows post -> Hpre Hh. now apply coverage_of_tables_first.
  - split.
    + induction (doc_tables doc) as [|table tables IH]; cbn [coverage_of_tables]; intros H.
      * constructor.
      * destruct table as [|header rows].
        -- constructor; [exact I | exact (IH H)].
        -- destruct (is_report_table (first_row_text header)) eqn:E.
           ++ now apply coverage_html_nonempty in H.
           ++ constructor; [exact E | exact (IH H)].
    + intros H. induction H as [|table tables Ht _ IH]; [reflexivity|].
      cbn [coverage_of_tables]. destruct table as [|header rows]; [exact IH|].
      rewrite Ht. exact IH.
Qed.
End Coverage.

Lemma coverage_first_matching_table_witness :
  extract_report_coverage_table_with_style (UD := plain_unicode)
    (tables_doc [[]; [[text_cell "Segment"; text_cell "Share"]];
                 [[text_cell "Report Attribute"; text_cell "Details"];
                  [text_cell "Forecast Period"; text_cell "2024 - 2030"]];
                 [[text_cell "Market Size"; text_cell "USD 1 Billion"]]])
  = coverage_html [[text_cell "Report Attribute"; text_cell "Details"];
                   [text_cell "Forecast Period"; text_cell "2024 - 2030"]].
Proof.
  apply (proj1 (coverage_first_matching_table (UD := plain_unicode) _)
           [[]; [[text_cell "Segment"; text_cell "Share"]]] _ _
           [[[text_cell "Market Size"; text_cell "USD 1 Billion"]]]).
  - reflexivity.
  - constructor; [exact I|]. constructor; [vm_compute; reflexivity | constructor].
  - vm_compute. reflexivity.
Defined.

(** ** The logic selected by [determine_toc_logic] *)

Section LogicSelection.
Context `{UD : UnicodeData}.

Lemma logic_scan_blank (blanks : list Paragraph) (st : logic_scan) :
  Forall (fun para => is_blank_paragraph para = true) blanks ->
  fold_left logic_scan_step blanks st = st.
Proof.
  induction 1 as [|para blanks Hpara _ IH]; [reflexivity|].
  cbn [fold_left]. replace (logic_scan_step st para) with st; [exact IH|].
  unfold logic_scan_step. cbv zeta. unfold is_blank_paragraph in Hpara. now rewrite Hpara.
Qed.

Lemma logic_scan_after (rest : list Paragraph) : forall st,
  found_executive_summary st = true -> 1 <= para_count st ->
  Forall (fun para => is_summary para = false) rest ->
  let st' := fold_left logic_scan_step rest st in
  executive_summary_bold st' = executive_summary_bold st
  /\ executive_summary_in_list st' = executive_summary_in_list st
  /\ first_line_after_bold st' = first_line_after_bold st
  /\ first_line_after_in_list st' = first_line_after_in_list st
  /\ 1 <= para_count st'.
Proof.
  induction rest as [|para rest IH]; intros st Hfound Hcount Hrest; [cbn; auto|].
  inversion Hrest as [|? ? Hpara Hrest']; subst. cbn [fold_left]. cbv zeta.
  assert (Hstep : found_executive_summary (logic_scan_step st para) = true
                  /\ 1 <= para_count (logic_scan_step st para)
                  /\ executive_summary_bold (logic_scan_step st para)
                     = executive_summary_bold st
                  /\ executive_summary_in_list (logic_scan_step st para)
                     = executive_summary_in_list st
                  /\ first_line_after_bold (logic_scan_step st para)
                     = first_line_after_bold st
                  /\ first_line_after_in_list (logic_scan_step st para)
                     = first_line_after_in_list st).
  { unfold logic_scan_step. cbv zeta. unfold is_summary in Hpara. rewrite Hpara, Hfound.
    destruct (negb (nonempty _)); [auto 10|]. cbn [negb].
    cbn [found_executive_summary para_count executive_summary_bold
         executive_summary_in_list first_line_after_bold first_line_after_in_list].
    destruct (Z.eqb_spec (para_count st + 1) 1); [lia|].
    repeat split; (reflexivity || lia). }
  destruct Hstep as (Hf & Hc & H1 & H2 & H3 & H4).
  destruct (IH _ Hf Hc Hrest') as (I1 & I2 & I3 & I4 & I5). cbv zeta in *.
  rewrite I1, I2, I3, I4. auto.
Qed.

(** X16. With the first summary line followed, after blank paragraphs only,
    by a paragraph [para], and no other summary line in the document, the
    logic is decided by four tests: logic 3 exactly when the summary line and
    [para] are both bold (whether [para] is in a list plays no role), else
    logic 2 when the summary line is bold and both are in a list, else
    logic 1. *)
Theorem determine_toc_logic_selection (doc : Document) (pre blanks : list Paragraph)
    (summary para : Paragraph) (rest : list Paragraph) :
  doc_paragraphs doc = pre ++ summary :: blanks ++ para :: rest ->
  Forall (fun p => is_summary p = false) pre ->
  is_summary summary = true ->
  Forall (fun p => is_blank_paragraph p = true) blanks ->
  is_summary para = false -> is_blank_paragraph para = false ->
  Forall (fun p => is_summary p = false) rest ->
  determine_toc_logic doc
  = if para_bold summary && para_bold para then 3
    else if para_bold summary && para_in_list summary && para_in_list para then 2
    else 1.
Proof.
  intros Hdoc Hpre Hsum Hblanks Hnot Hne Hrest. unfold determine_toc_logic. cbv zeta.
  rewrite Hdoc, fold_left_app, (logic_scan_before pre) by (reflexivity || exact Hpre).
  cbn [fold_left]. rewrite fold_left_app, (logic_scan_blank blanks) by exact Hblanks.
  cbn [fold_left].
  pose proof (is_summary_nonempty summary Hsum) as Hsne.
  unfold is_blank_paragraph in Hne. apply negb_false_iff in Hne.
  match goal with
  | |- context [fold_left logic_scan_step rest ?st2] =>
      assert (H2 : found_executive_summary st2 = true /\ para_count st2 = 1
                   /\ executive_summary_bold st2 = para_bold summary
                   /\ executive_summary_in_list st2 = para_in_list summary
                   /\ first_line_after_bold st2 = para_bold para
                   /\ first_line_after_in_list st2 = para_in_list para);
      [|destruct H2 as (Hf & Hc & E1 & E2 & E3 & E4);
        destruct (logic_scan_after rest st2 Hf ltac:(lia) Hrest) as (A1 & A2 & A3 & A4 & A5);
        cbv zeta in A1, A2, A3, A4, A5; rewrite E1 in A1; rewrite E2 in A2;
        rewrite E3 in A3; rewrite E4 in A4;
        set (final := fold_left logic_scan_step rest st2) in *; clearbody final]
  end.
  { unfold is_summary in Hsum, Hnot. unfold logic_scan_step. cbv zeta.
    rewrite Hsne, Hsum. cbn [negb found_executive_summary para_count].
    rewrite Hne, Hnot. cbn [negb found_executive_summary para_count Z.add].
    cbn [found_executive_summary para_count executive_summary_bold
         executive_summary_in_list first_line_after_bold first_line_after_in_list].
    change (0 + 1 =? 1) with true. cbv iota. repeat split; reflexivity. }
  destruct (Z.leb_spec 1 (para_count final)); [|lia].
  rewrite A1, A2, A3, A4.
  destruct (para_bold summary), (para_in_list summary), (para_bold para),
    (para_in_list para); reflexivity.
Qed.
End LogicSelection.

Lemma determine_toc_logic_selection_witness :
  determine_toc_logic (UD := plain_unicode)
    (text_doc [plain_paragraph (u "Report"); bold_paragraph "Executive Summary";
               plain_paragraph (u "  "); bold_paragraph "Market Overview";
               plain_paragraph (u "Scope")])
  = 3.
Proof.
  apply (determine_toc_logic_selection (UD := plain_unicode) _
           [plain_paragraph (u "Report")] [plain_paragraph (u "  ")]
           (bold_paragraph "Executive Summary") (bold_paragraph "Market Overview")
           [plain_paragraph (u "Scope")]).
  - reflexivity.
  - repeat constructor.
  - vm_compute. reflexivity.
  - repeat constructor.
  - vm_compute. reflexivity.
  - vm_compute. reflexivity.
  - repeat constructor.
Defined.

(** ** Headings of the table of contents *)

Section Heading.
Context `{UD : UnicodeData}.

(** X17. A heading cleaned by [clean_heading] holds no emoji, and its only
    white space is single spaces between other characters: none at the
    start, none at the end, no two in a row, and no tab or line break. *)
Theorem clean_heading_shape (text : str) :
  Forall heading_char (clean_heading text)
  /\ single_spaced_from true (clean_heading text) = true
  /\ last (clean_heading text) <> Some 32%N.
Proof.
  unfold clean_heading. cbv zeta.
  set (P := fun c : N => is_emoji c = false).
  assert (H0 : Forall P (remove_emojis (strip text))).
  { unfold remove_emojis. apply Forall_forall. intros c Hc.
    apply list_elem_of_filter in Hc as [Hc _]. exact Hc. }
  set (s0 := remove_emojis (strip text)) in *. clearbody s0.
  assert (H1 : Forall P (re_sub (re_compile no_flags (u "^\d+(\.\d+)*[\.\)]\s*"))
                           (fun _ => []) s0))
    by (apply re_sub_Forall; [exact H0 | intros; constructor]).
  set (s1 := re_sub (re_compile no_flags (u "^\d+(\.\d+)*[\.\)]\s*")) _ s0) in *.
  clearbody s1.
  assert (H2 : Forall P (re_sub (re_compile no_flags (u "^[•\-–]\s*")) (fun _ => []) s1))
    by (apply re_sub_Forall; [exact H1 | intros; constructor]).
  set (s2 := re_sub (re_compile no_flags (u "^[•\-–]\s*")) _ s1) in *. clearbody s2.
  rewrite (re_sub_class_plus _ false [CSpace true]) by (vm_compute; reflexivity).
  rewrite (squeeze_ext _ is_space)
    by (intros c; unfold set_mem;
        cbn [IGNORECASE p_flags re_compile no_flags existsb citem_mem];
        destruct (is_space c); reflexivity).
  change (u " ") with [32%N].
  set (t := squeeze is_space [32%N] false s2).
  assert (HtP : Forall P t) by (apply squeeze_chars; [reflexivity | exact H2]).
  assert (Hts : Forall (fun c => is_space c = true -> c = 32%N) t) by apply squeeze_no_space.
  assert (Htss : single_spaced_from false t = true) by apply squeeze_single_spaced.
  clearbody t.
  destruct (strip_single_spaced t Hts Htss) as [Hs Hl].
  split; [|split; assumption].
  pose proof (strip_Forall _ t HtP) as Ha. pose proof (strip_Forall _ t Hts) as Hb.
  apply Forall_forall. intros c Hc. split.
  - exact (proj1 (Forall_forall _ _) Ha c Hc).
  - exact (proj1 (Forall_forall _ _) Hb c Hc).
Qed.
End Heading.

(** ** The value lists of the constructed title *)

Lemma add_new_distinct (values : list str) (v : str) :
  v <> [] -> distinct_values values -> distinct_values (add_new values v).
Proof.
  intros Hv [Hnd Hne]. unfold add_new. destruct (str_in v values) eqn:E; [now split|].
  split.
  - assert (Hin : ~ In v values).
    { intros Hin. apply str_in_spec in Hin. congruence. }
    clear E Hne. induction values as [|x values IH]; cbn [app].
    + constructor; [intros [] | constructor].
    + apply List.NoDup_cons_iff in Hnd as [Hx Hnd]. constructor.
      * rewrite in_app_iff. intros [H|[H|[]]]; [contradiction|].
        apply Hin. left. symmetry. exact H.
      * apply IH; [exact Hnd|]. intros H. apply Hin. now right.
  - apply Forall_app. split; [exact Hne | constructor; [exact Hv | constructor]].
Qed.

Lemma fold_distinct (step : list str -> str -> list str) (vals : list str) :
  (forall cleaned val, distinct_values cleaned -> distinct_values (step cleaned val)) ->
  forall cleaned, distinct_values cleaned -> distinct_values (fold_left step vals cleaned).
Proof.
  intros Hstep. induction vals as [|val vals IH]; intros cleaned H; [exact H|].
  cbn [fold_left]. apply IH, Hstep, H.
Qed.

Lemma part_if_any_listed (label : string) (cleaned : list str) :
  distinct_values cleaned -> listed_part label (part_if_any label cleaned).
Proof.
  intros [Hnd Hne]. unfold part_if_any. destruct cleaned as [|v cleaned]; [now left|].
  right. exists (take 6 (v :: cleaned)). split; [reflexivity|]. split; [discriminate|].
  split; [apply length_take_le|]. split.
  - rewrite <- (take_drop 6 (v :: cleaned)) in Hnd.
    now apply List.NoDup_app_remove_r in Hnd.
  - rewrite <- (take_drop 6 (v :: cleaned)) in Hne. now apply Forall_app in Hne as [Hne _].
Qed.

Section TitleValues.
Context `{UD : UnicodeData}.

Lemma re_sub_nonempty (p : pattern) (repl : mres -> str) (s : str) :
  s <> [] -> (forall m, repl m <> []) -> re_sub p repl s <> [].
Proof.
  intros Hs Hrepl. unfold re_sub.
  destruct (re_finditer p s None) as [|m ms]; cbn [between concat].
  - rewrite drop_0, app_nil_r. exact Hs.
  - intros E. apply app_eq_nil in E as [_ E]. cbn [app] in E.
    apply app_eq_nil in E as [E _]. now apply (Hrepl m).
Qed.

(** X18. The parts [By Phase Type (...)] and [By Output Power (...)] of the
    constructed title list between one and six values, all different and
    none empty; when no value is left the part is omitted. *)
Theorem title_value_lists_distinct (doc : Document) (segments : gmap string str)
    (segment_indices : gmap string Z) (parts : list str) :
  (phase_part doc segments segment_indices = Ok parts ->
   listed_part "By Phase Type" parts)
  /\ (output_power_part doc segments segment_indices = Ok parts ->
      listed_part "By Output Power" parts).
Proof.
  assert (Hnil : distinct_values []) by (split; constructor).
  split.
  - unfold phase_part.
    destruct (values_of doc segments segment_indices "phase") as [vals|e];
      cbn [mbind result_bind]; [|discriminate].
    intros [= <-]. apply part_if_any_listed, fold_distinct; [|exact Hnil].
    intros cleaned val H. cbv zeta.
    destruct (strip val) as [|c v] eqn:E; cbn [nonempty negb]; [exact H|].
    apply add_new_distinct; [|exact H].
    destruct (str_eqb _ _); [intros X; vm_compute in X; discriminate|].
    destruct (str_eqb _ _); [intros X; vm_compute in X; discriminate | discriminate].
  - unfold output_power_part.
    destruct (values_of doc segments segment_indices "output_power") as [vals|e];
      cbn [mbind result_bind]; [|discriminate].
    intros [= <-]. apply part_if_any_listed, fold_distinct; [|exact Hnil].
    intros cleaned val H. cbv zeta.
    destruct (_norm val) as [|c v] eqn:E; cbn [nonempty negb]; [exact H|].
    apply add_new_distinct; [|exact H].
    apply re_sub_nonempty; [discriminate|].
    intros m X. apply app_eq_nil in X as [_ X]. discriminate X.
Qed.
End TitleValues.

Lemma title_value_lists_distinct_witness :
  listed_part "By Phase Type" [u "By Phase Type (Single Phase, Three Phase)"].
Proof.
  apply (proj1 (title_value_lists_distinct (UD := plain_unicode)
                  (paragraphs_doc ["By Phase Type"; "Single phase"; "Three Phase";
                                   "Single Phase"; "By Region"; "Europe"]%string)
                  {[ "phase"%string := u "By Phase Type" ]} {[ "phase"%string := 0 ]}
                  [u "By Phase Type (Single Phase, Three Phase)"])).
  vm_compute. reflexivity.
Defined.

(** ** Lists are never closed before they are opened *)

Section TocNotOverclosed.
Context `{UD : UnicodeData}.

Lemma balanced_not_overclosed (st : toc_state) : toc_balanced st -> toc_not_overclosed st.
Proof.
  intros [Hd Hb]. split.
  - intros Hi. destruct (Hd Hi); lia.
  - rewrite Hb. lia.
Qed.

Lemma weak_emit_zero (st : toc_state) (lines : list str) :
  open_minus_closed lines = 0 -> toc_not_overclosed st -> toc_not_overclosed (emit st lines).
Proof.
  intros Hz [Hd Hb]. split; [exact Hd|]. cbn [emit html_output inside_list list_depth].
  rewrite open_minus_closed_app, Hz. lia.
Qed.

Lemma weak_emit_other (st : toc_state) (line : str) :
  UL <> line /\ UL_END <> line -> toc_not_overclosed st -> toc_not_overclosed (emit st [line]).
Proof.
  intros [H1 H2]. apply weak_emit_zero. now rewrite open_minus_closed_other.
Qed.

Lemma weak_close (st : toc_state) :
  toc_not_overclosed st ->
  toc_not_overclosed (close_lists st) /\ inside_list (close_lists st) = false.
Proof.
  intros Hst. unfold close_lists. destruct (inside_list st) eqn:Ei.
  - split; [|reflexivity]. split; [discriminate|]. destruct Hst as [_ Hb].
    rewrite Ei in Hb. cbn [set_list emit html_output inside_list list_depth].
    rewrite open_minus_closed_app, open_minus_closed_replicate. lia.
  - split; [exact Hst | exact Ei].
Qed.

Lemma weak_open_parent (st : toc_state) (content : str) :
  toc_not_overclosed st -> inside_list st = false ->
  toc_not_overclosed (open_parent st content).
Proof.
  intros [Hd Hb] Hi. rewrite Hi in Hb. unfold open_parent. split; [intros _; cbn; lia|].
  cbn [set_list emit html_output inside_list list_depth].
  rewrite open_minus_closed_app, open_minus_closed_open,
    open_minus_closed_other, open_minus_closed_open by apply li_strong_other.
  change (open_minus_closed []) with 0. lia.
Qed.

Lemma weak_parent (st : toc_state) (content : str) :
  toc_not_overclosed st -> toc_not_overclosed (open_parent (close_lists st) content).
Proof.
  intros Hst. destruct (weak_close st Hst) as [Hc Hi]. now apply weak_open_parent.
Qed.

Lemma weak_ensure_list (st : toc_state) :
  toc_not_overclosed st ->
  let st' := if negb (inside_list st) then set_list (emit st [UL]) true 1 else st in
  toc_not_overclosed st' /\ inside_list st' = true.
Proof.
  intros Hst. cbv zeta. destruct (inside_list st) eqn:Ei; cbn [negb].
  - split; [exact Hst | exact Ei].
  - split; [|reflexivity]. split; [intros _; cbn; lia|]. destruct Hst as [_ Hb].
    rewrite Ei in Hb. cbn [set_list emit html_output inside_list list_depth].
    rewrite open_minus_closed_app, open_minus_closed_open.
    change (open_minus_closed []) with 0. lia.
Qed.

Lemma weak_nested (st : toc_state) :
  toc_not_overclosed st -> inside_list st && (1 <? list_depth st)%nat = true ->
  inside_list st = true /\ 2 <= open_minus_closed (html_output st).
Proof.
  intros [Hd Hb] H. apply andb_true_iff in H as [Hi Hlt]. apply Nat.ltb_lt in Hlt.
  rewrite Hi in Hb. split; [exact Hi | lia].
Qed.

Lemma weak_exec_summary (st : toc_state) (text : str) (is_bold : bool) :
  toc_not_overclosed st -> toc_not_overclosed (exec_summary st text is_bold).
Proof.
  intros Hst. unfold exec_summary. cbv zeta. destruct is_bold; [|exact Hst].
  destruct (contains _ _).
  - destruct (bullet_parts text) as [|first bullets]; [exact Hst|].
    apply weak_emit_zero; [apply open_minus_closed_bullet_block|].
    now apply weak_emit_other; [apply strong_heading_other|].
  - destruct (nonempty _); [|exact Hst].
    now apply weak_emit_other; [apply strong_heading_other|].
Qed.

Lemma weak_bold_heading (st : toc_state) (text : str) (remove_b : bool) :
  toc_not_overclosed st -> toc_not_overclosed (bold_heading st text remove_b).
Proof.
  intros Hst. unfold bold_heading. cbv zeta.
  destruct (weak_close st Hst) as [Hc _]. destruct (nonempty _); [|exact Hc].
  now apply weak_emit_other; [apply strong_heading_other|].
Qed.

Lemma weak_plain_list_item (st : toc_state) (content : str) :
  toc_not_overclosed st -> toc_not_overclosed (plain_list_item st content).
Proof.
  intros Hst. unfold plain_list_item. cbv zeta.
  set (st1 := if _ && _ && _ then _ else st).
  assert (H1 : toc_not_overclosed st1).
  { unfold st1. destruct (is_main_level_item _ _); [|exact Hst]. cbn [andb].
    destruct (inside_list st && (1 <? list_depth st)%nat) eqn:E; [|exact Hst].
    destruct (weak_nested st Hst E) as [Hi Hb]. split; [intros _; cbn; lia|].
    cbn [set_parent_style set_list emit html_output inside_list list_depth].
    rewrite Hi, open_minus_closed_app, open_minus_closed_close,
      open_minus_closed_other by apply li_end_other.
    change (open_minus_closed []) with 0. lia. }
  clearbody st1.
  apply weak_emit_other; [apply li_other|].
  destruct (inside_list st1) eqn:Ei; cbn [negb]; [exact H1|].
  pose proof (weak_ensure_list st1 H1) as [H2 _]. rewrite Ei in H2. exact H2.
Qed.

Lemma weak_logic3 (rels : gmap str str) (st st' : toc_state) (para : Paragraph)
    (text : str) (is_bold : bool) :
  toc_not_overclosed st -> logic3 rels st para text is_bold = Ok st' ->
  toc_not_overclosed st'.
Proof.
  intros Hst. unfold logic3. cbv zeta.
  set (content := runs_to_html_with_links rels (p_runs para)). clearbody content.
  set (st0 := set_formatted st content).
  assert (H0 : toc_not_overclosed st0) by exact Hst. clearbody st0.
  destruct (is_bold && contains text (u "•")).
  { destruct (weak_close st0 H0) as [Hc _].
    destruct (bullet_parts text) as [|first bullets]; intros [= <-]; [exact Hc|].
    apply weak_emit_zero; [apply open_minus_closed_bullet_block|].
    destruct (nonempty _); [|exact Hc].
    now apply weak_emit_other; [apply strong_heading_other|]. }
  destruct (_ || _ || _).
  - set (content3 := strip_bold_tags content). clearbody content3.
    set (st3 := set_formatted st0 content3).
    assert (H3 : toc_not_overclosed st3) by exact H0. clearbody st3.
    destruct ((_ || _) && not_in_figures st3).
    { intros [= <-]. exact (weak_parent st3 content3 H3). }
    destruct (ends_with_colon content3 && not_in_figures st3).
    { destruct (inside_list st3 && (1 <? list_depth st3)%nat) eqn:E; intros [= <-].
      - destruct (weak_nested st3 H3 E) as [Hi Hb]. split; [intros _; cbn; lia|].
        cbn [set_list emit html_output inside_list list_depth].
        rewrite Hi, open_minus_closed_app, open_minus_closed_other,
          open_minus_closed_open by apply li_strong_other.
        change (open_minus_closed []) with 0. lia.
      - apply weak_emit_other; [apply li_other|].
        exact (proj1 (weak_ensure_list st3 H3)). }
    destruct (contains content3 (u "Country-Level Breakdown:")); intros [= <-].
    + destruct (weak_ensure_list st3 H3) as [[Hd Hb] Hi]. cbv zeta in Hd, Hb, Hi.
      set (st4 := if negb (inside_list st3) then _ else st3) in *. clearbody st4.
      rewrite Hi in Hb. specialize (Hd Hi). split; [intros _; cbn; lia|].
      cbn [set_list emit html_output inside_list list_depth].
      rewrite Hi, open_minus_closed_app, open_minus_closed_other,
        open_minus_closed_open by apply li_strong_other.
      change (open_minus_closed []) with 0. lia.
    + now apply weak_plain_list_item.
  - destruct is_bold; [intros [= <-]; now apply weak_bold_heading|].
    destruct (_ && _); intros [= <-]; [now apply weak_parent|].
    destruct (weak_close st0 H0) as [Hc _]. destruct (nonempty content); [|exact Hc].
    now apply weak_emit_other; [apply p_other|].
Qed.

Lemma weak_toc_loop (rels : gmap str str) (paras : list Paragraph) : forall st st',
  toc_not_overclosed st -> toc_loop 3 rels st paras = Ok st' -> toc_not_overclosed st'.
Proof.
  induction paras as [|para paras IH]; intros st st' Hst; cbn [toc_loop].
  - now intros [= <-].
  - destruct (toc_step 3 rels st para) as [st1|e] eqn:E; cbn [mbind result_bind];
      [|discriminate].
    apply IH. revert E. unfold toc_step. cbv zeta.
    destruct (negb (nonempty _)); [now intros [= <-]|].
    destruct (negb (capture st) && _).
    { intros [= <-]. now apply weak_exec_summary. }
    destruct (capture st); [|now intros [= <-]].
    change (3 =? 1) with false. change (3 =? 2) with false. change (3 =? 3) with true.
    cbv iota. now apply weak_logic3.
Qed.

(** X19. Whatever logic is selected, when [extract_toc] returns, its lines
    never hold more list closings than list openings: an unbalanced table of
    contents always has lists left open, never a list closed twice. *)
Theorem extract_toc_never_overclosed (doc : Document) (out : str) :
  extract_toc doc = Ok out ->
  exists lines,
    toc_lines doc = Ok lines /\ out = join nl lines
    /\ count_line UL_END lines <= count_line UL lines.
Proof.
  rewrite extract_toc_lines. unfold toc_lines. cbv zeta.
  destruct (toc_loop _ _ _ _) as [st|e] eqn:E; cbn [mbind result_bind]; [|discriminate].
  intros [= <-]. eexists. split; [reflexivity|]. split; [reflexivity|].
  assert (Hinit : toc_balanced toc_init) by (split; [discriminate | reflexivity]).
  assert (Hst : toc_not_overclosed st).
  { destruct (Z.eq_dec (determine_toc_logic doc) 3) as [H3|H3].
    - rewrite H3 in E.
      exact (weak_toc_loop _ _ _ _ (balanced_not_overclosed _ Hinit) E).
    - apply balanced_not_overclosed. exact (balanced_toc_loop _ _ _ H3 _ _ Hinit E). }
  destruct Hst as [Hd Hb].
  enough (0 <= open_minus_closed
            (html_output (if inside_list st
                          then emit st (replicate (list_depth st) UL_END) else st)))
    by (unfold open_minus_closed in *; lia).
  destruct (inside_list st).
  - cbn [emit html_output]. rewrite open_minus_closed_app, open_minus_closed_replicate. lia.
  - exact Hb.
Qed.
End TocNotOverclosed.

Lemma extract_toc_never_overclosed_witness :
  exists lines,
    toc_lines (UD := plain_unicode) breakdown_doc = Ok lines
    /\ join nl
         [ nl ++ u "<strong>Executive Summary</strong>";
           u "<ul>";
           u "<li><p><strong>Country-Level Breakdown: United States, Canada</strong></p>";
           u "<ul>";
           u "<li><p><strong>Country-Level Breakdown: Germany, France</strong></p>";
           u "<ul>";
           u "</ul>";
           u "</ul>" ] = join nl lines
    /\ count_line UL_END lines <= count_line UL lines.
Proof.
  apply (extract_toc_never_overclosed (UD := plain_unicode)). vm_compute. reflexivity.
Defined.
